(** * AgentPress thread manager and repository tools: a shallow embedding

    The development follows three source files:
    - [agent/agentpress/thread_manager.py] (module [ThreadManager] below):
      the thread store with its active and history logs, the listing
      filters, the incomplete-tool-call repair and [run_thread];
    - [agent/tools/bash_tool.py] (module [BashTool]);
    - [agent/tools/repo_tool.py] (module [RepoTool]): [BashExecutor],
      [edit_file] and [run_bash].

    Python values are modelled as the code uses them: a message is a record
    of optional fields (a field is [None] when the key is absent from the
    dict), the thread files are finite maps from the thread id to the stored
    list of messages, exceptions are values of [exn] threaded through an
    error-and-state monad, and the outside world (the model transport, the
    Docker subprocess) is an input of the functions that talk to it. *)

From Stdlib Require Import ZArith String Ascii List Bool Lia.
From stdpp Require Import base option list gmap strings.

Local Open Scope string_scope.
Local Open Scope Z_scope.

(** ** Python preliminaries *)

Module Py.

(** Exceptions, by class; every one carries what [str(e)] needs. *)
Inductive exn : Type :=
| FileNotFoundError (path : string)
| KeyError (key : string)
| TypeError (msg : string)
| ValueError (msg : string)
| Exception (msg : string).

Definition squote : string := String (ascii_of_nat 39) EmptyString.
Definition dquote : string := String (ascii_of_nat 34) EmptyString.
Definition nl : string := String (ascii_of_nat 10) EmptyString.
Definition backtick : string := String (ascii_of_nat 96) EmptyString.

(** [str(e)] *)
Definition str (e : exn) : string :=
  match e with
  | FileNotFoundError p =>
      "[Errno 2] No such file or directory: " +:+ squote +:+ p +:+ squote
  | KeyError k => squote +:+ k +:+ squote
  | TypeError m | ValueError m | Exception m => m
  end.

Inductive res (A : Type) : Type :=
| Ok (a : A)
| Raise (e : exn).
Arguments Ok {A} a.
Arguments Raise {A} e.

Definition is_ok {A} (r : res A) : bool :=
  match r with Ok _ => true | Raise _ => false end.

#[global] Instance exn_eq_dec : EqDecision exn.
Proof. solve_decision. Defined.

(** *** State that survives an exception

    A computation over a state [S] returns a value or raises, and leaves a
    state either way: what was written before the exception stays
    written. *)
Definition M (S A : Type) : Type := S -> res A * S.

Definition ret {S A} (a : A) : M S A := fun s => (Ok a, s).
Definition raise {S A} (e : exn) : M S A := fun s => (Raise e, s).
Definition bind {S A B} (m : M S A) (k : A -> M S B) : M S B :=
  fun s => match m s with
           | (Ok a, s') => k a s'
           | (Raise e, s') => (Raise e, s')
           end.
Definition lift {S A} (r : res A) : M S A := fun s => (r, s).

(** [try: body except Exception as e: handler(e)] *)
Definition try_except {S A} (body : M S A) (handler : exn -> M S A) : M S A :=
  fun s => match body s with
           | (Ok a, s') => (Ok a, s')
           | (Raise e, s') => handler e s'
           end.

Notation "'let*' x ':=' m 'in' k" := (bind m (fun x => k))
  (at level 10, x name, m at level 100, k at level 200, only parsing).
Notation "m '>>' k" := (bind m (fun _ => k))
  (at level 62, right associativity, only parsing).

End Py.
Export Py.

(** ** Tool results

    [agentpress.tool] is not part of the sources at hand; only the shape of
    the value the tools return and the two constructors of the base class are
    needed. *)

Module Tool.

(** Modelled from the spec: the [ToolResult] dataclass of [agentpress.tool]
    (missing), "a result tagged success/failure with a text payload". *)
Record ToolResult : Type := mkToolResult {
  success : bool;
  output : string
}.

#[global] Instance ToolResult_eq_dec : EqDecision ToolResult.
Proof. solve_decision. Defined.

(** Modelled from the spec: [Tool.success_response] of [agentpress.tool]
    (missing), at a text argument: the success-tagged result. *)
Definition success_response (data : string) : ToolResult :=
  {| success := true; output := data |}.

(** Modelled from the spec: [Tool.fail_response] of [agentpress.tool]
    (missing): the failure-tagged result. *)
Definition fail_response (msg : string) : ToolResult :=
  {| success := false; output := msg |}.

End Tool.

(** ** [thread_manager.py] *)

Module ThreadManager.
Import Tool.

(** *** Messages *)

(** One entry of an assistant message's [tool_calls]:
    [{"id": .., "type": .., "function": {"name": .., "arguments": ..}}]. *)
Record tool_call : Type := mkToolCall {
  tc_id : string;
  tc_type : string;
  tc_function_name : string;
  tc_function_arguments : string
}.

Inductive content_part : Type :=
| TextPart (text : string)                 (* {"type": "text", "text": ..} *)
| ImagePart (url : string) (detail : string).
    (* {"type": "image_url", "image_url": {"url": .., "detail": ..}} *)

Inductive content_value : Type :=
| CStr (s : string)
| CParts (parts : list content_part)
| CResult (r : ToolResult)     (* a ToolResult instance, before add_message *)
| CNull.                       (* anything that is neither str nor list *)

(** A message dict.  A field is [None] when the dict has no such key. *)
Record message : Type := mkMessage {
  role : option string;
  content : option content_value;
  tool_calls : option (list tool_call);
  tool_call_id : option string;
  name : option string
}.

Record image : Type := mkImage {
  content_type : string;
  base64 : string
}.

#[global] Instance tool_call_eq_dec : EqDecision tool_call.
Proof. solve_decision. Defined.
#[global] Instance content_part_eq_dec : EqDecision content_part.
Proof. solve_decision. Defined.
#[global] Instance content_value_eq_dec : EqDecision content_value.
Proof. solve_decision. Defined.
#[global] Instance message_eq_dec : EqDecision message.
Proof. solve_decision. Defined.

(** *** The thread files

    [threads] holds the content of [<thread_id>.json], [histories] that of
    [<thread_id>_history.json]; an absent key is a file that does not exist.
    Thread ids are the uuid strings [create_thread] hands out, so the two
    families of paths never meet and are kept as two maps.  Failures of the
    file system other than a missing file are outside the model.  (The
    directory itself, in which an id of another form can name a file of
    another thread and a write can fail, is the subject of [ThreadFiles]
    below.) *)
Record store : Type := mkStore {
  threads : gmap string (list message);
  histories : gmap string (list message)
}.

(** The store operations run in the monad of [Py], over the store. *)
Definition M (A : Type) : Type := Py.M store A.

(** [with open(thread_path, 'r') as f: json.load(f)["messages"]] *)
Definition read_thread (thread_id : string) : M (list message) :=
  fun s => match threads s !! thread_id with
           | Some msgs => (Ok msgs, s)
           | None => (Raise (FileNotFoundError (thread_id +:+ ".json")), s)
           end.

(** [with open(thread_path, 'w') as f: json.dump({"messages": msgs}, f)] *)
Definition write_thread (thread_id : string) (msgs : list message) : M unit :=
  fun s => (Ok tt, {| threads := <[thread_id := msgs]> (threads s);
                      histories := histories s |}).

(** The history file, read with the fallback of [add_message]:
    [except FileNotFoundError: history_data = {"messages": []}]. *)
Definition read_history (thread_id : string) : M (list message) :=
  fun s => (Ok (default [] (histories s !! thread_id)), s).

Definition write_history (thread_id : string) (msgs : list message) : M unit :=
  fun s => (Ok tt, {| threads := threads s;
                      histories := <[thread_id := msgs]> (histories s) |}).

(** *** list_messages *)

(** [msg.get('role') == r] *)
Definition role_is (r : string) (msg : message) : bool :=
  bool_decide (role msg = Some r).

(** [{k: v for k, v in msg.items() if k != 'tool_calls'}] *)
Definition without_tool_calls (msg : message) : message :=
  {| role := role msg; content := content msg; tool_calls := None;
     tool_call_id := tool_call_id msg; name := name msg |}.

(** [msg.get('role') in ['system', 'assistant', 'tool', 'user']] *)
Definition regular_role (msg : message) : bool :=
  role_is "system" msg || role_is "assistant" msg
  || role_is "tool" msg || role_is "user" msg.

(** [for msg in reversed(messages): if msg.get('role') == 'assistant':
    return [msg]] followed by [return []] *)
Definition latest_assistant (messages : list message) : list message :=
  match List.find (role_is "assistant") (rev messages) with
  | Some msg => [msg]
  | None => []
  end.

Definition hide_tool (messages : list message) : list message :=
  map without_tool_calls
      (List.filter (fun msg => negb (role_is "tool" msg)) messages).

Definition list_messages (thread_id : string)
    (hide_tool_msgs only_latest_assistant regular_list : bool)
    : M (list message) :=
  try_except
    (let* messages := read_thread thread_id in
     if only_latest_assistant then ret (latest_assistant messages)
     else
       let filtered_messages := messages in
       let filtered_messages :=
         if hide_tool_msgs then hide_tool filtered_messages
         else filtered_messages in
       let filtered_messages :=
         if regular_list then List.filter regular_role filtered_messages
         else filtered_messages in
       ret filtered_messages)
    (fun e => match e with
              | FileNotFoundError _ => ret []
              | _ => raise e
              end).

(** *** cleanup_incomplete_tool_calls *)

(** [m['role']] *)
Definition subscript_role (m : message) : res string :=
  match role m with
  | Some r => Ok r
  | None => Raise (KeyError "role")
  end.

(** [m['role'] == 'assistant' and 'tool_calls' in m] *)
Definition assistant_with_tool_calls (m : message) : res bool :=
  match subscript_role m with
  | Ok r => Ok (String.eqb r "assistant" && bool_decide (is_Some (tool_calls m)))
  | Raise e => Raise e
  end.

(** [next((m for m in reversed(messages) if m['role'] == 'assistant' and
    'tool_calls' in m), None)], on the reversed list *)
Fixpoint next_assistant (reversed : list message) : res (option message) :=
  match reversed with
  | [] => Ok None
  | m :: rest =>
      match assistant_with_tool_calls m with
      | Ok true => Ok (Some m)
      | Ok false => next_assistant rest
      | Raise e => Raise e
      end
  end.

(** [messages.index(x)]: the first position holding a value equal to [x] *)
Fixpoint index (x : message) (messages : list message) : res nat :=
  match messages with
  | [] => Raise (ValueError "x is not in list")
  | m :: rest =>
      if bool_decide (m = x) then Ok 0%nat
      else match index x rest with
           | Ok i => Ok (S i)
           | Raise e => Raise e
           end
  end.

(** [[m for m in msgs if m['role'] == 'tool']] *)
Fixpoint tool_role_messages (msgs : list message) : res (list message) :=
  match msgs with
  | [] => Ok []
  | m :: rest =>
      match subscript_role m with
      | Raise e => Raise e
      | Ok r =>
          match tool_role_messages rest with
          | Raise e => Raise e
          | Ok l => Ok (if String.eqb r "tool" then m :: l else l)
          end
      end
  end.

Definition interrupted_marker : string :=
  "ToolResult(success=False, output=" +:+ squote +:+
  "Execution interrupted. Session was stopped." +:+ squote +:+ ")".

Definition failed_tool_result (tc : tool_call) : message :=
  {| role := Some "tool";
     content := Some (CStr interrupted_marker);
     tool_calls := None;
     tool_call_id := Some (tc_id tc);
     name := Some (tc_function_name tc) |}.

(** A dict is truthy when it has a key. *)
Definition truthy (m : message) : bool :=
  bool_decide (is_Some (role m)) || bool_decide (is_Some (content m))
  || bool_decide (is_Some (tool_calls m))
  || bool_decide (is_Some (tool_call_id m)) || bool_decide (is_Some (name m)).

Definition cleanup_incomplete_tool_calls (thread_id : string) : M bool :=
  let* messages := list_messages thread_id false false true in
  let* last_assistant_message := lift (next_assistant (rev messages)) in
  match last_assistant_message with
  | Some lam =>
      if truthy lam then
        let tool_calls := default [] (tool_calls lam) in
        let* i := lift (index lam messages) in
        let* tool_responses :=
          lift (tool_role_messages (drop (S i) messages)) in
        if negb (length tool_calls =? length tool_responses)%nat then
          let failed_tool_results :=
            map failed_tool_result
                (drop (length tool_responses) tool_calls) in
          let* assistant_index := lift (index lam messages) in
          let messages :=
            (take (S assistant_index) messages ++ failed_tool_results
             ++ drop (S assistant_index) messages)%list in
          write_thread thread_id messages >>
          ret true
        else ret false
      else ret false
  | None => ret false
  end.

(** *** add_message *)

(** [next((i for i in reversed(range(len(messages))) if
    messages[i]['role'] == 'assistant' and 'tool_calls' in messages[i]),
    None)], on the reversed list: the head of [reversed] sits at index
    [length rest]. *)
Fixpoint next_assistant_index (reversed : list message) : res (option nat) :=
  match reversed with
  | [] => Ok None
  | m :: rest =>
      match assistant_with_tool_calls m with
      | Ok true => Ok (Some (length rest))
      | Ok false => next_assistant_index rest
      | Raise e => Raise e
      end
  end.

(** [len(messages[i]['tool_calls'])] *)
Definition tool_call_count_at (messages : list message) (i : nat) : res nat :=
  match messages !! i with
  | None => Raise (Exception "list index out of range")
  | Some m =>
      match tool_calls m with
      | Some tcs => Ok (length tcs)
      | None => Raise (KeyError "tool_calls")
      end
  end.

(** [sum(1 for msg in msgs if msg['role'] == 'tool')] *)
Definition tool_response_count (msgs : list message) : res nat :=
  match tool_role_messages msgs with
  | Ok l => Ok (length l)
  | Raise e => Raise e
  end.

(** The image part built for one attachment. *)
Definition image_content (img : image) : content_part :=
  ImagePart ("data:" +:+ content_type img +:+ ";base64," +:+ base64 img)
            "high".

(** [if images: ...]: the content becomes a list of parts and receives one
    image part per attachment. *)
Definition attach_images (message_data : message) (images : list image)
    : res message :=
  match images with
  | [] => Ok message_data
  | _ :: _ =>
      match content message_data with
      | None => Raise (KeyError "content")
      | Some c =>
          let parts :=
            match c with
            | CStr text => [TextPart text]
            | CParts ps => ps
            | _ => []
            end in
          Ok {| role := role message_data;
                content := Some (CParts (parts ++ map image_content images)%list);
                tool_calls := tool_calls message_data;
                tool_call_id := tool_call_id message_data;
                name := name message_data |}
      end
  end.

Section WithToolResultStr.

(** [str(value)] at a [ToolResult]: defined with the dataclass in
    [agentpress.tool], which is not at hand. *)
Variable ToolResult_str : ToolResult -> string.

(** [for key, value in message_data.items(): if isinstance(value,
    ToolResult): message_data[key] = str(value)] *)
Definition convert_tool_results (message_data : message) : message :=
  match content message_data with
  | Some (CResult r) =>
      {| role := role message_data;
         content := Some (CStr (ToolResult_str r));
         tool_calls := tool_calls message_data;
         tool_call_id := tool_call_id message_data;
         name := name message_data |}
  | _ => message_data
  end.

Definition add_message (thread_id : string) (message_data : message)
    (images : list image) : M unit :=
  try_except
    (let* messages := read_thread thread_id in
     let* r := lift (subscript_role message_data) in
     (if String.eqb r "user" then
        let* last_assistant_index :=
          lift (next_assistant_index (rev messages)) in
        match last_assistant_index with
        | Some i =>
            let* tool_call_count := lift (tool_call_count_at messages i) in
            let* tool_response_count :=
              lift (tool_response_count (drop (S i) messages)) in
            if negb (tool_call_count =? tool_response_count)%nat then
              cleanup_incomplete_tool_calls thread_id >> ret tt
            else ret tt
        | None => ret tt
        end
      else ret tt) >>
     let message_data := convert_tool_results message_data in
     let* message_data := lift (attach_images message_data images) in
     (* [messages] is still the list read at the top *)
     let messages := (messages ++ [message_data])%list in
     write_thread thread_id messages >>
     let* history := read_history thread_id in
     write_history thread_id (history ++ [message_data])%list)
    (fun e => raise e).

(** *** add_to_history_only *)
Definition add_to_history_only (thread_id : string) (message_data : message)
    : M unit :=
  try_except
    (let* history := read_history thread_id in
     let message_data := convert_tool_results message_data in
     write_history thread_id (history ++ [message_data])%list)
    (fun e => raise e).

End WithToolResultStr.

(** *** The index check of modify_message and remove_message *)

(** [0 <= message_index < len(messages)] *)
Definition in_range (message_index : Z) (messages : list message) : bool :=
  (0 <=? message_index) && (message_index <? Z.of_nat (length messages)).

(** *** run_thread

    The model transport ([agentpress.llm.make_llm_api_call]), the response
    processor ([agentpress.llm_response_processor]) and the tool registry are
    outside the sources at hand: they are the variables of this section.  The
    transport answers a request or raises; the processor works on the store
    through the callbacks it is given. *)
Section RunThread.

Variables (response schema function_table custom float any : Type).

(** The components [run_thread] selects when the caller gives none. *)
Inductive tool_parser : Type :=
| XMLToolParser | StandardToolParser | GivenToolParser (p : custom).
Inductive tool_executor : Type :=
| XMLToolExecutor (parallel : bool) | StandardToolExecutor (parallel : bool)
| GivenToolExecutor (x : custom).
Inductive results_adder : Type :=
| XMLResultsAdder | StandardResultsAdder | GivenResultsAdder (a : custom).

(** The keyword arguments of [make_llm_api_call]. *)
Record request : Type := mkRequest {
  req_messages : list message;
  req_model_name : string;
  req_temperature : float;
  req_max_tokens : option Z;
  req_tools : option (list schema);
  req_tool_choice : option string;
  req_stream : bool;
  req_agentops_session : any;
  req_stop_sequences : option (list string)
}.

(** The arguments of the [LLMResponseProcessor] constructor (the callbacks
    are the methods of this manager); [None] for the available functions is
    the empty dict passed when no tool calling is requested. *)
Record processor : Type := mkProcessor {
  proc_thread_id : string;
  proc_available_functions : option function_table;
  proc_parallel_tool_execution : bool;
  proc_tool_parser : option tool_parser;
  proc_tool_executor : option tool_executor;
  proc_results_adder : option results_adder
}.

Variable make_llm_api_call : request -> res response.
Variable process_response : processor -> response -> bool -> M unit.
Variable get_openapi_schemas : list schema.
Variable get_available_functions : function_table.

(** What [run_thread] returns: the response, the generator made by
    [process_stream] (not yet started), or the error dict. *)
Inductive run_result : Type :=
| Response (r : response)
| StreamOf (p : processor) (response_stream : response)
           (execute_tools execute_tools_on_stream : bool)
| ErrorDict (status : string) (msg : string).

Definition continue_message : message :=
  {| role := Some "user";
     content := Some (CStr "Continue! You must always use a tool.");
     tool_calls := None; tool_call_id := None; name := None |}.

(** [messages and messages[-1].get('role') == 'assistant'] *)
Definition ends_with_assistant (messages : list message) : bool :=
  match last messages with
  | Some m => role_is "assistant" m
  | None => false
  end.

(** [[system_message] + messages], after the "temporary fix" that appends
    a user message to a log ending with an assistant message, and with
    the temporary message when there is one. *)
Definition prepare_messages (system_message : message)
    (messages : list message) (temporary_message : option message)
    : list message :=
  let messages :=
    if ends_with_assistant messages
    then (messages ++ [continue_message])%list else messages in
  let prepared_messages := system_message :: messages in
  match temporary_message with
  | Some t => if truthy t then (prepared_messages ++ [t])%list
              else prepared_messages
  | None => prepared_messages
  end.

Definition run_thread (thread_id : string) (system_message : message)
    (model_name : string) (temperature : float) (max_tokens : option Z)
    (tool_choice : string) (temporary_message : option message)
    (native_tool_calling xml_tool_calling execute_tools stream
       execute_tools_on_stream parallel_tool_execution : bool)
    (tool_parser : option tool_parser)
    (tool_executor : option tool_executor)
    (results_adder : option results_adder)
    (agentops_session : any) (stop_sequences : option (list string))
    : M run_result :=
  if native_tool_calling && xml_tool_calling then
    raise (ValueError "Cannot use both native LLM tool calling and XML tool calling simultaneously")
  else
    let enabled := native_tool_calling || xml_tool_calling in
    let tool_parser :=
      if enabled then
        match tool_parser with
        | None => Some (if xml_tool_calling then XMLToolParser
                        else StandardToolParser)
        | given => given
        end
      else tool_parser in
    let tool_executor :=
      if enabled then
        match tool_executor with
        | None => Some (if xml_tool_calling
                        then XMLToolExecutor parallel_tool_execution
                        else StandardToolExecutor parallel_tool_execution)
        | given => given
        end
      else tool_executor in
    let results_adder :=
      if enabled then
        match results_adder with
        | None => Some (if xml_tool_calling then XMLResultsAdder
                        else StandardResultsAdder)
        | given => given
        end
      else results_adder in
    try_except
      (let* messages := list_messages thread_id false false true in
       let prepared_messages :=
         prepare_messages system_message messages temporary_message in
       let openapi_tool_schemas :=
         if native_tool_calling then Some get_openapi_schemas else None in
       let available_functions :=
         if native_tool_calling || xml_tool_calling
         then Some get_available_functions else None in
       let response_processor :=
         {| proc_thread_id := thread_id;
            proc_available_functions := available_functions;
            proc_parallel_tool_execution := parallel_tool_execution;
            proc_tool_parser := tool_parser;
            proc_tool_executor := tool_executor;
            proc_results_adder := results_adder |} in
       let* llm_response :=
         lift (make_llm_api_call
                 {| req_messages := prepared_messages;
                    req_model_name := model_name;
                    req_temperature := temperature;
                    req_max_tokens := max_tokens;
                    req_tools := openapi_tool_schemas;
                    req_tool_choice :=
                      if native_tool_calling then Some tool_choice else None;
                    req_stream := stream;
                    req_agentops_session := agentops_session;
                    req_stop_sequences := stop_sequences |}) in
       if stream then
         ret (StreamOf response_processor llm_response
                       execute_tools execute_tools_on_stream)
       else
         process_response response_processor llm_response execute_tools >>
         ret (Response llm_response))
      (fun e => ret (ErrorDict "error" (str e))).

End RunThread.

Arguments XMLToolParser {custom}.
Arguments StandardToolParser {custom}.
Arguments GivenToolParser {custom} p.
Arguments XMLToolExecutor {custom} parallel.
Arguments StandardToolExecutor {custom} parallel.
Arguments GivenToolExecutor {custom} x.
Arguments XMLResultsAdder {custom}.
Arguments StandardResultsAdder {custom}.
Arguments GivenResultsAdder {custom} a.
Arguments mkRequest {schema float any}.
Arguments mkProcessor {function_table custom}.
Arguments Response {response function_table custom} r.
Arguments StreamOf {response function_table custom}.
Arguments ErrorDict {response function_table custom} status msg.
Arguments run_thread {response schema function_table custom float any}.

(** The two logs of a thread; a missing file reads as the empty log. *)
Definition active_log (s : store) (thread_id : string) : list message :=
  default [] (threads s !! thread_id).
Definition history_log (s : store) (thread_id : string) : list message :=
  default [] (histories s !! thread_id).

(** A message the repair synthesizes. *)
Definition interrupted (m : message) : Prop :=
  exists tc, m = failed_tool_result tc.

(** *** Sample data for the concrete evaluations *)
Module Sample.

Definition call (id fn : string) : tool_call :=
  {| tc_id := id; tc_type := "function"; tc_function_name := fn;
     tc_function_arguments := "{}" |}.

Definition assistant_calling (calls : list tool_call) : message :=
  {| role := Some "assistant"; content := Some (CStr "working");
     tool_calls := Some calls; tool_call_id := None; name := None |}.

Definition user_says (text : string) : message :=
  {| role := Some "user"; content := Some (CStr text);
     tool_calls := None; tool_call_id := None; name := None |}.

Definition tool_answer (id fn text : string) : message :=
  {| role := Some "tool"; content := Some (CStr text);
     tool_calls := None; tool_call_id := Some id; name := Some fn |}.

Definition note (text : string) : message :=
  {| role := Some "note"; content := Some (CStr text);
     tool_calls := None; tool_call_id := None; name := None |}.

Definition one_thread (msgs hist : list message) : store :=
  {| threads := {[ "t" := msgs ]}; histories := {[ "t" := hist ]} |}.

Definition plain_str (r : ToolResult) : string := output r.

End Sample.

(** *** Specification vocabulary

    The pure functions and predicates the properties below are stated
    with. *)

(** The view [list_messages] computes from the stored list. *)
Definition view (hide_tool_msgs only_latest_assistant regular_list : bool)
    (messages : list message) : list message :=
  if only_latest_assistant then latest_assistant messages
  else
    let shown := if hide_tool_msgs then hide_tool messages else messages in
    if regular_list then List.filter regular_role shown else shown.

(** The messages the hide-tool listing keeps: not of role tool, and of a
    regular role when [regular_list] is set as well. *)
Definition kept (regular_list : bool) (m : message) : bool :=
  negb (role_is "tool" m) && (if regular_list then regular_role m else true).

(** A message of the data model: one of the four roles, and [tool_calls]
    on assistant messages only. *)
Definition canonical (m : message) : Prop :=
  regular_role m = true
  /\ (is_Some (tool_calls m) -> role m = Some "assistant").

(** [tool_calls] taken off an assistant message, any other left as it is. *)
Definition strip_assistant (m : message) : message :=
  if role_is "assistant" m then without_tool_calls m else m.

(** [m['role'] == 'assistant' and 'tool_calls' in m] where the role is there *)
Definition awtc (m : message) : bool :=
  role_is "assistant" m && bool_decide (is_Some (tool_calls m)).

(** The repair as a function of the stored list: [Some] of the list it
    writes, [None] when it writes nothing. *)
Definition repaired (stored : list message) : option (list message) :=
  let messages := List.filter regular_role stored in
  match List.find awtc (rev messages) with
  | None => None
  | Some lam =>
      match index lam messages with
      | Raise _ => None
      | Ok i =>
          let tool_responses :=
            List.filter (role_is "tool") (drop (S i) messages) in
          let calls := default [] (tool_calls lam) in
          if (length calls =? length tool_responses)%nat then None
          else Some (take (S i) messages
                       ++ map failed_tool_result
                            (drop (length tool_responses) calls)
                       ++ drop (S i) messages)%list
      end
  end.

(** What [add_message] leaves behind: the store as it was (it raised before
    writing), the store after the repair (it raised after the repair), or
    the two logs each extended with the message, the active one from the
    list read at the start of the call. *)
Inductive add_message_outcome (f : ToolResult -> string)
    (thread_id : string) (message_data : message) (images : list image)
    (s : store) : res unit * store -> Prop :=
| add_raised_early e :
    add_message_outcome f thread_id message_data images s (Raise e, s)
| add_raised_after_repair e :
    add_message_outcome f thread_id message_data images s
      (Raise e, snd (cleanup_incomplete_tool_calls thread_id s))
| add_appended msgs m :
    threads s !! thread_id = Some msgs ->
    attach_images (convert_tool_results f message_data) images = Ok m ->
    add_message_outcome f thread_id message_data images s
      (Ok tt,
       {| threads := <[thread_id := (msgs ++ [m])%list]> (threads s);
          histories :=
            <[thread_id := (history_log s thread_id ++ [m])%list]>
              (histories s) |}).

(** Every message of an active log is in the history log of its thread,
    or is one the repair synthesized. *)
Definition covered (s : store) : Prop :=
  forall tid m, In m (active_log s tid) ->
                In m (history_log s tid) \/ interrupted m.

(** *** Tools run from the manager

    The tool registry and the tool executor ([agentpress.tool_registry],
    [agentpress.standard_tool_executor]) are not among the sources: the table
    of available functions and [execute_tool_calls] are the variables of this
    section.  A tool function takes its arguments to a result or raises; the
    executor returns the tool messages of the calls, or raises, and may write
    the store through the callbacks it holds. *)
Section ToolsFromManager.

Variable ToolResult_str : ToolResult -> string.
Variable arguments : Type.
Variable available_functions : gmap string (arguments -> res ToolResult).
Variable execute_tool_calls : list tool_call -> string -> M (list message).

(** [f"{value}"] at a content that is not a string: Python's [str] of a list
    of parts or of any other value. *)
Variable format_other : content_value -> string.

Definition execute_tool_and_add_message (thread_id role tool_name : string)
    (args : arguments) : M unit :=
  match available_functions !! tool_name with
  | None =>
      raise (ValueError ("Tool " +:+ tool_name +:+ " is not registered."))
  | Some tool_function =>
      let* tool_result := lift (tool_function args) in
      let tool_message :=
        {| role := Some role;
           content := Some (CStr (ToolResult_str tool_result));
           tool_calls := None; tool_call_id := None; name := None |} in
      add_message ToolResult_str thread_id tool_message []
  end.

(** [f"{value}"] *)
Definition format_content (c : content_value) : string :=
  match c with
  | CStr s => s
  | _ => format_other c
  end.

(** [sep.join(items)] *)
Fixpoint join (sep : string) (items : list string) : string :=
  match items with
  | [] => EmptyString
  | [x] => x
  | x :: rest => x +:+ sep +:+ join sep rest
  end.

(** [f"\nTool {result['name']} output: {result['content']}"] *)
Definition tool_output_line (result : message) : res string :=
  match name result with
  | None => Raise (KeyError "name")
  | Some n =>
      match content result with
      | None => Raise (KeyError "content")
      | Some c =>
          Ok (nl +:+ "Tool " +:+ n +:+ " output: " +:+ format_content c)
      end
  end.

Fixpoint tool_output_lines (results : list message) : res (list string) :=
  match results with
  | [] => Ok []
  | r :: rest =>
      match tool_output_line r with
      | Raise e => Raise e
      | Ok line =>
          match tool_output_lines rest with
          | Raise e => Raise e
          | Ok lines => Ok (line :: lines)
          end
      end
  end.

(** [for result in tool_results: await self.add_message(thread_id, result)] *)
Fixpoint add_messages (thread_id : string) (results : list message) : M unit :=
  match results with
  | [] => ret tt
  | r :: rest =>
      add_message ToolResult_str thread_id r [] >>
      add_messages thread_id rest
  end.

Definition add_message_and_run_tools (thread_id : string)
    (message_data : message) : M unit :=
  match tool_calls message_data with
  | Some calls =>
      if role_is "user" message_data then
        let* tool_results := execute_tool_calls calls thread_id in
        match content message_data with
        | None => raise (KeyError "content")
        | Some original_content =>
            let* lines := lift (tool_output_lines tool_results) in
            let tool_outputs := join nl lines in
            let message_data :=
              {| role := role message_data;
                 content :=
                   Some (CStr (format_content original_content
                               +:+ tool_outputs));
                 tool_calls := None;
                 tool_call_id := tool_call_id message_data;
                 name := name message_data |} in
            add_message ToolResult_str thread_id message_data []
        end
      else
        add_message ToolResult_str thread_id message_data [] >>
        let* tool_results := execute_tool_calls calls thread_id in
        add_messages thread_id tool_results
  | None =>
      add_message ToolResult_str thread_id message_data []
  end.

End ToolsFromManager.

Arguments execute_tool_and_add_message ToolResult_str {arguments}.

End ThreadManager.

(** ** The directory of the thread files

    [ThreadManager.store] keeps the thread files and the history files of
    the threads apart, under the thread id.  The code derives both paths from
    the id it is given, [<thread_id>.json] and [<thread_id>_history.json]: the
    thread file of the id [x_history] is the history file of the thread [x].
    And [json.dump] raises on a value it cannot encode, after [open(.., 'w')]
    has emptied the file.  The operations whose properties depend on either
    are modelled here over the directory itself, a map from the file names in
    [threads_dir] to what the files hold.  The pure parts (the views of
    [list_messages], the search for the last request, the failure messages)
    are those of [ThreadManager].

    A file name is taken as the key of the file: a thread id with a path
    separator, which would name a file of another directory or the same file
    twice, is outside the model ([thread_name] below is the side condition of
    the properties that speak of several files). *)

Module ThreadFiles.
Import Tool ThreadManager.

(** What a file of the directory holds. *)
Inductive file : Type :=
| Json (messages : list message)    (* the document {"messages": messages} *)
| Broken.                           (* the start of a document that a failed
                                       json.dump left: not a JSON document *)

Abbreviation directory := (gmap string file).

Definition empty_directory : directory := ∅.

Definition D (A : Type) : Type := Py.M directory A.

(** [os.path.join(self.threads_dir, f"{thread_id}.json")] and
    [os.path.join(self.threads_dir, f"{thread_id}_history.json")], as names
    in [threads_dir]. *)
Definition thread_path (thread_id : string) : string :=
  thread_id +:+ ".json".
Definition history_path (thread_id : string) : string :=
  thread_id +:+ "_history.json".

(** A message [json.dump] can encode: one that holds no [ToolResult]
    instance.  (A [CNull] content stands for a JSON value that is neither a
    string nor a list.) *)
Definition json_value (m : message) : bool :=
  match content m with
  | Some (CResult _) => false
  | _ => true
  end.

(** The [TypeError] of [json.dump]. *)
Definition not_serializable : exn :=
  TypeError "Object of type ToolResult is not JSON serializable".

(** The [json.JSONDecodeError] (a [ValueError]) of [json.load] on a file
    that holds no document; the position it reports is left out. *)
Definition json_decode_error : exn := ValueError "Expecting value".

(** [with open(path, 'r') as f: json.load(f)["messages"]] *)
Definition read_file (path : string) : D (list message) :=
  fun d => match d !! path with
           | Some (Json msgs) => (Ok msgs, d)
           | Some Broken => (Raise json_decode_error, d)
           | None => (Raise (FileNotFoundError path), d)
           end.

(** [with open(path, 'w') as f: json.dump({"messages": msgs}, f)]: the file
    is emptied when it is opened, and [json.dump] writes the document piece by
    piece until it meets a value it cannot encode. *)
Definition write_file (path : string) (msgs : list message) : D unit :=
  fun d => if forallb json_value msgs
           then (Ok tt, <[path := Json msgs]> d)
           else (Raise not_serializable, <[path := Broken]> d).

(** [try: .. except FileNotFoundError: ..] *)
Definition or_if_missing {A : Type} (body : D A) (fallback : D A) : D A :=
  try_except body
    (fun e => match e with
              | FileNotFoundError _ => fallback
              | _ => raise e
              end).

(** *** create_thread

    [uuid] stands for [str(uuid.uuid4())], drawn by the caller of the
    model. *)
Definition create_thread (uuid : string) : D string :=
  let thread_id := uuid in
  write_file (thread_path thread_id) [] >>
  write_file (history_path thread_id) [] >>
  ret thread_id.

(** *** list_messages *)
Definition list_messages (thread_id : string)
    (hide_tool_msgs only_latest_assistant regular_list : bool)
    : D (list message) :=
  or_if_missing
    (let* messages := read_file (thread_path thread_id) in
     if only_latest_assistant then ret (latest_assistant messages)
     else
       let filtered_messages := messages in
       let filtered_messages :=
         if hide_tool_msgs then hide_tool filtered_messages
         else filtered_messages in
       let filtered_messages :=
         if regular_list then List.filter regular_role filtered_messages
         else filtered_messages in
       ret filtered_messages)
    (ret []).

(** *** cleanup_incomplete_tool_calls *)
Definition cleanup_incomplete_tool_calls (thread_id : string) : D bool :=
  let* messages := list_messages thread_id false false true in
  let* last_assistant_message := lift (next_assistant (rev messages)) in
  match last_assistant_message with
  | Some lam =>
      if truthy lam then
        let tool_calls := default [] (tool_calls lam) in
        let* i := lift (index lam messages) in
        let* tool_responses :=
          lift (tool_role_messages (drop (S i) messages)) in
        if negb (length tool_calls =? length tool_responses)%nat then
          let failed_tool_results :=
            map failed_tool_result
                (drop (length tool_responses) tool_calls) in
          let* assistant_index := lift (index lam messages) in
          let messages :=
            (take (S assistant_index) messages ++ failed_tool_results
             ++ drop (S assistant_index) messages)%list in
          write_file (thread_path thread_id) messages >>
          ret true
        else ret false
      else ret false
  | None => ret false
  end.

(** *** add_message *)
Section WithToolResultStr.

Variable ToolResult_str : ToolResult -> string.

Definition add_message (thread_id : string) (message_data : message)
    (images : list image) : D unit :=
  try_except
    (let* messages := read_file (thread_path thread_id) in
     let* r := lift (subscript_role message_data) in
     (if String.eqb r "user" then
        let* last_assistant_index :=
          lift (next_assistant_index (rev messages)) in
        match last_assistant_index with
        | Some i =>
            let* tool_call_count := lift (tool_call_count_at messages i) in
            let* tool_response_count :=
              lift (tool_response_count (drop (S i) messages)) in
            if negb (tool_call_count =? tool_response_count)%nat then
              cleanup_incomplete_tool_calls thread_id >> ret tt
            else ret tt
        | None => ret tt
        end
      else ret tt) >>
     let message_data := convert_tool_results ToolResult_str message_data in
     let* message_data := lift (attach_images message_data images) in
     (* [messages] is still the list read at the top *)
     let messages := (messages ++ [message_data])%list in
     write_file (thread_path thread_id) messages >>
     let* history :=
       or_if_missing (read_file (history_path thread_id)) (ret []) in
     write_file (history_path thread_id) (history ++ [message_data])%list)
    (fun e => raise e).

End WithToolResultStr.

(** *** modify_message, remove_message, reset_messages *)

Definition modify_message (thread_id : string) (message_index : Z)
    (new_message : message) : D unit :=
  try_except
    (let* messages := read_file (thread_path thread_id) in
     if in_range message_index messages then
       (* messages[message_index] = new_message *)
       let messages := <[Z.to_nat message_index := new_message]> messages in
       write_file (thread_path thread_id) messages
     else
       (* logging.error(.. out of range ..) *)
       ret tt)
    (fun e => raise e).

Definition remove_message (thread_id : string) (message_index : Z) : D unit :=
  try_except
    (let* messages := read_file (thread_path thread_id) in
     if in_range message_index messages then
       (* messages.pop(message_index) *)
       let messages := delete (Z.to_nat message_index) messages in
       write_file (thread_path thread_id) messages
     else
       ret tt)
    (fun e => raise e).

Definition reset_messages (thread_id : string) : D unit :=
  try_except (write_file (thread_path thread_id) []) (fun e => raise e).

(** *** Runs of the operations that write the logs

    The four operations as a small instruction set; a run starts from the
    empty directory. *)
Section Runs.

Variable ToolResult_str : ToolResult -> string.

Inductive op : Type :=
| OpCreate (uuid : string)
| OpAdd (thread_id : string) (message_data : message) (images : list image)
| OpRepair (thread_id : string)
| OpReset (thread_id : string).

(** The thread an operation is given. *)
Definition op_thread (o : op) : string :=
  match o with
  | OpCreate uuid => uuid
  | OpAdd thread_id _ _ => thread_id
  | OpRepair thread_id => thread_id
  | OpReset thread_id => thread_id
  end.

(** The directory an operation leaves, whether it returns or raises. *)
Definition exec_op (o : op) (d : directory) : directory :=
  match o with
  | OpCreate uuid => snd (create_thread uuid d)
  | OpAdd thread_id message_data images =>
      snd (add_message ToolResult_str thread_id message_data images d)
  | OpRepair thread_id => snd (cleanup_incomplete_tool_calls thread_id d)
  | OpReset thread_id => snd (reset_messages thread_id d)
  end.

(** The characters of the ids [create_thread] hands out: the digits,
    lower-case letters and dashes of a uuid; no underscore, no dot, no
    separator. *)
Definition name_char (c : ascii) : bool :=
  let n := nat_of_ascii c in
  ((48 <=? n) && (n <=? 57) || (97 <=? n) && (n <=? 122) || (n =? 45))%nat.

(** A thread id that names its two files and no file of another thread. *)
Definition thread_name (thread_id : string) : bool :=
  forallb name_char (list_ascii_of_string thread_id).

(** A step of a run: the id is a thread name, and [create_thread] draws a
    fresh one. *)
Definition valid_op (d : directory) (o : op) : Prop :=
  thread_name (op_thread o) = true
  /\ match o with
     | OpCreate uuid =>
         d !! thread_path uuid = None /\ d !! history_path uuid = None
     | _ => True
     end.

Inductive reachable : directory -> Prop :=
| reachable_empty : reachable empty_directory
| reachable_step d o :
    reachable d -> valid_op d o -> reachable (exec_op o d).

End Runs.

(** *** Specification vocabulary *)

(** The messages of a file; a file that is missing or holds no document
    reads as the empty log. *)
Definition log_of (f : option file) : list message :=
  match f with
  | Some (Json msgs) => msgs
  | _ => []
  end.

(** The two logs of a thread. *)
Definition active_log (d : directory) (thread_id : string) : list message :=
  log_of (d !! thread_path thread_id).
Definition history_log (d : directory) (thread_id : string) : list message :=
  log_of (d !! history_path thread_id).

(** Every file holds a document, of messages that were encoded. *)
Definition documents (d : directory) : Prop :=
  forall path f, d !! path = Some f ->
    exists msgs, f = Json msgs /\ forallb json_value msgs = true.

(** Every message of the active log of a thread name is in the history log
    of the thread, or is one the repair synthesized. *)
Definition covered (d : directory) : Prop :=
  forall tid m, thread_name tid = true -> In m (active_log d tid) ->
                In m (history_log d tid) \/ interrupted m.

(** A computation that leaves every file outside [paths] as it was, whether
    it returns or raises. *)
Definition writes_at_most {A : Type} (paths : list string) (m : D A) : Prop :=
  forall d path, ~ In path paths -> snd (m d) !! path = d !! path.

(** A run that ends with the repair of an unanswered request. *)
Definition bad_run (f : ToolResult -> string) : directory :=
  exec_op f (OpRepair "t")
    (exec_op f (OpAdd "t" (Sample.assistant_calling [Sample.call "c1" "f"]) [])
       (exec_op f (OpCreate "t") empty_directory)).

(** Sample directories for the concrete evaluations. *)
Definition one_thread (msgs hist : list message) : directory :=
  <[history_path "t" := Json hist]> {[ thread_path "t" := Json msgs ]}.

End ThreadFiles.

(** ** Python strings

    A string is a sequence of one-byte characters; [len], slices and
    [strip] count and test these. *)

Module PyStr.

(** [bool(s)]: a string is truthy when it is not empty. *)
Definition truthy (s : string) : bool :=
  match s with EmptyString => false | String _ _ => true end.

(** The characters [str.strip()] removes, among the one-byte ones. *)
Definition is_space (c : ascii) : bool :=
  let n := nat_of_ascii c in
  ((9 <=? n) && (n <=? 13) || (28 <=? n) && (n <=? 32))%nat.

Fixpoint lstrip (s : string) : string :=
  match s with
  | EmptyString => EmptyString
  | String c rest => if is_space c then lstrip rest else s
  end.

Definition reverse (s : string) : string :=
  string_of_list_ascii (rev (list_ascii_of_string s)).

Definition rstrip (s : string) : string := reverse (lstrip (reverse s)).

(** [s.strip()] *)
Definition strip (s : string) : string := rstrip (lstrip s).

(** [needle in hay] *)
Fixpoint contains (needle hay : string) : bool :=
  String.prefix needle hay
  || match hay with
     | EmptyString => false
     | String _ rest => contains needle rest
     end.

(** [s.replace(old, new)] for a non-empty [old]: scan from the left, and
    after a match resume behind it ([skip] counts the characters of the
    match still to pass). *)
Fixpoint replace_from (old new : string) (skip : nat) (s : string) : string :=
  match s with
  | EmptyString => EmptyString
  | String c rest =>
      match skip with
      | S k => replace_from old new k rest
      | O =>
          if String.prefix old s
          then new +:+ replace_from old new (String.length old - 1) rest
          else String c (replace_from old new 0 rest)
      end
  end.

(** [s.replace('', new)]: [new] before every character and at the end. *)
Fixpoint interleave (new s : string) : string :=
  match s with
  | EmptyString => new
  | String c rest => new +:+ String c (interleave new rest)
  end.

(** [s.replace(old, new)] *)
Definition replace (old new s : string) : string :=
  match old with
  | EmptyString => interleave new s
  | String _ _ => replace_from old new 0 s
  end.

(** [s[:n]] *)
Definition head (n : nat) (s : string) : string := String.substring 0 n s.

(** [s[-n:]] for a positive [n] *)
Definition tail (n : nat) (s : string) : string :=
  String.substring (String.length s - n) n s.

(** The characters [shlex.quote] leaves alone: [[a-zA-Z0-9_@%+=:,./-]]. *)
Definition shell_safe (c : ascii) : bool :=
  let n := nat_of_ascii c in
  ((48 <=? n) && (n <=? 57) || (65 <=? n) && (n <=? 90)
   || (97 <=? n) && (n <=? 122)
   || existsb (Nat.eqb n) [95; 64; 37; 43; 61; 58; 44; 46; 47; 45])%nat.

(** [shlex.quote(s)] *)
Definition shlex_quote (s : string) : string :=
  match s with
  | EmptyString => squote +:+ squote
  | String _ _ =>
      if forallb shell_safe (list_ascii_of_string s) then s
      else squote
           +:+ replace squote (squote +:+ dquote +:+ squote +:+ dquote +:+ squote) s
           +:+ squote
  end.

(** The one-byte characters [str.splitlines] breaks lines at, beside the
    pair carriage return, line feed. *)
Definition is_linebreak (c : ascii) : bool :=
  let n := nat_of_ascii c in
  existsb (Nat.eqb n) [10; 11; 12; 13; 28; 29; 30]%nat.

(** [s.splitlines()], with the line in progress kept reversed in [cur] *)
Fixpoint splitlines_from (cur : list ascii) (s : string) : list string :=
  match s with
  | EmptyString =>
      match cur with
      | [] => []
      | _ :: _ => [string_of_list_ascii (rev cur)]
      end
  | String c rest =>
      if is_linebreak c then
        string_of_list_ascii (rev cur)
        :: match rest with
           | String c' rest' =>
               if (nat_of_ascii c =? 13)%nat && (nat_of_ascii c' =? 10)%nat
               then splitlines_from [] rest'
               else splitlines_from [] rest
           | EmptyString => splitlines_from [] rest
           end
      else splitlines_from (c :: cur) rest
  end.

Definition splitlines (s : string) : list string := splitlines_from [] s.

(** [s[n:]] *)
Fixpoint drop_chars (n : nat) (s : string) : string :=
  match n, s with
  | O, _ => s
  | S k, String _ rest => drop_chars k rest
  | S _, EmptyString => EmptyString
  end.

(** The first occurrence of [needle] in [s]: what is before it (kept
    reversed in [before] on the way) and what is after it. *)
Fixpoint split_at_from (needle : string) (before : list ascii) (s : string)
    : option (string * string) :=
  if String.prefix needle s
  then Some (string_of_list_ascii (rev before),
             drop_chars (String.length needle) s)
  else match s with
       | EmptyString => None
       | String c rest => split_at_from needle (c :: before) rest
       end.

Definition split_at (needle s : string) : option (string * string) :=
  split_at_from needle [] s.

End PyStr.

(** ** The Docker subprocess

    What [asyncio.create_subprocess_exec] followed by
    [asyncio.wait_for(process.communicate(..), timeout=120)] comes to, seen
    from the tool: the outputs (as decoded text) and the return code; the
    timeout of [wait_for], after which the tool kills or terminates the
    process (a signal sent to a child that is still there, taken to go
    through); or an exception raised while spawning, communicating or
    decoding. *)

Module Subprocess.

Inductive outcome : Type :=
| Completed (stdout stderr : string) (returncode : Z)
| TimedOut
| Failed (e : exn).

End Subprocess.

(** ** [bash_tool.py] *)

Module BashTool.
Import Tool PyStr Subprocess.

Section WithContainer.

Variable container_name : string.

(** The container, as a function of the argument vector of [docker]. *)
Variable subprocess : list string -> outcome.

Definition environment_setup : string :=
  ". /opt/miniconda3/etc/profile.d/conda.sh && "
  +:+ "conda activate testbed && "
  +:+ "cd /testbed && "
  +:+ "git config --global --add safe.directory /testbed && "
  +:+ "git config --global core.pager cat && ".

Definition docker_exec (command : string) : list string :=
  let full_command :=
    environment_setup +:+ "set -o pipefail && " +:+ command in
  ["docker"; "exec"; "-i"; container_name; "/bin/bash"; "-c"; full_command].

Definition execute_command_in_container (command : string)
    : res (string * string * Z) :=
  match subprocess (docker_exec command) with
  | Completed stdout stderr returncode => Ok (stdout, stderr, returncode)
  | TimedOut =>
      (* process.kill() *)
      Ok (EmptyString, "Command execution timed out after 5 minutes", 1)
  | Failed e => Raise e
  end.

Definition bash_command (command : string) : ToolResult :=
  match execute_command_in_container command with
  | Ok (stdout, stderr, returncode) =>
      let output :=
        nl +:+ "Command executed: `" +:+ command +:+ "`" +:+ nl in
      if returncode =? 0 then
        success_response
          (output +:+ "<output>"
           +:+ (if truthy (strip stdout) then strip stdout
                else "No output.")
           +:+ "</output>")
      else
        fail_response
          (output +:+ "<output>" +:+ strip stdout +:+ nl
           +:+ strip stderr +:+ "</output>")
  | Raise e =>
      fail_response
        ("Command executed: `" +:+ command +:+ "`" +:+ nl
         +:+ "Error executing bash command: " +:+ str e)
  end.

End WithContainer.

End BashTool.

(** ** [repo_tool.py] *)

Module RepoTool.
Import Tool PyStr Subprocess.

(** *** The workspace kept by the state manager

    The tool uses the state manager as a cell under the key ["workspace"]:
    [get] gives the stored dict, or [None] before [_init_workspace] has run;
    [set] stores it. *)

Record terminal_entry : Type := mkEntry {
  entry_command : string;
  entry_output : option string;
  entry_success : option bool
}.

(** The workspace dict; a field is [None] when the key is absent.  Keys no
    function below reads ([implementation_trials], [actions_taken]) are
    left out. *)
Record workspace : Type := mkWorkspace {
  open_folders : gmap string Z;
  open_files : option (list string);
  last_terminal_session : option (list terminal_entry);
  latest_failures : option (list string)
}.

(** One [docker exec] made by [BashExecutor.execute]. *)
Record call : Type := mkCall {
  argv : list string;
  input_data : option string
}.

#[global] Instance call_eq_dec : EqDecision call.
Proof. solve_decision. Defined.

(** The world of the tool: the state manager's cell, the calls made to the
    container so far, and the [_add_failure] tasks handed to the event loop
    by [fail_response] (they run later, outside the call that made them). *)
Record world : Type := mkWorld {
  stored_workspace : option workspace;
  calls : list call;
  scheduled_failures : list string
}.

(** The argument [replacements] of [edit_file], as a JSON value. *)
#[local] Set Warnings "-register-all".
Inductive pyval : Type :=
| PStr (s : string)
| PList (items : list pyval)
| PDict (entries : gmap string pyval)
| POther.

Definition W (A : Type) : Type := Py.M world A.

(** Modelled from the spec: [StateManager.get] of [agentpress.state_manager]
    (missing), at the key ["workspace"]; what was last set, [None] before. *)
Definition get_workspace : W (option workspace) :=
  fun w => (Ok (stored_workspace w), w).

(** Modelled from the spec: [StateManager.set] of [agentpress.state_manager]
    (missing), at the key ["workspace"]. *)
Definition set_workspace (ws : workspace) : W unit :=
  fun w => (Ok tt, {| stored_workspace := Some ws; calls := calls w;
                      scheduled_failures := scheduled_failures w |}).

(** [key in workspace] and the like, when [workspace] is [None] *)
Definition none_not_iterable : exn :=
  TypeError "argument of type 'NoneType' is not iterable".

(** *** The tool's own [success_response] and [fail_response] *)

Definition success_response (message : string) : W ToolResult :=
  ret (Tool.success_response message).

(** [asyncio.create_task(self._add_failure(message))]: the task is handed
    to the loop. *)
Definition schedule_failure (message : string) (w : world) : world :=
  {| stored_workspace := stored_workspace w; calls := calls w;
     scheduled_failures := (scheduled_failures w ++ [message])%list |}.

Definition fail_response (message : string) : W ToolResult :=
  fun w => (Ok (Tool.fail_response message), schedule_failure message w).

(** A tool method: [try: body except Exception as e: return
    self.fail_response(on_error(e))].  It always returns a result. *)
Definition tool_method (body : W ToolResult) (on_error : exn -> string)
    : world -> ToolResult * world :=
  fun w => match body w with
           | (Ok r, w') => (r, w')
           | (Raise e, w') =>
               (Tool.fail_response (on_error e),
                schedule_failure (on_error e) w')
           end.

(** *** _update_terminal *)
Definition _update_terminal (command : string) (output : option string)
    (success : option bool) : W unit :=
  let* workspace := get_workspace in
  match workspace with
  | None => raise none_not_iterable
  | Some ws =>
      let session := default [] (last_terminal_session ws) in
      let ws :=
        {| open_folders := open_folders ws;
           open_files := open_files ws;
           last_terminal_session :=
             Some (session ++ [{| entry_command := command;
                                  entry_output := output;
                                  entry_success := success |}])%list;
           latest_failures := latest_failures ws |} in
      set_workspace ws
  end.

Section WithContainer.

Variable container_name : string.

(** The container: what a call comes to, given the calls made before. *)
Variable docker : list call -> call -> outcome.

(** *** BashExecutor.execute *)

Definition wrapped_command (command : string) : string :=
  ". /opt/miniconda3/etc/profile.d/conda.sh && "
  +:+ "conda activate testbed && "
  +:+ "cd /testbed && "
  +:+ "set -o pipefail && "
  +:+ command.

Definition docker_call (command : string) (input_data : option string)
    : call :=
  {| argv := ["docker"; "exec"; "-i"; container_name; "/bin/bash"; "-c";
              wrapped_command command];
     input_data := input_data |}.

Definition no_output : string :=
  "Command completed successfully but produced no output".

(** What [execute] returns for an outcome of the subprocess; no exception
    leaves it. *)
Definition execute_result (o : outcome) : string * string * Z :=
  match o with
  | Completed stdout stderr returncode =>
      let stdout_str := strip stdout in
      let stderr_str := strip stderr in
      if negb (truthy stdout_str) && negb (truthy stderr_str)
         && (returncode =? 0)
      then (no_output, stderr_str, returncode)
      else (stdout_str, stderr_str, returncode)
  | TimedOut =>
      (* process.terminate(), any error of which is passed over *)
      (EmptyString, "Command execution timed out after 2 minutes", 1)
  | Failed e =>
      (EmptyString, "Error executing command: " +:+ str e, 1)
  end.

Definition execute (command : string) (input_data : option string)
    : W (string * string * Z) :=
  fun w =>
    let c := docker_call command input_data in
    (Ok (execute_result (docker (calls w) c)),
     {| stored_workspace := stored_workspace w;
        calls := (calls w ++ [c])%list;
        scheduled_failures := scheduled_failures w |}).

(** *** run_bash *)

Definition MAX_OUTPUT : nat := 15 * 1000.
Definition KEEP_HEAD : nat := 5 * 1000.
Definition KEEP_TAIL : nat := 10 * 1000.

Definition truncate_output (stdout stderr : string) : string :=
  let combined_output := stdout +:+ stderr in
  let combined_output :=
    if truthy combined_output then combined_output else no_output in
  if (MAX_OUTPUT <? String.length combined_output)%nat then
    head KEEP_HEAD combined_output
    +:+ nl +:+ nl +:+ "...LENGTHY OUTPUT TRUNCATED..." +:+ nl +:+ nl
    +:+ tail KEEP_TAIL combined_output
  else combined_output.

Definition _execute_command_body (command : string) : W ToolResult :=
  let* r := execute command None in
  let '(stdout, stderr, returncode) := r in
  let success := returncode =? 0 in
  let truncated_output := truncate_output stdout stderr in
  _update_terminal command (Some truncated_output) (Some success) >>
  success_response ("Command executed:" +:+ nl +:+ truncated_output).

Definition _execute_command (command : string)
    : world -> ToolResult * world :=
  tool_method (_execute_command_body command)
              (fun e => "Error executing command: " +:+ str e).

Definition run_bash (command : string) : world -> ToolResult * world :=
  _execute_command command.

(** *** edit_file *)

(** [re.finditer] at the pattern of [transform_string_to_dict]
    ([<old_string>(.*?)</old_string>\s*<new_string>(.*?)</new_string>],
    with [re.DOTALL]): the two groups of every match, in order. *)
Variable finditer_old_new : string -> list (string * string).

Definition replacement_dict (old_string new_string : string) : pyval :=
  PDict (<["old_string" := PStr old_string]>
           {["new_string" := PStr new_string]}).

Definition transform_string_to_dict (input_string : string)
    : gmap string (list pyval) :=
  let replacements :=
    map (fun m => replacement_dict (fst m) (snd m))
        (finditer_old_new input_string) in
  {["replacement" := replacements]}.

(** The list of replacements read off the argument, or the message of the
    failure returned instead. *)
Definition replacements_list (replacements : pyval) : string + list pyval :=
  match replacements with
  | PDict d =>
      match d !! "replacement" with
      | Some replacements_data =>
          match replacements_data with
          | PList l => inr l
          | PDict _ => inr [replacements_data]
          | _ => inl "Invalid 'replacement' format in 'replacements'."
          end
      | None =>
          if bool_decide (is_Some (d !! "old_string"))
             && bool_decide (is_Some (d !! "new_string"))
          then inr [replacements]
          else inl "Invalid replacements format."
      end
  | PList l => inr l
  | PStr s =>
      let replacements_dict := transform_string_to_dict s in
      match replacements_dict !! "replacement" with
      | Some l => inr l
      | None => inl "Invalid replacements format in string."
      end
  | POther => inl "Invalid replacements format."
  end.

Definition not_found_message (old_string : string) : string :=
  "The string to replace '" +:+ old_string
  +:+ "' was not found in the file. Please check your old_string: Indentation really matters! When editing a file, make sure to insert appropriate indentation before each line!".

(** [for rep in replacements_list: ...], on the content in memory: the
    rewritten content, or the message of the failure returned from inside
    the loop. *)
Fixpoint apply_replacements (reps : list pyval) (content : string)
    : string + string :=
  match reps with
  | [] => inr content
  | rep :: rest =>
      match rep with
      | PDict d =>
          match d !! "old_string", d !! "new_string" with
          | Some old_string, Some new_string =>
              match old_string, new_string with
              | PStr old_string, PStr new_string =>
                  if negb (contains old_string content)
                  then inl (not_found_message old_string)
                  else apply_replacements rest
                         (replace old_string new_string content)
              | _, _ =>
                  inl "Both 'old_string' and 'new_string' must be strings."
              end
          | _, _ =>
              inl "Invalid replacement format in one of the replacements."
          end
      | _ => inl "Invalid replacement format in one of the replacements."
      end
  end.

(** ["open_files" not in workspace or path not in workspace["open_files"]] *)
Definition not_open (ws : workspace) (path : string) : bool :=
  match open_files ws with
  | None => true
  | Some files => negb (bool_decide (path ∈ files))
  end.

Definition read_command (path : string) : string :=
  "cat " +:+ shlex_quote path.
Definition write_command (path : string) : string :=
  "cat > " +:+ shlex_quote path.

Definition edit_file_body (path : string) (replacements : pyval)
    : W ToolResult :=
  let* workspace := get_workspace in
  match workspace with
  | None => raise none_not_iterable
  | Some ws =>
      if not_open ws path then
        fail_response ("File " +:+ path
                       +:+ " is not open. Please open the file before editing.")
      else
        let* r := execute (read_command path) None in
        let '(stdout, stderr, returncode) := r in
        if negb (returncode =? 0) then
          fail_response ("Failed to read file " +:+ path +:+ ": "
                         +:+ strip stderr)
        else
          let content := stdout in
          match replacements_list replacements with
          | inl msg => fail_response msg
          | inr [] => fail_response "No valid replacements provided."
          | inr (rep :: rest) =>
              match apply_replacements (rep :: rest) content with
              | inl msg => fail_response msg
              | inr content =>
                  (* content.encode('utf-8') *)
                  let input_data := content in
                  let* r := execute (write_command path) (Some input_data) in
                  let '(stdout, stderr, returncode) := r in
                  if negb (returncode =? 0) then
                    fail_response ("Failed to write to file " +:+ path
                                   +:+ ": " +:+ strip stderr)
                  else
                    success_response ("File " +:+ path
                                      +:+ " edited successfully.")
              end
          end
  end.

Definition edit_file (path : string) (replacements : pyval)
    : world -> ToolResult * world :=
  tool_method (edit_file_body path replacements)
              (fun e => "Error editing file " +:+ path +:+ ": " +:+ str e).

End WithContainer.

(** *** Sample data for the concrete evaluations *)
Module Sample.

Definition one_file_open : world :=
  {| stored_workspace :=
       Some {| open_folders := ∅; open_files := Some ["/testbed/a.py"];
               last_terminal_session := None; latest_failures := None |};
     calls := []; scheduled_failures := [] |}.

(** A container holding one file: a call with input is a write that
    succeeds, a call without is a read of the last content written, or of
    [initial] when there was none. *)
Definition last_written (initial : string) (before : list call) : string :=
  fold_left (fun acc c => default acc (input_data c)) before initial.

Definition one_file_container (initial : string) (before : list call)
    (c : call) : outcome :=
  match input_data c with
  | Some _ => Completed EmptyString EmptyString 0
  | None => Completed (last_written initial before) EmptyString 0
  end.

Definition no_matches (s : string) : list (string * string) := [].

End Sample.

(** *** Specification vocabulary

    The pure functions and predicates the properties below are stated
    with. *)

(** The terminal entry [run_bash] records. *)
Definition recorded (ws : workspace) (e : terminal_entry) : workspace :=
  {| open_folders := open_folders ws;
     open_files := open_files ws;
     last_terminal_session :=
       Some (default [] (last_terminal_session ws) ++ [e])%list;
     latest_failures := latest_failures ws |}.




(** Whether [path] is among the open files of the stored workspace. *)
Definition is_open (w : world) (path : string) : bool :=
  match stored_workspace w with
  | Some ws => negb (not_open ws path)
  | None => false
  end.

(** *** transform_string_to_dict: the pattern matched

    [re.finditer] at the pattern
    [<old_string>(.*?)</old_string>\s*<new_string>(.*?)</new_string>] with
    [re.DOTALL], written out.  A match starts at an [<old_string>]; its first
    group is the shortest text after which [</old_string>], white space and
    [<new_string>] follow with a [</new_string>] somewhere behind; its second
    group runs to the first [</new_string>].  The search goes on behind the
    match. *)

(** [</old_string>\s*<new_string>(.*?)</new_string>] matched at the head of
    [s]: the second group and what is left behind the match. *)
Definition match_from_old_close (s : string) : option (string * string) :=
  if String.prefix "</old_string>" s then
    let after_space := lstrip (drop_chars 13 s) in
    if String.prefix "<new_string>" after_space
    then split_at "</new_string>" (drop_chars 12 after_space)
    else None
  else None.

(** [(.*?)</old_string>\s*<new_string>(.*?)</new_string>] matched at the
    head of [s], the first group growing by one character at a time (kept
    reversed in [group]): the two groups and what is left behind. *)
Fixpoint match_from_old_open (group : list ascii) (s : string)
    : option (string * string * string) :=
  match match_from_old_close s with
  | Some (new_string, rest) =>
      Some (string_of_list_ascii (rev group), new_string, rest)
  | None =>
      match s with
      | EmptyString => None
      | String c rest => match_from_old_open (c :: group) rest
      end
  end.

(** The matches from left to right; [skip] counts the characters of the
    last match still to pass. *)
Fixpoint finditer_from (skip : nat) (s : string) : list (string * string) :=
  match s with
  | EmptyString => []
  | String c rest =>
      match skip with
      | S k => finditer_from k rest
      | O =>
          if String.prefix "<old_string>" s then
            match match_from_old_open [] (drop_chars 12 s) with
            | Some (old_string, new_string, behind) =>
                (old_string, new_string)
                :: finditer_from
                     (String.length s - String.length behind - 1) rest
            | None => finditer_from 0 rest
            end
          else finditer_from 0 rest
      end
  end.

Definition re_finditer_old_new (s : string) : list (string * string) :=
  finditer_from 0 s.

(** *** open_file, view_folder, create_file *)

Definition with_open_files (ws : workspace) (files : list string) : workspace :=
  {| open_folders := open_folders ws;
     open_files := Some files;
     last_terminal_session := last_terminal_session ws;
     latest_failures := latest_failures ws |}.

Definition with_open_folders (ws : workspace) (folders : gmap string Z)
    : workspace :=
  {| open_folders := folders;
     open_files := open_files ws;
     last_terminal_session := last_terminal_session ws;
     latest_failures := latest_failures ws |}.

Definition open_file_body (path : string) : W ToolResult :=
  let* workspace := get_workspace in
  match workspace with
  | None => raise none_not_iterable
  | Some ws =>
      let files := default [] (open_files ws) in
      if negb (bool_decide (path ∈ files)) then
        set_workspace (with_open_files ws (files ++ [path])%list) >>
        success_response ("File " +:+ path +:+ " added to workspace.")
      else
        success_response ("File " +:+ path
                          +:+ " is already open in the workspace.")
  end.

Definition open_file (path : string) : world -> ToolResult * world :=
  tool_method (open_file_body path)
    (fun e => "Error adding file " +:+ path +:+ " to workspace: " +:+ str e
              +:+ ", please provide a valid file path. You may use view_folder to explore the folder structure.").

(** [depth or 2] *)
Definition depth_or_2 (depth : option Z) : Z :=
  match depth with
  | Some d => if d =? 0 then 2 else d
  | None => 2
  end.

(** The record holds [open_folders] as a map, empty where the dict has no
    such key: that is what [view_folder] makes of a missing key before it
    looks the path up. *)
Definition view_folder_body (path : string) (depth : option Z) : W ToolResult :=
  let* workspace := get_workspace in
  match workspace with
  | None => raise none_not_iterable
  | Some ws =>
      match open_folders ws !! path with
      | None =>
          set_workspace
            (with_open_folders ws (<[path := depth_or_2 depth]> (open_folders ws))) >>
          success_response ("Folder " +:+ path +:+ " added to workspace.")
      | Some _ =>
          success_response ("Folder " +:+ path
                            +:+ " is already open in the workspace.")
      end
  end.

Definition view_folder (path : string) (depth : option Z)
    : world -> ToolResult * world :=
  tool_method (view_folder_body path depth)
    (fun e => "Error adding folder " +:+ path +:+ " to workspace: " +:+ str e).

Section MoreWithContainer.

Variable container_name : string.
Variable docker : list call -> call -> outcome.

Definition create_command (path content : string) : string :=
  "mkdir -p $(dirname " +:+ shlex_quote path +:+ ") && "
  +:+ "echo " +:+ shlex_quote content +:+ " > " +:+ shlex_quote path.

Definition create_file_body (path content : string) : W ToolResult :=
  let* r := execute container_name docker (create_command path content) None in
  let '(stdout, stderr, returncode) := r in
  if returncode =? 0 then
    let* workspace := get_workspace in
    match workspace with
    | None => raise none_not_iterable
    | Some ws =>
        let files := default [] (open_files ws) in
        (if negb (bool_decide (path ∈ files)) then
           set_workspace (with_open_files ws (files ++ [path])%list)
         else ret tt) >>
        success_response ("File " +:+ path +:+ " created successfully.")
    end
  else
    fail_response ("Failed to create file " +:+ path +:+ ": " +:+ stderr).

Definition create_file (path content : string) : world -> ToolResult * world :=
  tool_method (create_file_body path content)
    (fun e => "Error creating file " +:+ path +:+ ": " +:+ str e).

(** *** _init_workspace *)

Definition exclude_dirs : list string :=
  ["tests"; "doc"; "docs"; "examples"; "utils"; "tools"; "egg-info"; "build";
   "dist"; "__pycache__"; ".git"; ".github"; "licenses"; "scripts"; "script";
   "extras"; "properties"; "asv"; "ci"; "extern"; "lib"; "galleries";
   "requirements"; "tmp"; ".devcontainer"; "ext"; ".binder"; "design_notes";
   "bench"; "changelog"; ".circleci"; ".spin"; "benchmark"; "bin"; "data";
   "release"].

(** [not any(exclude_dir in f for exclude_dir in exclude_dirs)] *)
Definition main_folder (f : string) : bool :=
  negb (existsb (fun exclude_dir => contains exclude_dir f) exclude_dirs).

Definition _init_workspace : W unit :=
  let* workspace := get_workspace in
  match workspace with
  | Some _ => ret tt
  | None =>
      let workspace :=
        {| open_folders := ∅; open_files := Some [];
           last_terminal_session := Some []; latest_failures := None |} in
      let* r := execute container_name docker "ls -d /testbed/*/" None in
      let '(stdout, stderr, returncode) := r in
      let folders := List.filter main_folder (splitlines stdout) in
      let workspace :=
        with_open_folders workspace (<["/testbed" := 1]> (open_folders workspace)) in
      let workspace :=
        if bool_decide ("/testbed/tests/" ∈ folders)
        then with_open_folders workspace
               (<["/testbed/tests" := 2]> (open_folders workspace))
        else workspace in
      match folders with
      | [folder] =>
          set_workspace
            (with_open_folders workspace
               (<[folder := 2]> (open_folders workspace)))
      | _ =>
          fail_response ("Error finding main source code folder: " +:+ stderr) >>
          set_workspace workspace
      end
  end.

End MoreWithContainer.

(** *** Vocabulary for the failures handed to the event loop *)

(** The message a result adds to the scheduled [_add_failure] tasks. *)
Definition failure_of (r : ToolResult) : list string :=
  if success r then [] else [output r].

(** A step that calls no [fail_response]. *)
Definition quiet {A : Type} (m : W A) : Prop :=
  forall w, scheduled_failures (snd (m w)) = scheduled_failures w.

(** A body that schedules the failure it returns, and nothing else. *)
Definition tagged (m : W ToolResult) : Prop :=
  forall w,
    scheduled_failures (snd (m w))
    = (scheduled_failures w
       ++ match fst (m w) with
          | Ok r => failure_of r
          | Raise _ => []
          end)%list.

(** A tool method whose scheduled failures are exactly its failure
    results. *)
Definition reports_failures (tool : world -> ToolResult * world) : Prop :=
  forall w,
    scheduled_failures (snd (tool w))
    = (scheduled_failures w ++ failure_of (fst (tool w)))%list.

(** *** Vocabulary for the text form of the replacements *)

(** One replacement written as tags: any text without [<old_string>] in
    front, the old string, white space between the two elements, the new
    string. *)
Record replacement_block : Type := mkBlock {
  block_before : string;
  block_old : string;
  block_between : string;
  block_new : string
}.

Fixpoint replacements_text (blocks : list replacement_block)
    (trailer : string) : string :=
  match blocks with
  | [] => trailer
  | b :: rest =>
      block_before b +:+ "<old_string>" +:+ block_old b +:+ "</old_string>"
      +:+ block_between b +:+ "<new_string>" +:+ block_new b
      +:+ "</new_string>" +:+ replacements_text rest trailer
  end.

(** No text holds the tag that ends it or, in front of a replacement, the
    tag that starts one. *)
Definition well_formed_block (b : replacement_block) : bool :=
  negb (contains "<old_string>" (block_before b))
  && negb (contains "</old_string>" (block_old b))
  && forallb is_space (list_ascii_of_string (block_between b))
  && negb (contains "</new_string>" (block_new b)).

Definition block_pair (b : replacement_block) : string * string :=
  (block_old b, block_new b).

End RepoTool.

(** * Properties of the thread manager *)

Module ThreadManagerFacts.
Import ThreadManager.
Import Sample.

(** ** Listing *)

Lemma list_messages_view thread_id h l r s :
  list_messages thread_id h l r s
  = (Ok (view h l r (active_log s thread_id)), s).
Proof.
  unfold list_messages, try_except, bind, read_thread, active_log, view, ret.
  destruct (threads s !! thread_id) as [msgs|]; simpl.
  - destruct l; reflexivity.
  - destruct l, h, r; reflexivity.
Qed.

Lemma regular_role_without_tool_calls m :
  regular_role (without_tool_calls m) = regular_role m.
Proof. reflexivity. Qed.

Lemma filter_map_without_tool_calls (P : message -> bool) msgs :
  (forall m, P (without_tool_calls m) = P m) ->
  List.filter P (map without_tool_calls msgs)
  = map without_tool_calls (List.filter P msgs).
Proof.
  intros HP. induction msgs as [|m msgs IH]; simpl; [reflexivity|].
  rewrite HP. destruct (P m); simpl; rewrite IH; reflexivity.
Qed.

Lemma filter_filter_andb {A} (P Q : A -> bool) l :
  List.filter Q (List.filter P l) = List.filter (fun x => P x && Q x) l.
Proof.
  induction l as [|x l IH]; simpl; [reflexivity|].
  destruct (P x); simpl; [destruct (Q x); simpl; rewrite IH; reflexivity|exact IH].
Qed.

Lemma without_tool_calls_canonical m :
  canonical m -> without_tool_calls m = strip_assistant m.
Proof.
  intros [_ Hc]. unfold strip_assistant, role_is.
  destruct (bool_decide (role m = Some "assistant")) eqn:E; [reflexivity|].
  apply bool_decide_eq_false in E.
  destruct m as [r c [tcs|] i n]; simpl in *; [|reflexivity].
  exfalso. apply E, Hc. eauto.
Qed.

Lemma hide_tool_canonical regular_list stored :
  Forall canonical stored ->
  map without_tool_calls (List.filter (kept regular_list) stored)
  = map strip_assistant
        (List.filter (fun m => negb (role_is "tool" m)) stored).
Proof.
  induction 1 as [|m l Hm _ IH]; [reflexivity|]. simpl.
  assert (Hk : kept regular_list m = negb (role_is "tool" m)).
  { unfold kept. destruct Hm as [-> _]. destruct regular_list; apply andb_true_r. }
  rewrite Hk. destruct (negb (role_is "tool" m)); [|exact IH].
  simpl. rewrite IH, (without_tool_calls_canonical _ Hm). reflexivity.
Qed.

Lemma kept_all_roles stored :
  List.filter (kept false) stored
  = List.filter (fun m => negb (role_is "tool" m)) stored.
Proof.
  unfold kept. induction stored as [|m l IH]; simpl; [reflexivity|].
  rewrite andb_true_r. destruct (negb _); simpl; rewrite IH; reflexivity.
Qed.

(** C3.  [list_messages] with [hide_tool_msgs=True] (and
    [only_latest_assistant] left off) returns the stored messages in their
    stored order, without the messages of role tool and each without its
    [tool_calls] field; the other fields of a message are untouched.  No
    message of role tool and no [tool_calls] field is left in the result,
    and the store is not changed.  With [regular_list] off nothing else is
    dropped; with it on (the default) the messages whose role is outside
    system, assistant, tool, user are dropped too, which on a log of the data
    model drops nothing more, so that there the result is the stored list
    without its tool messages and with [tool_calls] taken off its assistant
    messages. *)
Theorem list_messages_hide_tool_msgs (s : store) (thread_id : string)
    (regular_list : bool) :
  let stored := active_log s thread_id in
  let shown := map without_tool_calls (List.filter (kept regular_list) stored) in
  list_messages thread_id true false regular_list s = (Ok shown, s)
  /\ (forall m, In m shown -> role m <> Some "tool" /\ tool_calls m = None)
  /\ (forall m, role (without_tool_calls m) = role m
                /\ content (without_tool_calls m) = content m
                /\ tool_call_id (without_tool_calls m) = tool_call_id m
                /\ name (without_tool_calls m) = name m)
  /\ (regular_list = false ->
      shown = map without_tool_calls
                  (List.filter (fun m => negb (role_is "tool" m)) stored))
  /\ (Forall canonical stored ->
      shown = map strip_assistant
                  (List.filter (fun m => negb (role_is "tool" m)) stored)).
Proof.
  intros stored shown. split; [|split; [|split; [|split]]].
  - rewrite list_messages_view. unfold view, hide_tool. fold stored.
    subst shown. f_equal. f_equal. destruct regular_list.
    + rewrite filter_map_without_tool_calls
        by apply regular_role_without_tool_calls.
      rewrite filter_filter_andb. reflexivity.
    + rewrite kept_all_roles. reflexivity.
  - intros m Hin. subst shown. apply in_map_iff in Hin as (m0 & <- & Hin).
    apply filter_In in Hin as [_ Hk]. unfold kept in Hk.
    apply andb_true_iff in Hk as [Hk _]. split; [|reflexivity]. simpl.
    unfold role_is in Hk. apply negb_true_iff in Hk.
    apply bool_decide_eq_false in Hk. exact Hk.
  - intros m. repeat split.
  - intros ->. subst shown. rewrite kept_all_roles. reflexivity.
  - intros Hc. subst shown. apply hide_tool_canonical. exact Hc.
Qed.

Lemma list_messages_hide_tool_msgs_witness :
  let a := Sample.assistant_calling [Sample.call "c1" "f"] in
  let t := Sample.tool_answer "c1" "f" "done" in
  let u := Sample.user_says "thanks" in
  let s := Sample.one_thread [a; t; u] [a; t; u] in
  list_messages "t" true false true s = (Ok [without_tool_calls a; u], s).
Proof.
  intros a t u s.
  exact (proj1 (list_messages_hide_tool_msgs s "t" true)).
Defined.

Lemma list_messages_only_latest_ignores_hide thread_id h r s :
  list_messages thread_id h true r s
  = (Ok (latest_assistant (active_log s thread_id)), s).
Proof. apply list_messages_view. Qed.

(** C4, evaluated.  With [only_latest_assistant] and [hide_tool_msgs] both
    set, [list_messages] returns the latest assistant message as stored,
    [tool_calls] included: the early return of the latest-assistant branch
    comes before the hide-tool filter, so the result is not the hide-tool
    filter applied to the latest assistant message. *)
Theorem list_messages_latest_assistant_keeps_tool_calls :
  let a := Sample.assistant_calling [Sample.call "c1" "f"] in
  let s := Sample.one_thread [Sample.user_says "go"; a] [] in
  list_messages "t" true true true s = (Ok [a], s)
  /\ hide_tool (latest_assistant (active_log s "t")) = [without_tool_calls a]
  /\ [a] <> [without_tool_calls a].
Proof.
  intros a s. split; [|split].
  - rewrite list_messages_view. reflexivity.
  - reflexivity.
  - discriminate.
Qed.

(** ** The repair of incomplete tool calls *)

Lemma regular_role_has_role m :
  regular_role m = true -> exists r, role m = Some r.
Proof.
  unfold regular_role, role_is. destruct (role m) as [r|]; [eauto|].
  intros H. repeat (rewrite bool_decide_eq_false_2 in H by discriminate).
  discriminate.
Qed.

Lemma assistant_with_tool_calls_regular m :
  regular_role m = true -> assistant_with_tool_calls m = Ok (awtc m).
Proof.
  intros [r Hr]%regular_role_has_role.
  unfold assistant_with_tool_calls, subscript_role, awtc, role_is.
  rewrite Hr. f_equal. f_equal.
  destruct (String.eqb_spec r "assistant") as [->|Hne].
  - rewrite bool_decide_eq_true_2; reflexivity.
  - rewrite bool_decide_eq_false_2; [reflexivity|congruence].
Qed.

Lemma next_assistant_regular l :
  Forall (fun m => regular_role m = true) l ->
  next_assistant l = Ok (List.find awtc l).
Proof.
  induction 1 as [|m l Hm _ IH]; simpl; [reflexivity|].
  rewrite (assistant_with_tool_calls_regular _ Hm).
  destruct (awtc m); [reflexivity|exact IH].
Qed.

Lemma tool_role_messages_regular l :
  Forall (fun m => regular_role m = true) l ->
  tool_role_messages l = Ok (List.filter (role_is "tool") l).
Proof.
  induction 1 as [|m l Hm _ IH]; simpl; [reflexivity|].
  destruct (regular_role_has_role _ Hm) as [r Hr].
  unfold subscript_role, role_is. rewrite Hr, IH. f_equal.
  destruct (String.eqb_spec r "tool") as [->|Hne].
  - rewrite bool_decide_eq_true_2; reflexivity.
  - rewrite bool_decide_eq_false_2; [reflexivity|congruence].
Qed.

Lemma Forall_filter_regular msgs :
  Forall (fun m => regular_role m = true) (List.filter regular_role msgs).
Proof. apply List.Forall_forall. intros m [_ H]%filter_In. exact H. Qed.

Lemma In_drop {A} (x : A) n l : In x (drop n l) -> In x l.
Proof.
  intros H. rewrite <- (firstn_skipn n l). apply in_or_app. right. exact H.
Qed.

Lemma In_take {A} (x : A) n l : In x (take n l) -> In x l.
Proof.
  intros H. rewrite <- (firstn_skipn n l). apply in_or_app. left. exact H.
Qed.

Lemma index_In x l : In x l -> exists i, index x l = Ok i /\ l !! i = Some x.
Proof.
  induction l as [|m l IH]; simpl; [intros []|].
  intros Hin. destruct (bool_decide (m = x)) eqn:E.
  - apply bool_decide_eq_true in E. subst. exists 0%nat. split; reflexivity.
  - destruct IH as (i & Hi & Hl).
    { destruct Hin as [->|]; [|assumption].
      apply bool_decide_eq_false in E. congruence. }
    exists (S i). rewrite Hi. split; [reflexivity|exact Hl].
Qed.

Lemma cleanup_repaired thread_id s :
  cleanup_incomplete_tool_calls thread_id s =
  match repaired (active_log s thread_id) with
  | Some messages =>
      (Ok true, {| threads := <[thread_id := messages]> (threads s);
                   histories := histories s |})
  | None => (Ok false, s)
  end.
Proof.
  unfold cleanup_incomplete_tool_calls, bind. rewrite list_messages_view.
  unfold view, repaired, lift.
  set (messages := List.filter regular_role (active_log s thread_id)).
  assert (Hreg : Forall (fun m => regular_role m = true) messages)
    by apply Forall_filter_regular.
  rewrite next_assistant_regular
    by (apply List.Forall_forall; intros m Hm%in_rev;
        exact (proj1 (List.Forall_forall _ _) Hreg m Hm)).
  destruct (List.find awtc (rev messages)) as [lam|] eqn:Hfind;
    [|reflexivity].
  apply find_some in Hfind as [Hin Hlam]. apply in_rev in Hin.
  assert (Ht : truthy lam = true).
  { destruct (regular_role_has_role lam) as [r Hr].
    - exact (proj1 (List.Forall_forall _ _) Hreg lam Hin).
    - unfold truthy. rewrite Hr. reflexivity. }
  rewrite Ht. destruct (index_In _ _ Hin) as (i & Hi & _). rewrite Hi.
  rewrite tool_role_messages_regular
    by (apply List.Forall_forall; intros m Hm%In_drop;
        exact (proj1 (List.Forall_forall _ _) Hreg m Hm)).
  destruct (length (default [] (tool_calls lam)) =? _)%nat; reflexivity.
Qed.

Lemma find_app {A} (P : A -> bool) l1 l2 :
  List.find P (l1 ++ l2)%list =
  match List.find P l1 with Some x => Some x | None => List.find P l2 end.
Proof.
  induction l1 as [|x l1 IH]; simpl; [reflexivity|].
  destruct (P x); [reflexivity|exact IH].
Qed.

Lemma find_none_iff {A} (P : A -> bool) l :
  (forall x, In x l -> P x = false) -> List.find P l = None.
Proof.
  induction l as [|x l IH]; simpl; [reflexivity|]. intros H.
  rewrite (H x) by (left; reflexivity). apply IH. intros y Hy. apply H.
  right. exact Hy.
Qed.

Lemma index_first x p q :
  ~ In x p -> index x (p ++ x :: q)%list = Ok (length p).
Proof.
  induction p as [|m p IH]; simpl; intros Hn.
  - rewrite bool_decide_eq_true_2; reflexivity.
  - rewrite bool_decide_eq_false_2 by (intros ->; apply Hn; left; reflexivity).
    rewrite IH; [reflexivity|]. intros H. apply Hn. right. exact H.
Qed.

(** [index] finds the first occurrence: the list splits there. *)
Lemma index_split x l i :
  index x l = Ok i ->
  exists p q, l = (p ++ x :: q)%list /\ ~ In x p /\ i = length p.
Proof.
  revert i. induction l as [|m l IH]; simpl; [discriminate|]. intros i.
  destruct (bool_decide (m = x)) eqn:E.
  - apply bool_decide_eq_true in E. subst. intros [= <-].
    exists [], l. repeat split. intros [].
  - apply bool_decide_eq_false in E.
    destruct (index x l) as [j|]; [|discriminate]. intros [= <-].
    destruct (IH j eq_refl) as (p & q & -> & Hn & ->).
    exists (m :: p), q. repeat split.
    intros [H|H]; [exact (E H)|exact (Hn H)].
Qed.

Lemma awtc_regular m : awtc m = true -> regular_role m = true.
Proof.
  unfold awtc, regular_role. intros [H _]%andb_true_iff. rewrite H.
  rewrite orb_true_r. reflexivity.
Qed.

Lemma tool_regular m : role_is "tool" m = true -> regular_role m = true.
Proof.
  unfold regular_role. intros ->. rewrite orb_true_r. reflexivity.
Qed.

Lemma filter_tool_regular l :
  List.filter (role_is "tool") (List.filter regular_role l)
  = List.filter (role_is "tool") l.
Proof.
  induction l as [|m l IH]; simpl; [reflexivity|].
  destruct (regular_role m) eqn:R; simpl.
  - rewrite IH. reflexivity.
  - destruct (role_is "tool" m) eqn:T; [|exact IH].
    rewrite (tool_regular _ T) in R. discriminate.
Qed.

Lemma drop_app_length {A} (p q : list A) x :
  drop (S (length p)) (p ++ x :: q)%list = q.
Proof. induction p as [|y p IH]; simpl; [reflexivity|exact IH]. Qed.

Lemma take_app_length {A} (p q : list A) x :
  take (S (length p)) (p ++ x :: q)%list = (p ++ [x])%list.
Proof. induction p as [|y p IH]; simpl; [reflexivity|]. rewrite IH. reflexivity. Qed.

(** X8.  The repair leaves a complete, unrepeated last request alone. *)
Lemma cleanup_complete_noop s thread_id pre lam post :
  active_log s thread_id = (pre ++ lam :: post)%list ->
  awtc lam = true ->
  (forall m, In m post -> awtc m = false) ->
  ~ In lam pre ->
  length (default [] (tool_calls lam))
    = length (List.filter (role_is "tool") post) ->
  cleanup_incomplete_tool_calls thread_id s = (Ok false, s).
Proof.
  intros Hlog Hlam Hpost Hpre Hlen. rewrite cleanup_repaired, Hlog.
  unfold repaired. rewrite List.filter_app. simpl.
  rewrite (awtc_regular _ Hlam).
  rewrite rev_app_distr. simpl. rewrite <- app_assoc. simpl.
  rewrite find_app, find_none_iff.
  2:{ intros m Hm%in_rev. apply filter_In in Hm as [Hm _]. apply Hpost, Hm. }
  simpl. rewrite Hlam.
  rewrite index_first by (intros H; apply filter_In in H as [H _]; exact (Hpre H)).
  rewrite drop_app_length, filter_tool_regular, Hlen, Nat.eqb_refl.
  reflexivity.
Qed.

Lemma filter_all {A} (P : A -> bool) l :
  Forall (fun x => P x = true) l -> List.filter P l = l.
Proof.
  induction 1 as [|x l Hx _ IH]; simpl; [reflexivity|].
  rewrite Hx, IH. reflexivity.
Qed.

Lemma filter_tool_failed calls :
  List.filter (role_is "tool") (map failed_tool_result calls)
  = map failed_tool_result calls.
Proof. induction calls as [|c l IH]; simpl; [reflexivity|]. rewrite IH. reflexivity. Qed.

Lemma find_awtc_failed calls :
  List.find awtc (map failed_tool_result calls) = None.
Proof.
  apply find_none_iff. intros m (c & <- & _)%in_map_iff. reflexivity.
Qed.

(** The shape of a repair that writes: the filtered list splits at the
    first occurrence of the last assistant message with tool calls, and
    the synthesized results go right after it. *)
Lemma repaired_shape stored messages :
  repaired stored = Some messages ->
  exists p lam q,
    List.filter regular_role stored = (p ++ lam :: q)%list
    /\ ~ In lam p
    /\ List.find awtc (rev (p ++ lam :: q)) = Some lam
    /\ length (default [] (tool_calls lam))
         <> length (List.filter (role_is "tool") q)
    /\ messages =
         (p ++ lam ::
            map failed_tool_result
              (drop (length (List.filter (role_is "tool") q))
                    (default [] (tool_calls lam)))
            ++ q)%list.
Proof.
  unfold repaired.
  destruct (List.find awtc _) as [lam|] eqn:Hfind; [|discriminate].
  destruct (index lam _) as [i|] eqn:Hi; [|discriminate].
  destruct (index_split _ _ _ Hi) as (p & q & Hsplit & Hn & ->).
  rewrite Hsplit in *. rewrite drop_app_length, take_app_length.
  destruct (_ =? _)%nat eqn:E; [discriminate|]. intros [= <-].
  exists p, lam, q. repeat split; try assumption.
  - apply Nat.eqb_neq. exact E.
  - rewrite <- app_assoc. reflexivity.
Qed.

Lemma repaired_twice stored messages :
  repaired stored = Some messages ->
  repaired messages = None \/ repaired messages = Some messages.
Proof.
  intros (p & lam & q & Hsplit & Hn & Hfind & Hne & ->)%repaired_shape.
  set (r := length (List.filter (role_is "tool") q)) in *.
  set (calls := default [] (tool_calls lam)) in *.
  set (failed := map failed_tool_result (drop r calls)).
  assert (Hreg : Forall (fun m => regular_role m = true) (p ++ lam :: q)%list).
  { rewrite <- Hsplit. apply Forall_filter_regular. }
  assert (Hlam : awtc lam = true) by (apply find_some in Hfind; tauto).
  assert (Hall : Forall (fun m => regular_role m = true)
                   (p ++ lam :: failed ++ q)%list).
  { apply List.Forall_forall. intros m Hm.
    assert (Hin : In m (p ++ lam :: q)%list \/ In m failed).
    { apply in_app_or in Hm as [Hm|[Hm|Hm]].
      - left. apply in_or_app. left. exact Hm.
      - left. apply in_or_app. right. left. exact Hm.
      - apply in_app_or in Hm as [Hm|Hm]; [right; exact Hm|].
        left. apply in_or_app. right. right. exact Hm. }
    destruct Hin as [Hin|Hin].
    - exact (proj1 (List.Forall_forall _ _) Hreg m Hin).
    - apply in_map_iff in Hin as (c & <- & _). reflexivity. }
  assert (Hfind' : List.find awtc (rev (p ++ lam :: failed ++ q)%list)
                   = Some lam).
  { rewrite rev_app_distr in *. simpl in *. rewrite rev_app_distr.
    rewrite <- !app_assoc in *. simpl in *.
    rewrite find_app in Hfind. rewrite find_app.
    destruct (List.find awtc (rev q)) as [x|]; [exact Hfind|].
    rewrite find_app. unfold failed. rewrite <- map_rev, find_awtc_failed.
    simpl. rewrite Hlam. reflexivity. }
  assert (Hf : length failed = (length calls - r)%nat).
  { unfold failed. rewrite length_map, length_drop. reflexivity. }
  assert (Hrep : repaired (p ++ lam :: failed ++ q)%list =
                 if (length calls =? length failed + r)%nat then None
                 else Some ((p ++ [lam]) ++
                            map failed_tool_result
                              (drop (length failed + r) calls)
                            ++ failed ++ q)%list).
  { unfold repaired. rewrite (filter_all _ _ Hall), Hfind'.
    rewrite index_first by exact Hn.
    rewrite drop_app_length, take_app_length, List.filter_app.
    assert (Hft : List.filter (role_is "tool") failed = failed)
      by apply filter_tool_failed.
    rewrite Hft, !length_app. reflexivity. }
  rewrite Hrep, Hf.
  destruct (Nat.le_gt_cases r (length calls)) as [Hle|Hgt].
  - left.
    replace (length calls - r + r)%nat with (length calls) by lia.
    rewrite Nat.eqb_refl. reflexivity.
  - right.
    replace (length calls - r + r)%nat with r by lia.
    rewrite (proj2 (Nat.eqb_neq _ _) Hne).
    assert (Hd : drop r calls = []) by (apply drop_ge; lia).
    unfold failed. rewrite Hd. simpl.
    rewrite <- app_assoc. reflexivity.
Qed.

Lemma active_log_insert s thread_id msgs h tid :
  active_log {| threads := <[thread_id := msgs]> (threads s); histories := h |} tid
  = if decide (thread_id = tid) then msgs else active_log s tid.
Proof.
  unfold active_log. simpl. rewrite lookup_insert.
  destruct (decide (thread_id = tid)); reflexivity.
Qed.

Lemma history_log_insert s thread_id msgs t tid :
  history_log {| threads := t; histories := <[thread_id := msgs]> (histories s) |} tid
  = if decide (thread_id = tid) then msgs else history_log s tid.
Proof.
  unfold history_log. simpl. rewrite lookup_insert.
  destruct (decide (thread_id = tid)); reflexivity.
Qed.

(** X9.  Running the repair a second time leaves the store of the first run. *)
Lemma cleanup_twice_store thread_id s :
  let s1 := snd (cleanup_incomplete_tool_calls thread_id s) in
  snd (cleanup_incomplete_tool_calls thread_id s1) = s1.
Proof.
  simpl. rewrite (cleanup_repaired thread_id s).
  destruct (repaired (active_log s thread_id)) as [messages|] eqn:Hr; simpl.
  - rewrite cleanup_repaired, active_log_insert.
    destruct (decide (thread_id = thread_id)); [|congruence].
    destruct (repaired_twice _ _ Hr) as [-> | ->]; simpl; [reflexivity|].
    rewrite insert_insert_eq. reflexivity.
  - rewrite cleanup_repaired, Hr. reflexivity.
Qed.

(** C5, evaluated.  The log holds the same assistant message twice, each
    time followed by its one tool answer, and a message of an unlisted role.
    The last assistant message with tool calls (index 3) has as many tool
    messages after it as it has requests, as the check of [add_message]
    finds; the repair looks the message up by value, counts the tool messages
    after its first occurrence, reports a cleanup and rewrites the log, from
    which the message of the unlisted role is gone. *)
Theorem cleanup_miscounts_repeated_assistant :
  let b := assistant_calling [call "c1" "f"] in
  let t := tool_answer "c1" "f" "ok" in
  let msgs := [note "n"; b; t; b; t] in
  let s := one_thread msgs [] in
  next_assistant_index (rev msgs) = Ok (Some 3%nat)
  /\ tool_call_count_at msgs 3 = Ok 1%nat
  /\ tool_response_count (drop 4 msgs) = Ok 1%nat
  /\ cleanup_incomplete_tool_calls "t" s = (Ok true, one_thread [b; t; b; t] []).
Proof.
  intros b t msgs s. split; [|split; [|split]]; vm_compute; reflexivity.
Qed.

(** ** Appending a message *)

Lemma add_message_cases f thread_id message_data images s :
  add_message_outcome f thread_id message_data images s
    (add_message f thread_id message_data images s).
Proof.
  unfold add_message, try_except, bind, read_thread, lift, raise.
  destruct (threads s !! thread_id) as [msgs|] eqn:Hth; [|constructor].
  destruct (subscript_role message_data) as [r|e]; [|constructor].
  assert (Hrest : forall s0 : store,
    (s0 = s \/ s0 = snd (cleanup_incomplete_tool_calls thread_id s)) ->
    add_message_outcome f thread_id message_data images s
      match
        match attach_images (convert_tool_results f message_data) images with
        | Ok a =>
            match write_thread thread_id (msgs ++ [a])%list s0 with
            | (Ok _, s') =>
                match read_history thread_id s' with
                | (Ok a0, s'0) =>
                    write_history thread_id (a0 ++ [a])%list s'0
                | (Raise e, s'0) => (Raise e, s'0)
                end
            | (Raise e, s') => (Raise e, s')
            end
        | Raise e => (Raise e, s0)
        end
      with
      | (Ok a, s') => (Ok a, s')
      | (Raise e, s') => (Raise e, s')
      end).
  { intros s0 Hs0.
    destruct (attach_images _ images) as [m|e] eqn:Hat.
    - unfold write_thread, read_history, write_history. simpl.
      assert (Hh : histories s0 = histories s).
      { destruct Hs0 as [->| ->]; [reflexivity|].
        rewrite cleanup_repaired. destruct (repaired _); reflexivity. }
      assert (Ht : <[thread_id := (msgs ++ [m])%list]> (threads s0)
                   = <[thread_id := (msgs ++ [m])%list]> (threads s)).
      { destruct Hs0 as [->| ->]; [reflexivity|].
        rewrite cleanup_repaired. destruct (repaired _); [|reflexivity].
        simpl. apply insert_insert_eq. }
      rewrite Hh, Ht. apply add_appended; assumption.
    - destruct Hs0 as [->| ->]; constructor. }
  destruct (String.eqb r "user"); [|apply Hrest; left; reflexivity].
  destruct (next_assistant_index (rev msgs)) as [[i|]|e];
    [| apply Hrest; left; reflexivity | constructor].
  destruct (tool_call_count_at msgs i) as [n|e]; [|constructor].
  destruct (tool_response_count (drop (S i) msgs)) as [k|e]; [|constructor].
  destruct (negb (n =? k)%nat); [|apply Hrest; left; reflexivity].
  destruct (cleanup_incomplete_tool_calls thread_id s) as [[b|e] s1] eqn:Hc.
  - simpl. apply Hrest. right. reflexivity.
  - replace s1 with (snd (cleanup_incomplete_tool_calls thread_id s))
      by (rewrite Hc; reflexivity).
    constructor.
Qed.

Lemma add_message_active_log f thread_id message_data images s s' :
  add_message f thread_id message_data images s = (Ok tt, s') ->
  exists m,
    attach_images (convert_tool_results f message_data) images = Ok m
    /\ active_log s' thread_id = (active_log s thread_id ++ [m])%list
    /\ history_log s' thread_id = (history_log s thread_id ++ [m])%list.
Proof.
  intros H.
  destruct (add_message_cases f thread_id message_data images s)
    as [e|e|msgs m Hth Hat]; try discriminate.
  injection H as <-. exists m. split; [exact Hat|].
  rewrite active_log_insert, history_log_insert.
  destruct (decide (thread_id = thread_id)); [|congruence].
  unfold active_log. rewrite Hth. split; reflexivity.
Qed.

(** C1, evaluated.  On a log that ends with an assistant message of two
    tool calls, the repair alone writes the two failure messages after it, in
    request order; [add_message] of a user message runs that repair and then
    writes the list it read before the repair, with the user message
    appended: the log it leaves holds no failure message. *)
Theorem add_message_overwrites_repair (f : Tool.ToolResult -> string) :
  let a := assistant_calling [call "c1" "f"; call "c2" "g"] in
  let u := user_says "hi" in
  let s := one_thread [a] [a] in
  cleanup_incomplete_tool_calls "t" s
    = (Ok true, one_thread [a; failed_tool_result (call "c1" "f");
                            failed_tool_result (call "c2" "g")] [a])
  /\ add_message f "t" u [] s = (Ok tt, one_thread [a; u] [a; u]).
Proof. split; vm_compute; reflexivity. Qed.

(** ** The two logs along a run *)

Lemma repaired_In stored messages m :
  repaired stored = Some messages -> In m messages ->
  In m stored \/ interrupted m.
Proof.
  unfold repaired.
  destruct (List.find awtc _) as [lam|]; [|discriminate].
  destruct (index lam _) as [i|]; [|discriminate].
  destruct (_ =? _)%nat; [discriminate|].
  intros [= <-] Hin.
  apply in_app_or in Hin as [Hin|Hin]; [|apply in_app_or in Hin as [Hin|Hin]].
  - left. apply In_take in Hin. apply filter_In in Hin. tauto.
  - right. apply in_map_iff in Hin as (tc & <- & _). exists tc. reflexivity.
  - left. apply In_drop in Hin. apply filter_In in Hin. tauto.
Qed.

(** ** A failing transport *)

Section TransportFailure.
Context {response schema function_table custom float any : Type}.
Variable make_llm_api_call :
  request schema float any -> res response.
Variable process_response :
  processor function_table custom -> response -> bool -> M unit.
Variable get_openapi_schemas : list schema.
Variable get_available_functions : function_table.

(** C6.  When the two calling conventions are not both requested and the
    transport raises [e] on the request [run_thread] prepares, [run_thread]
    raises nothing: it returns the dict with status ["error"] and message
    [str(e)], and the store is the one it started from. *)
Theorem run_thread_transport_failure
    (s : store) (thread_id : string) (system_message : message)
    (model_name : string) (temperature : float) (max_tokens : option Z)
    (tool_choice : string) (temporary_message : option message)
    (native_tool_calling xml_tool_calling execute_tools stream
       execute_tools_on_stream parallel_tool_execution : bool)
    (tool_parser : option (tool_parser custom))
    (tool_executor : option (tool_executor custom))
    (results_adder : option (results_adder custom))
    (agentops_session : any) (stop_sequences : option (list string))
    (e : exn) :
  native_tool_calling && xml_tool_calling = false ->
  make_llm_api_call
    {| req_messages :=
         prepare_messages system_message
           (view false false true (active_log s thread_id))
           temporary_message;
       req_model_name := model_name;
       req_temperature := temperature;
       req_max_tokens := max_tokens;
       req_tools :=
         if native_tool_calling then Some get_openapi_schemas else None;
       req_tool_choice :=
         if native_tool_calling then Some tool_choice else None;
       req_stream := stream;
       req_agentops_session := agentops_session;
       req_stop_sequences := stop_sequences |} = Raise e ->
  run_thread make_llm_api_call process_response get_openapi_schemas
    get_available_functions thread_id system_message model_name
    temperature max_tokens tool_choice temporary_message
    native_tool_calling xml_tool_calling execute_tools stream
    execute_tools_on_stream parallel_tool_execution tool_parser
    tool_executor results_adder agentops_session stop_sequences s
  = (Ok (ErrorDict "error" (str e)), s).
Proof.
  intros Hflags Hfail. unfold run_thread. rewrite Hflags.
  unfold try_except, bind. rewrite list_messages_view.
  unfold lift. rewrite Hfail. reflexivity.
Qed.

End TransportFailure.

Lemma run_thread_transport_failure_witness :
  run_thread (response := unit) (schema := unit) (function_table := unit)
    (custom := unit) (float := Z) (any := unit)
    (fun _ => Raise (Exception "connection refused"))
    (fun _ _ _ => ret tt) [] tt
    "t" (Sample.user_says "system") "model" 0 None "auto" None
    true false true false false false None None None tt None
    (Sample.one_thread [Sample.user_says "hi"] [Sample.user_says "hi"])
  = (Ok (ErrorDict "error" "connection refused"),
     Sample.one_thread [Sample.user_says "hi"] [Sample.user_says "hi"]).
Proof.
  apply (run_thread_transport_failure
           (fun _ => Raise (Exception "connection refused"))
           (fun _ _ _ => ret tt) [] tt
           (Sample.one_thread [Sample.user_says "hi"] [Sample.user_says "hi"])
           "t" (Sample.user_says "system") "model" 0 None "auto" None
           true false true false false false None None None tt None
           (Exception "connection refused")); reflexivity.
Defined.

End ThreadManagerFacts.

(** * Properties of the tools *)

Module PyStrFacts.
Import PyStr.

Lemma append_cons x (a b : string) : String x a +:+ b = String x (a +:+ b).
Proof. reflexivity. Qed.

Lemma append_nil_l (b : string) : EmptyString +:+ b = b.
Proof. reflexivity. Qed.

Lemma append_assoc (a b c : string) : (a +:+ b) +:+ c = a +:+ b +:+ c.
Proof.
  induction a as [|x a IH]; [reflexivity|].
  rewrite !append_cons, IH. reflexivity.
Qed.

Lemma contains_app_r needle a b :
  contains needle b = true -> contains needle (a +:+ b) = true.
Proof.
  intros H. induction a as [|c a IH]; [exact H|].
  rewrite append_cons. simpl. rewrite IH. apply orb_true_r.
Qed.

End PyStrFacts.

Module BashToolFacts.
Import Tool PyStr PyStrFacts Subprocess BashTool.

(** C8.  When the subprocess of a command does not complete within the
    timeout of [wait_for], [bash_command] returns a failure-tagged result
    whose output reports the timeout. *)
Theorem bash_command_timeout (container_name : string)
    (subprocess : list string -> outcome) (command : string) :
  subprocess (docker_exec container_name command) = TimedOut ->
  let result := bash_command container_name subprocess command in
  success result = false
  /\ output result =
       nl +:+ "Command executed: `" +:+ command +:+ "`" +:+ nl
       +:+ "<output>" +:+ nl
       +:+ "Command execution timed out after 5 minutes" +:+ "</output>"
  /\ contains "timed out" (output result) = true.
Proof.
  intros Hto result.
  assert (Hres : result =
    fail_response
      (nl +:+ "Command executed: `" +:+ command +:+ "`" +:+ nl
       +:+ "<output>" +:+ nl
       +:+ "Command execution timed out after 5 minutes" +:+ "</output>")).
  { subst result. unfold bash_command, execute_command_in_container.
    rewrite Hto. change (1 =? 0) with false. cbv iota.
    replace (strip EmptyString) with EmptyString by reflexivity.
    replace (strip "Command execution timed out after 5 minutes")
      with "Command execution timed out after 5 minutes"
      by (vm_compute; reflexivity).
    rewrite !append_assoc. reflexivity. }
  rewrite Hres. split; [reflexivity|]. split; [reflexivity|].
  unfold fail_response, output.
  do 7 apply contains_app_r. vm_compute. reflexivity.
Qed.

Lemma bash_command_timeout_witness :
  let result := bash_command "box" (fun _ => TimedOut) "sleep 1000" in
  success result = false
  /\ output result =
       nl +:+ "Command executed: `" +:+ "sleep 1000" +:+ "`" +:+ nl
       +:+ "<output>" +:+ nl
       +:+ "Command execution timed out after 5 minutes" +:+ "</output>"
  /\ contains "timed out" (output result) = true.
Proof.
  apply (bash_command_timeout "box" (fun _ => TimedOut) "sleep 1000").
  reflexivity.
Defined.
End BashToolFacts.

Module RepoToolFacts.
Import Tool PyStr PyStrFacts Subprocess RepoTool.

(** C10.  The result of [run_bash] is failure-tagged exactly when the body
    of [_execute_command] raised.  With a workspace stored, it never raises:
    whatever the return code, the result is the success-tagged report of the
    output, and the return code shows only in the [success] flag of the entry
    appended to [last_terminal_session].  Without a stored workspace
    [_update_terminal] raises and the result is failure-tagged. *)
Theorem run_bash_tag (container_name : string)
    (docker : list call -> call -> outcome) (command : string) (w : world) :
  let c := docker_call container_name command None in
  let r := execute_result (docker (calls w) c) in
  let returncode := snd r in
  let shown := truncate_output (fst (fst r)) (snd (fst r)) in
  let body := _execute_command_body container_name docker command w in
  let result := run_bash container_name docker command w in
  (* the tag is the failure tag exactly when the body raised *)
  success (fst result) = is_ok (fst body)
  /\ match stored_workspace w with
     | Some ws =>
         result =
           (Tool.success_response ("Command executed:" +:+ nl +:+ shown),
            {| stored_workspace :=
                 Some (recorded ws
                         {| entry_command := command;
                            entry_output := Some shown;
                            entry_success := Some (returncode =? 0) |});
               calls := (calls w ++ [c])%list;
               scheduled_failures := scheduled_failures w |})
     | None =>
         fst body = Raise none_not_iterable
         /\ success (fst result) = false
     end.
Proof.
  intros c r returncode shown body result.
  subst body result. unfold run_bash, _execute_command, tool_method.
  unfold _execute_command_body, bind, execute, _update_terminal, bind,
    get_workspace, set_workspace, success_response, raise, ret.
  fold c. fold r. destruct r as [[stdout stderr] rc] eqn:Hr.
  simpl in returncode, shown. subst returncode shown. cbn [stored_workspace].
  destruct (stored_workspace w) as [ws|]; simpl; split; try reflexivity.
  split; reflexivity.
Qed.

(** A command that exits with 2 is reported with the success tag; the
    failure is in the recorded entry only. *)
Example run_bash_nonzero_exit :
  let result :=
    run_bash "box" (fun _ _ => Completed "out" "err" 2) "false"
             Sample.one_file_open in
  success (fst result) = true
  /\ (stored_workspace (snd result) ≫= last_terminal_session)
     = Some [{| entry_command := "false"; entry_output := Some "outerr";
                entry_success := Some false |}].
Proof. vm_compute. split; reflexivity. Qed.




Section EditFile.
Variable container_name : string.
Variable docker : list call -> call -> outcome.
Variable finditer_old_new : string -> list (string * string).


End EditFile.

(** A file rewritten by two replacements, the second one matching only
    what the first one produced; and the same edit with a third replacement
    whose [old_string] does not occur: one read, no write. *)
Example edit_file_sample :
  let docker := Sample.one_file_container "x = 1; y = 1" in
  let good := PList [replacement_dict "1" "2"; replacement_dict "y = 2" "z"] in
  let bad := PList [replacement_dict "1" "2"; replacement_dict "y = 2" "z";
                    replacement_dict "w" "v"] in
  let path := "/testbed/a.py" in
  let read := docker_call "box" (read_command path) None in
  edit_file "box" docker Sample.no_matches path good Sample.one_file_open
    = (Tool.success_response "File /testbed/a.py edited successfully.",
       {| stored_workspace := stored_workspace Sample.one_file_open;
          calls := [read; docker_call "box" (write_command path)
                                      (Some "x = 2; z")];
          scheduled_failures := [] |})
  /\ success (fst (edit_file "box" docker Sample.no_matches path bad
                             Sample.one_file_open)) = false
  /\ calls (snd (edit_file "box" docker Sample.no_matches path bad
                           Sample.one_file_open)) = [read].
Proof. vm_compute. repeat split. Qed.

End RepoToolFacts.

(** * More properties of the thread manager *)

Module ThreadLogFacts.
Import ThreadManager ThreadManagerFacts.
Import Sample.

(** ** Listing *)



Lemma find_rev_last {A} (P : A -> bool) l :
  match List.find P (rev l) with
  | None => forall x, In x l -> P x = false
  | Some m => exists pre post, l = (pre ++ m :: post)%list /\ P m = true
                               /\ forall x, In x post -> P x = false
  end.
Proof.
  induction l as [|a l IH] using rev_ind; [intros x []|].
  rewrite rev_app_distr. simpl. destruct (P a) eqn:Pa.
  - exists l, []. repeat split; [exact Pa|intros x []].
  - destruct (List.find P (rev l)) as [m|].
    + destruct IH as (pre & post & -> & Pm & Hpost).
      exists pre, (post ++ [a])%list. rewrite <- app_assoc. repeat split;
        [exact Pm|].
      intros x [H|[<-|[]]]%in_app_or; [apply Hpost, H|exact Pa].
    + intros x [H|[<-|[]]]%in_app_or; [apply IH, H|exact Pa].
Qed.

(** X2.  With [only_latest_assistant] set, [list_messages] returns the last stored
    message of role assistant and nothing else, whatever the other two flags
    are; it returns the empty list when the log has no assistant message. *)
Theorem list_messages_latest_assistant (thread_id : string)
    (hide_tool_msgs regular_list : bool) (s : store) :
  let stored := active_log s thread_id in
  exists shown,
    list_messages thread_id hide_tool_msgs true regular_list s = (Ok shown, s)
    /\ ((shown = [] /\ forall m, In m stored -> role m <> Some "assistant")
        \/ exists pre m post,
             stored = (pre ++ m :: post)%list /\ shown = [m]
             /\ role m = Some "assistant"
             /\ forall x, In x post -> role x <> Some "assistant").
Proof.
  intros stored. eexists. split; [apply list_messages_view|].
  unfold view, latest_assistant. fold stored.
  pose proof (find_rev_last (role_is "assistant") stored) as H.
  destruct (List.find _ _) as [m|].
  - right. destruct H as (pre & post & Hs & Pm & Hpost).
    exists pre, m, post. repeat split; [exact Hs| |].
    + apply bool_decide_eq_true in Pm. exact Pm.
    + intros x Hx. apply Hpost in Hx. apply bool_decide_eq_false in Hx. exact Hx.
  - left. split; [reflexivity|]. intros m Hm. apply H in Hm.
    apply bool_decide_eq_false in Hm. exact Hm.
Qed.

(** ** Appending *)

(** X3.  A message added is listed back: when [add_message] returns, the
    unfiltered listing of the thread is the former log followed by the
    message as stored (its [ToolResult] content rendered, its images
    attached). *)
Theorem add_message_then_list (f : Tool.ToolResult -> string)
    (thread_id : string) (message_data : message) (images : list image)
    (s s' : store) :
  add_message f thread_id message_data images s = (Ok tt, s') ->
  exists m,
    attach_images (convert_tool_results f message_data) images = Ok m
    /\ list_messages thread_id false false false s'
       = (Ok (active_log s thread_id ++ [m])%list, s').
Proof.
  intros H.
  destruct (add_message_cases f thread_id message_data images s)
    as [e|e|msgs m Hth Hat]; try discriminate.
  injection H as <-. exists m. split; [exact Hat|].
  rewrite list_messages_view. unfold view. rewrite active_log_insert.
  destruct (decide (thread_id = thread_id)); [|congruence].
  unfold active_log. rewrite Hth. reflexivity.
Qed.

Lemma add_message_then_list_witness :
  exists m,
    attach_images (convert_tool_results plain_str (user_says "hi")) [] = Ok m
    /\ list_messages "t" false false false
         (one_thread [note "n"; user_says "hi"] [user_says "hi"])
       = (Ok (active_log (one_thread [note "n"] []) "t" ++ [m])%list,
          one_thread [note "n"; user_says "hi"] [user_says "hi"]).
Proof.
  apply (add_message_then_list plain_str "t" (user_says "hi") []
           (one_thread [note "n"] [])).
  vm_compute. reflexivity.
Defined.

(** X4.  [add_message] raises before it writes anything when the thread file is
    missing or the message has no role: the store is untouched, and no
    history file is made for the missing thread. *)
Theorem add_message_raises_early (f : Tool.ToolResult -> string)
    (thread_id : string) (message_data : message) (images : list image)
    (s : store) :
  threads s !! thread_id = None \/ role message_data = None ->
  exists e, add_message f thread_id message_data images s = (Raise e, s)
            /\ (threads s !! thread_id = None ->
                e = FileNotFoundError (thread_id +:+ ".json"))
            /\ (threads s !! thread_id <> None -> e = KeyError "role").
Proof.
  intros H. unfold add_message, try_except, bind, read_thread, lift, raise.
  destruct (threads s !! thread_id) as [msgs|] eqn:Hth.
  - destruct H as [H|H]; [discriminate|].
    unfold subscript_role. rewrite H. eexists. split; [reflexivity|].
    split; [discriminate|reflexivity].
  - eexists. split; [reflexivity|]. split; [reflexivity|congruence].
Qed.

Lemma add_message_raises_early_witness :
  exists e, add_message plain_str "u" (user_says "hi") []
              (one_thread [] []) = (Raise e, one_thread [] [])
            /\ (threads (one_thread [] []) !! "u" = None ->
                e = FileNotFoundError ("u" +:+ ".json"))
            /\ (threads (one_thread [] []) !! "u" <> None -> e = KeyError "role").
Proof.
  apply (add_message_raises_early plain_str "u" (user_says "hi") []
           (one_thread [] [])).
  left. reflexivity.
Defined.

(** X5.  Only a user message sets off the repair: a message of any other role is
    appended to both logs as it is, whatever the log holds (unanswered tool
    calls, messages without a role). *)
Theorem add_message_other_role (f : Tool.ToolResult -> string)
    (thread_id : string) (message_data m : message) (images : list image)
    (r : string) (msgs : list message) (s : store) :
  threads s !! thread_id = Some msgs ->
  role message_data = Some r -> r <> "user" ->
  attach_images (convert_tool_results f message_data) images = Ok m ->
  add_message f thread_id message_data images s
  = (Ok tt,
     {| threads := <[thread_id := (msgs ++ [m])%list]> (threads s);
        histories :=
          <[thread_id := (history_log s thread_id ++ [m])%list]>
            (histories s) |}).
Proof.
  intros Hth Hr Hne Hat.
  unfold add_message, try_except, bind, read_thread, lift, raise, ret,
    subscript_role.
  rewrite Hth, Hr. apply String.eqb_neq in Hne. rewrite Hne, Hat.
  reflexivity.
Qed.

Lemma add_message_other_role_witness :
  add_message plain_str "t" (assistant_calling [call "c2" "g"]) []
    (one_thread [assistant_calling [call "c1" "f"]] [])
  = (Ok tt,
     {| threads :=
          <["t" := ([assistant_calling [call "c1" "f"]]
                    ++ [assistant_calling [call "c2" "g"]])%list]>
            (threads (one_thread [assistant_calling [call "c1" "f"]] []));
        histories :=
          <["t" := (history_log
                      (one_thread [assistant_calling [call "c1" "f"]] []) "t"
                    ++ [assistant_calling [call "c2" "g"]])%list]>
            (histories (one_thread [assistant_calling [call "c1" "f"]] [])) |}).
Proof.
  apply (add_message_other_role plain_str "t"
           (assistant_calling [call "c2" "g"])
           (assistant_calling [call "c2" "g"]) [] "assistant"
           [assistant_calling [call "c1" "f"]]);
    [reflexivity | reflexivity | discriminate | reflexivity].
Defined.

End ThreadLogFacts.

Module RepairFacts.
Import ThreadManager ThreadManagerFacts.
Import Sample.

(** ** The repair *)

(** X7.  The repair proper.  On a log [pre ++ a :: post] where [a] is the last
    assistant message with tool calls, does not occur in [pre], and has fewer
    tool messages after it than requests, the repair reports a cleanup and
    writes the log with one failure message for each request from the first
    unanswered position on, in request order, right after [a]; the messages
    of other than the four regular roles are gone from the log; the history
    is not written. *)
Theorem cleanup_inserts_failures (s : store) (thread_id : string)
    (pre post : list message) (a : message) :
  let calls := default [] (tool_calls a) in
  let answered := length (List.filter (role_is "tool") post) in
  active_log s thread_id = (pre ++ a :: post)%list ->
  awtc a = true ->
  (forall m, In m post -> awtc m = false) ->
  ~ In a pre ->
  (answered < length calls)%nat ->
  cleanup_incomplete_tool_calls thread_id s
  = (Ok true,
     {| threads :=
          <[thread_id :=
              (List.filter regular_role pre
               ++ a :: map failed_tool_result (drop answered calls)
               ++ List.filter regular_role post)%list]> (threads s);
        histories := histories s |})
  /\ length (map failed_tool_result (drop answered calls))
     = (length calls - answered)%nat.
Proof.
  intros calls answered Hlog Ha Hpost Hpre Hlt. split.
  2:{ rewrite length_map, length_drop. reflexivity. }
  rewrite cleanup_repaired, Hlog.
  unfold repaired. rewrite List.filter_app. simpl.
  rewrite (awtc_regular _ Ha).
  rewrite rev_app_distr. simpl. rewrite <- app_assoc. simpl.
  rewrite find_app, find_none_iff.
  2:{ intros m Hm%in_rev. apply filter_In in Hm as [Hm _]. apply Hpost, Hm. }
  simpl. rewrite Ha.
  rewrite index_first
    by (intros H; apply filter_In in H as [H _]; exact (Hpre H)).
  rewrite drop_app_length, take_app_length, filter_tool_regular.
  fold calls. fold answered.
  rewrite (proj2 (Nat.eqb_neq (length calls) answered)) by lia.
  rewrite <- app_assoc. reflexivity.
Qed.

Lemma cleanup_inserts_failures_witness :
  cleanup_incomplete_tool_calls "t"
    (one_thread [note "n"; assistant_calling [call "c1" "f"; call "c2" "g"];
                 tool_answer "c1" "f" "ok"] [])
  = (Ok true,
     one_thread [assistant_calling [call "c1" "f"; call "c2" "g"];
                 failed_tool_result (call "c2" "g");
                 tool_answer "c1" "f" "ok"] []).
Proof.
  refine (proj1 (cleanup_inserts_failures
           (one_thread [note "n";
                        assistant_calling [call "c1" "f"; call "c2" "g"];
                        tool_answer "c1" "f" "ok"] [])
           "t" [note "n"] [tool_answer "c1" "f" "ok"]
           (assistant_calling [call "c1" "f"; call "c2" "g"])
           _ _ _ _ _)).
  - reflexivity.
  - reflexivity.
  - intros m [<-|[]]. reflexivity.
  - intros [H|[]]. discriminate H.
  - simpl. lia.
Defined.

Lemma cleanup_complete_noop_witness :
  cleanup_incomplete_tool_calls "t"
    (one_thread [note "n"; assistant_calling [call "c1" "f"];
                 tool_answer "c1" "f" "ok"] [])
  = (Ok false,
     one_thread [note "n"; assistant_calling [call "c1" "f"];
                 tool_answer "c1" "f" "ok"] []).
Proof.
  apply (cleanup_complete_noop _ "t" [note "n"]
           (assistant_calling [call "c1" "f"]) [tool_answer "c1" "f" "ok"]).
  - reflexivity.
  - reflexivity.
  - intros m [<-|[]]. reflexivity.
  - intros [H|[]]. discriminate H.
  - reflexivity.
Defined.

End RepairFacts.

Module StoreFacts.
Import ThreadManager ThreadManagerFacts.
Import Sample.

(** ** The history-only append *)

Lemma history_insert_ne s t thread_id msgs other :
  thread_id <> other ->
  history_log {| threads := t;
                 histories := <[thread_id := msgs]> (histories s) |} other
  = history_log s other.
Proof.
  intros Hne. rewrite history_log_insert.
  destruct (decide (thread_id = other)); [congruence|reflexivity].
Qed.

(** X12.  [add_to_history_only] never raises and never touches a thread file: it
    appends the message (a [ToolResult] content rendered) to the history of
    the thread, which it starts when there is none; the active logs stay
    covered by the histories. *)
Theorem add_to_history_only_appends (f : Tool.ToolResult -> string)
    (thread_id : string) (message_data : message) (s : store) :
  exists s',
    add_to_history_only f thread_id message_data s = (Ok tt, s')
    /\ threads s' = threads s
    /\ history_log s' thread_id
       = (history_log s thread_id ++ [convert_tool_results f message_data])%list
    /\ (forall other, thread_id <> other ->
                      history_log s' other = history_log s other)
    /\ (covered s -> covered s').
Proof.
  eexists. split; [reflexivity|]. simpl. split; [reflexivity|].
  split; [|split].
  - rewrite history_log_insert.
    destruct (decide (thread_id = thread_id)); [reflexivity|congruence].
  - intros other Hne. apply history_insert_ne. exact Hne.
  - intros Hc tid m Hin. rewrite history_log_insert.
    change (active_log {| threads := threads s; histories := _ |} tid)
      with (active_log s tid) in Hin.
    destruct (Hc tid m Hin) as [H|H]; [|right; exact H]. left.
    destruct (decide (thread_id = tid)) as [<-|_]; [|exact H].
    apply in_or_app. left. exact H.
Qed.

End StoreFacts.

Module RunThreadFacts.
Import ThreadManager ThreadManagerFacts.
Import Sample.

Section WithTransport.
Context {response schema function_table custom float any : Type}.
Variable make_llm_api_call : request schema float any -> res response.
Variable process_response :
  processor function_table custom -> response -> bool -> M unit.
Variable get_openapi_schemas : list schema.
Variable get_available_functions : function_table.

(** X13.  [run_thread] raises in one case only, the request of both calling
    conventions at once, and then before it reads anything: every failure of
    the transport or of the response processor comes back as a result. *)
Theorem run_thread_raises_only_on_both_conventions
    (s : store) (thread_id : string) (system_message : message)
    (model_name : string) (temperature : float) (max_tokens : option Z)
    (tool_choice : string) (temporary_message : option message)
    (native_tool_calling xml_tool_calling execute_tools stream
       execute_tools_on_stream parallel_tool_execution : bool)
    (tool_parser : option (tool_parser custom))
    (tool_executor : option (tool_executor custom))
    (results_adder : option (results_adder custom))
    (agentops_session : any) (stop_sequences : option (list string)) :
  let out :=
    run_thread make_llm_api_call process_response get_openapi_schemas
      get_available_functions thread_id system_message model_name
      temperature max_tokens tool_choice temporary_message
      native_tool_calling xml_tool_calling execute_tools stream
      execute_tools_on_stream parallel_tool_execution tool_parser
      tool_executor results_adder agentops_session stop_sequences s in
  is_ok (fst out) = negb (native_tool_calling && xml_tool_calling)
  /\ (native_tool_calling && xml_tool_calling = true ->
      exists msg, out = (Raise (ValueError msg), s)).
Proof.
  intros out. subst out. unfold run_thread.
  destruct (native_tool_calling && xml_tool_calling).
  - split; [reflexivity|]. intros _. eexists. reflexivity.
  - split; [|discriminate]. unfold try_except, bind.
    rewrite list_messages_view. unfold lift.
    destruct (make_llm_api_call _) as [r|e]; [|reflexivity].
    destruct stream; [reflexivity|].
    destruct (process_response _ r execute_tools s) as [[[]|e] s'];
      reflexivity.
Qed.

(** X14.  With [stream] set and a transport that answers, [run_thread] hands back
    the generator of [process_stream] over the answer and writes nothing:
    the response processor has not run yet, and the user message appended
    to a log that ends with an assistant message went to the transport only. *)
Theorem run_thread_stream_writes_nothing
    (s : store) (thread_id : string) (system_message : message)
    (model_name : string) (temperature : float) (max_tokens : option Z)
    (tool_choice : string) (temporary_message : option message)
    (native_tool_calling xml_tool_calling execute_tools
       execute_tools_on_stream parallel_tool_execution : bool)
    (tool_parser : option (tool_parser custom))
    (tool_executor : option (tool_executor custom))
    (results_adder : option (results_adder custom))
    (agentops_session : any) (stop_sequences : option (list string))
    (r : response) :
  native_tool_calling && xml_tool_calling = false ->
  make_llm_api_call
    {| req_messages :=
         prepare_messages system_message
           (view false false true (active_log s thread_id))
           temporary_message;
       req_model_name := model_name;
       req_temperature := temperature;
       req_max_tokens := max_tokens;
       req_tools :=
         if native_tool_calling then Some get_openapi_schemas else None;
       req_tool_choice :=
         if native_tool_calling then Some tool_choice else None;
       req_stream := true;
       req_agentops_session := agentops_session;
       req_stop_sequences := stop_sequences |} = Ok r ->
  exists p,
    run_thread make_llm_api_call process_response get_openapi_schemas
      get_available_functions thread_id system_message model_name
      temperature max_tokens tool_choice temporary_message
      native_tool_calling xml_tool_calling execute_tools true
      execute_tools_on_stream parallel_tool_execution tool_parser
      tool_executor results_adder agentops_session stop_sequences s
    = (Ok (StreamOf p r execute_tools execute_tools_on_stream), s)
    /\ proc_thread_id _ _ p = thread_id.
Proof.
  intros Hflags Hok. unfold run_thread. rewrite Hflags.
  unfold try_except, bind. rewrite list_messages_view.
  unfold lift. rewrite Hok. eexists. split; reflexivity.
Qed.

(** X15.  Without [stream], a response processor that raises is caught like the
    transport: [run_thread] returns the error dict with its message, and the
    store is the one the processor left, with whatever it had written before
    it raised. *)
Theorem run_thread_processor_failure
    (s s' : store) (thread_id : string) (system_message : message)
    (model_name : string) (temperature : float) (max_tokens : option Z)
    (tool_choice : string) (temporary_message : option message)
    (native_tool_calling xml_tool_calling execute_tools
       execute_tools_on_stream parallel_tool_execution : bool)
    (tool_parser : option (tool_parser custom))
    (tool_executor : option (tool_executor custom))
    (results_adder : option (results_adder custom))
    (agentops_session : any) (stop_sequences : option (list string))
    (r : response) (e : exn) :
  native_tool_calling && xml_tool_calling = false ->
  (forall req, make_llm_api_call req = Ok r) ->
  (forall p, process_response p r execute_tools s = (Raise e, s')) ->
  run_thread make_llm_api_call process_response get_openapi_schemas
    get_available_functions thread_id system_message model_name
    temperature max_tokens tool_choice temporary_message
    native_tool_calling xml_tool_calling execute_tools false
    execute_tools_on_stream parallel_tool_execution tool_parser
    tool_executor results_adder agentops_session stop_sequences s
  = (Ok (ErrorDict "error" (str e)), s').
Proof.
  intros Hflags Hok Hraise. unfold run_thread. rewrite Hflags.
  unfold try_except, bind. rewrite list_messages_view.
  unfold lift. rewrite Hok, Hraise. reflexivity.
Qed.

End WithTransport.

Lemma run_thread_stream_writes_nothing_witness :
  exists p,
    run_thread (response := string) (schema := unit) (function_table := unit)
      (custom := unit) (float := Z) (any := unit)
      (fun _ => Ok "chunks") (fun _ _ _ => ret tt) [] tt
      "t" (user_says "system") "model" 0 None "auto" None
      false true true true false false None None None tt None
      (one_thread [assistant_calling []] [])
    = (Ok (StreamOf p "chunks" true false), one_thread [assistant_calling []] [])
    /\ proc_thread_id _ _ p = "t".
Proof.
  apply (run_thread_stream_writes_nothing
           (fun _ => Ok "chunks") (fun _ _ _ => ret tt) [] tt
           (one_thread [assistant_calling []] [])
           "t" (user_says "system") "model" 0 None "auto" None
           false true true false false None None None tt None "chunks");
    reflexivity.
Defined.

Lemma run_thread_processor_failure_witness :
  run_thread (response := string) (schema := unit) (function_table := unit)
    (custom := unit) (float := Z) (any := unit)
    (fun _ => Ok "answer")
    (fun _ _ _ =>
       write_thread "t" [user_says "half"] >> raise (Exception "tool crashed"))
    [] tt
    "t" (user_says "system") "model" 0 None "auto" None
    false false true false false false None None None tt None
    (one_thread [] [])
  = (Ok (ErrorDict "error" (str (Exception "tool crashed"))),
     one_thread [user_says "half"] []).
Proof.
  apply (run_thread_processor_failure
           (fun _ => Ok "answer")
           (fun _ _ _ =>
              write_thread "t" [user_says "half"]
              >> raise (Exception "tool crashed"))
           [] tt (one_thread [] []) (one_thread [user_says "half"] [])
           "t" (user_says "system") "model" 0 None "auto" None
           false false true false false None None None tt None
           "answer" (Exception "tool crashed")).
  - reflexivity.
  - reflexivity.
  - intros p. vm_compute. reflexivity.
Defined.

(** X16.  The messages sent to the transport are the system message, then
    the listed messages in order, then the "Continue!" user message exactly
    when the listed messages end with an assistant message, then the
    temporary message exactly when one is given and is not empty, and
    nothing else.  When no temporary message is given and the log is not
    empty, the list sent does not end with an assistant message. *)
Theorem prepare_messages_shape (system_message : message)
    (messages : list message) (temporary_message : option message) :
  prepare_messages system_message messages temporary_message
  = (system_message :: messages
     ++ (if ends_with_assistant messages then [continue_message] else [])
     ++ match temporary_message with
        | Some t => if truthy t then [t] else []
        | None => []
        end)%list
  /\ (temporary_message = None -> messages <> [] ->
      ends_with_assistant
        (prepare_messages system_message messages temporary_message)
      = false).
Proof.
  unfold prepare_messages.
  destruct (ends_with_assistant messages) eqn:E.
  - destruct temporary_message as [t|]; [destruct (truthy t)|].
    + split; [|discriminate]. cbn [app]. rewrite <- app_assoc. reflexivity.
    + split; [|discriminate]. rewrite app_nil_r. reflexivity.
    + split; [rewrite app_nil_r; reflexivity|]. intros _ _.
      unfold ends_with_assistant.
      change (system_message :: messages ++ [continue_message])%list
        with ((system_message :: messages) ++ [continue_message])%list.
      rewrite last_snoc. reflexivity.
  - destruct temporary_message as [t|]; [destruct (truthy t)|].
    + split; [|discriminate]. cbn [app]. reflexivity.
    + split; [|discriminate]. rewrite app_nil_r. reflexivity.
    + split; [rewrite app_nil_r; reflexivity|]. intros _ Hne.
      unfold ends_with_assistant in *.
      destruct messages as [|m l]; [congruence|].
      rewrite last_cons_cons. exact E.
Qed.

End RunThreadFacts.

Module ToolRunFacts.
Import ThreadManager ThreadManagerFacts.
Import Sample.

Lemma add_message_other_role_eq (f : Tool.ToolResult -> string)
    (thread_id : string) (message_data : message) (r : string)
    (msgs : list message) (s : store) :
  threads s !! thread_id = Some msgs ->
  role message_data = Some r -> r <> "user" ->
  add_message f thread_id message_data [] s
  = (Ok tt,
     {| threads :=
          <[thread_id := (msgs ++ [convert_tool_results f message_data])%list]>
            (threads s);
        histories :=
          <[thread_id := (history_log s thread_id
                          ++ [convert_tool_results f message_data])%list]>
            (histories s) |}).
Proof.
  intros Hth Hr Hne.
  unfold add_message, try_except, bind, read_thread, lift, raise, ret,
    subscript_role.
  rewrite Hth, Hr. apply String.eqb_neq in Hne. rewrite Hne. reflexivity.
Qed.

Lemma add_messages_appends (f : Tool.ToolResult -> string)
    (thread_id : string) (results : list message) :
  Forall (fun x => exists rx, role x = Some rx /\ rx <> "user") results ->
  forall (s : store) (msgs hist : list message),
    threads s !! thread_id = Some msgs ->
    histories s !! thread_id = Some hist ->
    add_messages f thread_id results s
    = (Ok tt,
       {| threads :=
            <[thread_id :=
                (msgs ++ map (convert_tool_results f) results)%list]>
              (threads s);
          histories :=
            <[thread_id :=
                (hist ++ map (convert_tool_results f) results)%list]>
              (histories s) |}).
Proof.
  induction 1 as [|x rest (rx & Hrx & Hne) _ IH]; intros s msgs hist Hth Hh.
  - simpl. rewrite !app_nil_r, !insert_id by assumption.
    destruct s; reflexivity.
  - cbn [add_messages]. unfold bind at 1.
    rewrite (add_message_other_role_eq f thread_id x rx msgs s Hth Hrx Hne).
    unfold history_log. rewrite Hh. cbn [default].
    rewrite (IH _ (msgs ++ [convert_tool_results f x])%list
                  (hist ++ [convert_tool_results f x])%list)
      by apply lookup_insert_eq.
    cbn [threads histories map]. rewrite !insert_insert_eq, <- !app_assoc.
    reflexivity.
Qed.

Section WithTools.
Variable f : Tool.ToolResult -> string.
Context {arguments : Type}.
Variable available_functions : gmap string (arguments -> res Tool.ToolResult).
Variable execute_tool_calls : list tool_call -> string -> M (list message).
Variable format_other : content_value -> string.

(** X17.  [execute_tool_and_add_message] writes nothing unless the tool is
    registered and returns: an unregistered name raises [ValueError], a tool
    that raises passes its exception on, both with the store untouched.  The
    result of a tool that returns is appended, under a role other than user
    and to a thread that exists, to both logs as a message of the role and
    the rendered result alone, without [tool_call_id] or [name]. *)
Theorem execute_tool_and_add_message_outcomes
    (thread_id role_ tool_name : string) (args : arguments) (s : store) :
  let out :=
    execute_tool_and_add_message f available_functions thread_id role_
      tool_name args s in
  match available_functions !! tool_name with
  | None =>
      out = (Raise (ValueError ("Tool " +:+ tool_name +:+ " is not registered.")),
             s)
  | Some tool_function =>
      match tool_function args with
      | Raise e => out = (Raise e, s)
      | Ok result =>
          forall msgs, threads s !! thread_id = Some msgs -> role_ <> "user" ->
            let m := {| role := Some role_; content := Some (CStr (f result));
                        tool_calls := None; tool_call_id := None;
                        name := None |} in
            out = (Ok tt,
                   {| threads :=
                        <[thread_id := (msgs ++ [m])%list]> (threads s);
                      histories :=
                        <[thread_id := (history_log s thread_id ++ [m])%list]>
                          (histories s) |})
      end
  end.
Proof.
  intros out. subst out. unfold execute_tool_and_add_message.
  destruct (available_functions !! tool_name) as [tool_function|];
    [|reflexivity].
  unfold bind, lift. destruct (tool_function args) as [result|e];
    [|reflexivity].
  intros msgs Hth Hne.
  apply (add_message_other_role_eq f thread_id
           {| role := Some role_; content := Some (CStr (f result));
              tool_calls := None; tool_call_id := None; name := None |}
           role_ msgs s Hth eq_refl Hne).
Qed.

(** X18.  [add_message_and_run_tools] at a message with tool calls and a role
    other than user: when the thread exists and the executor returns its
    tool messages (none of role user) without writing the store, both logs
    end with the message followed by the tool messages, in the order the
    executor gave them. *)
Theorem add_message_and_run_tools_appends (thread_id : string)
    (message_data : message) (calls : list tool_call) (r : string)
    (msgs results : list message) (s : store) :
  let m := convert_tool_results f message_data in
  let s1 :=
    {| threads := <[thread_id := (msgs ++ [m])%list]> (threads s);
       histories :=
         <[thread_id := (history_log s thread_id ++ [m])%list]>
           (histories s) |} in
  threads s !! thread_id = Some msgs ->
  tool_calls message_data = Some calls ->
  role message_data = Some r -> r <> "user" ->
  execute_tool_calls calls thread_id s1 = (Ok results, s1) ->
  Forall (fun x => exists rx, role x = Some rx /\ rx <> "user") results ->
  add_message_and_run_tools f execute_tool_calls format_other thread_id
    message_data s
  = (Ok tt,
     {| threads :=
          <[thread_id :=
              (msgs ++ m :: map (convert_tool_results f) results)%list]>
            (threads s);
        histories :=
          <[thread_id :=
              (history_log s thread_id
               ++ m :: map (convert_tool_results f) results)%list]>
            (histories s) |}).
Proof.
  intros m s1 Hth Hcalls Hr Hne Hexec Hres.
  unfold add_message_and_run_tools. rewrite Hcalls.
  assert (Hu : role_is "user" message_data = false).
  { unfold role_is. apply bool_decide_eq_false. rewrite Hr. congruence. }
  rewrite Hu. unfold bind at 1.
  rewrite (add_message_other_role_eq f thread_id message_data r msgs s Hth Hr Hne).
  fold m. fold s1. unfold bind. rewrite Hexec.
  rewrite (add_messages_appends f thread_id results Hres s1
             (msgs ++ [m])%list (history_log s thread_id ++ [m])%list)
    by apply lookup_insert_eq.
  subst s1. cbn [threads histories].
  rewrite !insert_insert_eq, <- !app_assoc. reflexivity.
Qed.

End WithTools.

Lemma add_message_and_run_tools_appends_witness :
  add_message_and_run_tools plain_str
    (fun calls _ =>
       ret (map (fun c => tool_answer (tc_id c) (tc_function_name c) "ok") calls))
    (fun _ => EmptyString) "t"
    (assistant_calling [call "c1" "f"; call "c2" "g"])
    (one_thread [user_says "go"] [user_says "go"])
  = (Ok tt,
     {| threads :=
          <["t" := [user_says "go";
                    assistant_calling [call "c1" "f"; call "c2" "g"];
                    tool_answer "c1" "f" "ok"; tool_answer "c2" "g" "ok"]]>
            (threads (one_thread [user_says "go"] [user_says "go"]));
        histories :=
          <["t" := [user_says "go";
                    assistant_calling [call "c1" "f"; call "c2" "g"];
                    tool_answer "c1" "f" "ok"; tool_answer "c2" "g" "ok"]]>
            (histories (one_thread [user_says "go"] [user_says "go"])) |}).
Proof.
  apply (add_message_and_run_tools_appends plain_str
           (fun calls _ =>
              ret (map (fun c => tool_answer (tc_id c) (tc_function_name c) "ok")
                       calls))
           (fun _ => EmptyString) "t"
           (assistant_calling [call "c1" "f"; call "c2" "g"])
           [call "c1" "f"; call "c2" "g"] "assistant"
           [user_says "go"]
           [tool_answer "c1" "f" "ok"; tool_answer "c2" "g" "ok"]
           (one_thread [user_says "go"] [user_says "go"])).
  - reflexivity.
  - reflexivity.
  - reflexivity.
  - discriminate.
  - reflexivity.
  - apply List.Forall_cons; [exists "tool"; split; [reflexivity|discriminate]|].
    apply List.Forall_cons; [exists "tool"; split; [reflexivity|discriminate]|].
    apply List.Forall_nil.
Defined.

End ToolRunFacts.

(** * Properties of the thread manager over the directory *)

Module ThreadFilesFacts.
Import ThreadManager ThreadManagerFacts PyStrFacts.
Import ThreadFiles.

(** ** File names *)

Lemma list_ascii_of_string_append (a b : string) :
  list_ascii_of_string (a +:+ b)
  = (list_ascii_of_string a ++ list_ascii_of_string b)%list.
Proof.
  induction a as [|c a IH]; [reflexivity|].
  rewrite append_cons. cbn [list_ascii_of_string]. rewrite IH. reflexivity.
Qed.

Lemma append_inj_l (a b x : string) : a +:+ x = b +:+ x -> a = b.
Proof.
  intros H. apply (f_equal list_ascii_of_string) in H.
  rewrite !list_ascii_of_string_append in H. apply app_inv_tail in H.
  rewrite <- (string_of_list_ascii_of_string a),
          <- (string_of_list_ascii_of_string b), H.
  reflexivity.
Qed.

Lemma thread_path_inj a b : thread_path a = thread_path b -> a = b.
Proof. apply append_inj_l. Qed.

Lemma history_path_inj a b : history_path a = history_path b -> a = b.
Proof. apply append_inj_l. Qed.

Lemma history_path_thread_path b :
  history_path b = thread_path (b +:+ "_history").
Proof. unfold history_path, thread_path. rewrite append_assoc. reflexivity. Qed.

Lemma thread_name_not_history a b :
  thread_name a = true -> a <> b +:+ "_history".
Proof.
  unfold thread_name. intros Ha ->.
  rewrite list_ascii_of_string_append, forallb_app in Ha.
  apply andb_true_iff in Ha as [_ Ha]. vm_compute in Ha. discriminate.
Qed.

(** The thread file of a thread name is the history file of no thread. *)
Lemma thread_path_not_history a b :
  thread_name a = true -> thread_path a <> history_path b.
Proof.
  intros Ha H. rewrite history_path_thread_path in H.
  apply thread_path_inj in H. exact (thread_name_not_history a b Ha H).
Qed.

Lemma append_inj_r (a x y : string) : a +:+ x = a +:+ y -> x = y.
Proof.
  induction a as [|c a IH]; [intros H; exact H|].
  rewrite !append_cons. intros [= H]. exact (IH H).
Qed.

(** The two files of an id are two files. *)
Lemma thread_path_not_own_history a : thread_path a <> history_path a.
Proof. intros H%append_inj_r. discriminate. Qed.

(** ** Reading and the repair *)

Lemma list_messages_file thread_id h l r (d : directory) :
  list_messages thread_id h l r d
  = match d !! thread_path thread_id with
    | Some (Json msgs) => (Ok (view h l r msgs), d)
    | Some Broken => (Raise json_decode_error, d)
    | None => (Ok [], d)
    end.
Proof.
  unfold list_messages, or_if_missing, try_except, bind, read_file, view.
  destruct (d !! thread_path thread_id) as [[msgs|]|]; try reflexivity.
  destruct l; reflexivity.
Qed.

Lemma cleanup_file thread_id (d : directory) :
  cleanup_incomplete_tool_calls thread_id d
  = match d !! thread_path thread_id with
    | Some Broken => (Raise json_decode_error, d)
    | _ =>
        match repaired (active_log d thread_id) with
        | Some messages =>
            if forallb json_value messages
            then (Ok true, <[thread_path thread_id := Json messages]> d)
            else (Raise not_serializable,
                  <[thread_path thread_id := Broken]> d)
        | None => (Ok false, d)
        end
    end.
Proof.
  unfold cleanup_incomplete_tool_calls, bind. rewrite list_messages_file.
  unfold active_log.
  destruct (d !! thread_path thread_id) as [[stored|]|] eqn:Hf;
    [|reflexivity|reflexivity].
  cbn [log_of]. unfold view, repaired, lift.
  set (messages := List.filter regular_role stored).
  assert (Hreg : Forall (fun m => regular_role m = true) messages)
    by apply Forall_filter_regular.
  rewrite next_assistant_regular
    by (apply List.Forall_forall; intros m Hm%in_rev;
        exact (proj1 (List.Forall_forall _ _) Hreg m Hm)).
  destruct (List.find awtc (rev messages)) as [lam|] eqn:Hfind;
    [|reflexivity].
  apply find_some in Hfind as [Hin Hlam]. apply in_rev in Hin.
  assert (Ht : truthy lam = true).
  { destruct (regular_role_has_role lam) as [r Hr].
    - exact (proj1 (List.Forall_forall _ _) Hreg lam Hin).
    - unfold truthy. rewrite Hr. reflexivity. }
  rewrite Ht. destruct (index_In _ _ Hin) as (i & Hi & _). rewrite Hi.
  rewrite tool_role_messages_regular
    by (apply List.Forall_forall; intros m Hm%In_drop;
        exact (proj1 (List.Forall_forall _ _) Hreg m Hm)).
  destruct (length (default [] (tool_calls lam)) =? _)%nat; [reflexivity|].
  cbn [negb]. unfold write_file.
  destruct (forallb json_value _); reflexivity.
Qed.

(** ** What can be encoded *)

Lemma json_value_failed tc : json_value (failed_tool_result tc) = true.
Proof. reflexivity. Qed.

Lemma repaired_json_value stored messages :
  forallb json_value stored = true ->
  repaired stored = Some messages ->
  forallb json_value messages = true.
Proof.
  intros Hs Hr. apply forallb_forall. intros m Hin.
  destruct (repaired_In _ _ _ Hr Hin) as [H|[tc ->]].
  - exact (proj1 (forallb_forall _ _) Hs m H).
  - apply json_value_failed.
Qed.

Lemma json_value_added f message_data images m :
  attach_images (convert_tool_results f message_data) images = Ok m ->
  json_value m = true.
Proof.
  destruct message_data as [r [[s|ps|res|]|] tcs tci n];
    unfold attach_images, convert_tool_results, json_value;
    destruct images as [|img images]; cbn; intros [= <-]; reflexivity.
Qed.

Lemma forallb_snoc {A} (P : A -> bool) l x :
  forallb P (l ++ [x])%list = forallb P l && P x.
Proof. rewrite forallb_app. cbn [forallb]. rewrite andb_true_r. reflexivity. Qed.


(** ** Which files an operation writes *)

Lemma writes_ret {A} paths (a : A) : writes_at_most paths (ret a).
Proof. intros d p _. reflexivity. Qed.

Lemma writes_raise {A} paths e : writes_at_most paths (@raise directory A e).
Proof. intros d p _. reflexivity. Qed.

Lemma writes_lift {A} paths (r : res A) : writes_at_most paths (lift r).
Proof. intros d p _. reflexivity. Qed.

Lemma writes_read_file paths path : writes_at_most paths (read_file path).
Proof.
  intros d p _. unfold read_file. destruct (d !! path) as [[|]|]; reflexivity.
Qed.

Lemma writes_write_file paths path msgs :
  In path paths -> writes_at_most paths (write_file path msgs).
Proof.
  intros Hin d p Hp. unfold write_file.
  destruct (forallb json_value msgs); cbn [snd];
    apply lookup_insert_ne; intros ->; exact (Hp Hin).
Qed.

Lemma writes_bind {A B} paths (m : D A) (k : A -> D B) :
  writes_at_most paths m -> (forall a, writes_at_most paths (k a)) ->
  writes_at_most paths (bind m k).
Proof.
  intros Hm Hk d p Hp. unfold bind. specialize (Hm d p Hp).
  destruct (m d) as [[a|e] d1]; cbn [snd] in *; [|exact Hm].
  rewrite (Hk a d1 p Hp). exact Hm.
Qed.

Lemma writes_try_except {A} paths (m : D A) (h : exn -> D A) :
  writes_at_most paths m -> (forall e, writes_at_most paths (h e)) ->
  writes_at_most paths (try_except m h).
Proof.
  intros Hm Hh d p Hp. unfold try_except. specialize (Hm d p Hp).
  destruct (m d) as [[a|e] d1]; cbn [snd] in *; [exact Hm|].
  rewrite (Hh e d1 p Hp). exact Hm.
Qed.

Lemma writes_or_if_missing {A} paths (m fallback : D A) :
  writes_at_most paths m -> writes_at_most paths fallback ->
  writes_at_most paths (or_if_missing m fallback).
Proof.
  intros Hm Hf. apply writes_try_except; [exact Hm|].
  intros []; try apply writes_raise. exact Hf.
Qed.

Lemma writes_more {A} paths paths' (m : D A) :
  (forall p, In p paths -> In p paths') ->
  writes_at_most paths m -> writes_at_most paths' m.
Proof. intros Hsub Hm d p Hp. apply Hm. intros H. exact (Hp (Hsub p H)). Qed.

Lemma writes_list_messages paths thread_id h l r :
  writes_at_most paths (list_messages thread_id h l r).
Proof.
  unfold list_messages. apply writes_or_if_missing; [|apply writes_ret].
  apply writes_bind; [apply writes_read_file|]. intros msgs.
  destruct l; apply writes_ret.
Qed.

Lemma writes_cleanup thread_id :
  writes_at_most [thread_path thread_id]
    (cleanup_incomplete_tool_calls thread_id).
Proof.
  unfold cleanup_incomplete_tool_calls.
  apply writes_bind; [apply writes_list_messages|]. intros messages.
  apply writes_bind; [apply writes_lift|]. intros [lam|]; [|apply writes_ret].
  destruct (truthy lam); [|apply writes_ret].
  apply writes_bind; [apply writes_lift|]. intros i.
  apply writes_bind; [apply writes_lift|]. intros tool_responses.
  destruct (negb _); [|apply writes_ret].
  apply writes_bind; [apply writes_lift|]. intros assistant_index.
  apply writes_bind; [|intros; apply writes_ret].
  apply writes_write_file. left. reflexivity.
Qed.

Lemma writes_add_message f thread_id message_data images :
  writes_at_most [thread_path thread_id; history_path thread_id]
    (add_message f thread_id message_data images).
Proof.
  unfold add_message.
  apply writes_try_except; [|intros; apply writes_raise].
  apply writes_bind; [apply writes_read_file|]. intros messages.
  apply writes_bind; [apply writes_lift|]. intros r.
  apply writes_bind.
  { destruct (String.eqb r "user"); [|apply writes_ret].
    apply writes_bind; [apply writes_lift|]. intros [i|]; [|apply writes_ret].
    apply writes_bind; [apply writes_lift|]. intros n.
    apply writes_bind; [apply writes_lift|]. intros k.
    destruct (negb _); [|apply writes_ret].
    apply writes_bind; [|intros; apply writes_ret].
    apply (writes_more [thread_path thread_id]); [|apply writes_cleanup].
    intros p [<-|[]]. left. reflexivity. }
  intros _. apply writes_bind; [apply writes_lift|]. intros m.
  apply writes_bind; [apply writes_write_file; left; reflexivity|]. intros _.
  apply writes_bind.
  { apply writes_or_if_missing; [apply writes_read_file|apply writes_ret]. }
  intros history. apply writes_write_file. right. left. reflexivity.
Qed.

Lemma writes_create_thread uuid :
  writes_at_most [thread_path uuid; history_path uuid] (create_thread uuid).
Proof.
  unfold create_thread.
  apply writes_bind; [apply writes_write_file; left; reflexivity|]. intros _.
  apply writes_bind; [|intros; apply writes_ret].
  apply writes_write_file. right. left. reflexivity.
Qed.

Lemma writes_reset_messages thread_id :
  writes_at_most [thread_path thread_id] (reset_messages thread_id).
Proof.
  unfold reset_messages. apply writes_try_except; [|intros; apply writes_raise].
  apply writes_write_file. left. reflexivity.
Qed.

Lemma writes_exec_op f o d path :
  path <> thread_path (op_thread o) -> path <> history_path (op_thread o) ->
  exec_op f o d !! path = d !! path.
Proof.
  intros Ht Hh.
  assert (Hp : ~ In path [thread_path (op_thread o);
                          history_path (op_thread o)]).
  { intros [H|[H|[]]]; congruence. }
  assert (Hp1 : ~ In path [thread_path (op_thread o)]).
  { intros [H|[]]; congruence. }
  destruct o as [uuid|thread_id md imgs|thread_id|thread_id];
    cbn [exec_op op_thread] in *.
  - exact (writes_create_thread uuid d path Hp).
  - exact (writes_add_message f thread_id md imgs d path Hp).
  - exact (writes_cleanup thread_id d path Hp1).
  - exact (writes_reset_messages thread_id d path Hp1).
Qed.


(** ** The threads of a directory *)

(** X10.  An operation on a thread name leaves the two logs of every other
    thread name as they were, whether it returns or raises: it writes at
    most the two files of its own id, and those are the files of no other
    thread name. *)
Theorem exec_op_other_threads (f : Tool.ToolResult -> string) (o : op)
    (d : directory) (other : string) :
  thread_name (op_thread o) = true -> thread_name other = true ->
  op_thread o <> other ->
  active_log (exec_op f o d) other = active_log d other
  /\ history_log (exec_op f o d) other = history_log d other.
Proof.
  intros Ho Hother Hne. unfold active_log, history_log. split.
  - f_equal. apply writes_exec_op.
    + intros H%thread_path_inj. congruence.
    + apply thread_path_not_history. exact Hother.
  - f_equal. apply writes_exec_op.
    + intros H. exact (thread_path_not_history _ _ Ho (eq_sym H)).
    + intros H%history_path_inj. congruence.
Qed.

Lemma exec_op_other_threads_witness :
  active_log (exec_op Sample.plain_str (OpReset "t")
                (<[thread_path "u" := Json [Sample.user_says "b"]]>
                   (one_thread [Sample.user_says "a"] [Sample.user_says "a"])))
             "u"
  = active_log (<[thread_path "u" := Json [Sample.user_says "b"]]>
                  (one_thread [Sample.user_says "a"] [Sample.user_says "a"]))
               "u"
  /\ history_log (exec_op Sample.plain_str (OpReset "t")
                    (<[thread_path "u" := Json [Sample.user_says "b"]]>
                       (one_thread [Sample.user_says "a"]
                                   [Sample.user_says "a"])))
                 "u"
     = history_log (<[thread_path "u" := Json [Sample.user_says "b"]]>
                      (one_thread [Sample.user_says "a"]
                                  [Sample.user_says "a"]))
                   "u".
Proof.
  apply (exec_op_other_threads Sample.plain_str (OpReset "t")
           (<[thread_path "u" := Json [Sample.user_says "b"]]>
              (one_thread [Sample.user_says "a"] [Sample.user_says "a"]))
           "u"); [reflexivity|reflexivity|discriminate].
Defined.

(** Why the ids have to be thread names: the id [t_history] names the
    history file of [t] as its thread file, and [reset_messages] on it
    empties the history of [t]. *)
Example reset_of_history_name_empties_history :
  let d := one_thread [Sample.user_says "a"] [Sample.user_says "a"] in
  thread_name "t_history" = false
  /\ history_log d "t" = [Sample.user_says "a"]
  /\ history_log (snd (reset_messages "t_history" d)) "t" = [].
Proof. vm_compute. repeat split. Qed.

(** ** The repair and the reset, file by file *)

(** X6.  The repair of a thread name writes no file but the thread file of
    its id: the history of the thread and every other file are as before,
    whatever it returns or raises.  On a missing thread it returns [False]
    and makes no file; when it returns [False] the directory is as it was;
    when it returns [True] the thread file holds the repaired list, all of
    whose messages have one of the four regular roles; when it raises, the
    directory is as it was or the thread file was cut short by the
    [json.dump] that raised. *)
Theorem cleanup_writes_thread_file_only (thread_id : string) (d : directory) :
  thread_name thread_id = true ->
  let out := cleanup_incomplete_tool_calls thread_id d in
  (forall path, path <> thread_path thread_id -> snd out !! path = d !! path)
  /\ history_log (snd out) thread_id = history_log d thread_id
  /\ (d !! thread_path thread_id = None -> out = (Ok false, d))
  /\ match fst out with
     | Ok false => snd out = d
     | Ok true =>
         exists messages,
           repaired (active_log d thread_id) = Some messages
           /\ snd out !! thread_path thread_id = Some (Json messages)
           /\ forall m, In m messages -> regular_role m = true
     | Raise e =>
         snd out = d \/ snd out !! thread_path thread_id = Some Broken
     end.
Proof.
  intros _ out.
  assert (Hframe : forall path, path <> thread_path thread_id ->
                                snd out !! path = d !! path).
  { intros path Hp. apply writes_cleanup. intros [H|[]]. congruence. }
  split; [exact Hframe|]. split.
  { unfold history_log. f_equal. apply Hframe. intros H.
    exact (thread_path_not_own_history thread_id (eq_sym H)). }
  subst out. rewrite cleanup_file. unfold active_log.
  destruct (d !! thread_path thread_id) as [[stored|]|] eqn:Hf; cbn [log_of].
  2:{ split; [discriminate|]. left. reflexivity. }
  2:{ split; [reflexivity|]. reflexivity. }
  split; [discriminate|].
  destruct (repaired stored) as [messages|] eqn:Hr; [|reflexivity].
  destruct (forallb json_value messages); cbn [fst snd].
  - exists messages. split; [reflexivity|]. split; [apply lookup_insert_eq|].
    intros m Hin.
    apply repaired_shape in Hr as (p & lam & q & Hsplit & _ & _ & _ & ->).
    assert (Hreg : forall x, In x (p ++ lam :: q)%list -> regular_role x = true).
    { rewrite <- Hsplit. intros x Hx%filter_In. tauto. }
    apply in_app_or in Hin as [H|[<-|H]].
    + apply Hreg, in_or_app. left. exact H.
    + apply Hreg, in_or_app. right. left. reflexivity.
    + apply in_app_or in H as [H|H].
      * apply in_map_iff in H as (c & <- & _). reflexivity.
      * apply Hreg, in_or_app. right. right. exact H.
  - right. apply lookup_insert_eq.
Qed.

Lemma cleanup_writes_thread_file_only_witness :
  let d := one_thread [Sample.note "n";
                       Sample.assistant_calling [Sample.call "c1" "f"]]
                      [Sample.assistant_calling [Sample.call "c1" "f"]] in
  let out := cleanup_incomplete_tool_calls "t" d in
  fst out = Ok true
  /\ active_log (snd out) "t"
     = [Sample.assistant_calling [Sample.call "c1" "f"];
        failed_tool_result (Sample.call "c1" "f")]
  /\ history_log (snd out) "t" = history_log d "t".
Proof.
  intros d out.
  pose proof (cleanup_writes_thread_file_only "t" d eq_refl) as (_ & Hh & _).
  split; [vm_compute; reflexivity|].
  split; [vm_compute; reflexivity|exact Hh].
Defined.

(** X11.  [reset_messages] on a thread name returns without raising, also
    for a thread that does not exist, whose thread file it makes: afterwards
    the thread file holds the empty list and the thread lists as empty under
    every combination of flags; no other file is touched, so the history of
    the thread is as it was. *)
Theorem reset_messages_clears (thread_id : string) (d : directory) :
  thread_name thread_id = true ->
  exists d',
    reset_messages thread_id d = (Ok tt, d')
    /\ d' !! thread_path thread_id = Some (Json [])
    /\ (forall path, path <> thread_path thread_id -> d' !! path = d !! path)
    /\ history_log d' thread_id = history_log d thread_id
    /\ forall h l r, list_messages thread_id h l r d' = (Ok [], d').
Proof.
  intros _. exists (<[thread_path thread_id := Json []]> d).
  split; [reflexivity|].
  split; [apply lookup_insert_eq|]. split; [|split].
  - intros path Hp. apply lookup_insert_ne. congruence.
  - unfold history_log. rewrite lookup_insert_ne; [reflexivity|].
    apply thread_path_not_own_history.
  - intros h l r. rewrite list_messages_file, lookup_insert_eq.
    destruct l, h, r; reflexivity.
Qed.

Lemma reset_messages_clears_witness :
  exists d',
    reset_messages "u" (one_thread [Sample.user_says "a"] [Sample.user_says "a"])
    = (Ok tt, d')
    /\ d' !! thread_path "u" = Some (Json [])
    /\ (forall path, path <> thread_path "u" ->
          d' !! path
          = one_thread [Sample.user_says "a"] [Sample.user_says "a"] !! path)
    /\ history_log d' "u"
       = history_log (one_thread [Sample.user_says "a"] [Sample.user_says "a"])
                     "u"
    /\ forall h l r, list_messages "u" h l r d' = (Ok [], d').
Proof.
  apply (reset_messages_clears "u"
           (one_thread [Sample.user_says "a"] [Sample.user_says "a"])).
  reflexivity.
Defined.


(** ** Modifying and removing by index *)

Lemma forallb_insert {A} (P : A -> bool) l i x :
  (i < length l)%nat -> forallb P l = true ->
  forallb P (<[i := x]> l) = P x.
Proof.
  revert i. induction l as [|y l IH]; intros i Hi Hl; [simpl in Hi; lia|].
  cbn [forallb] in Hl. apply andb_true_iff in Hl as [Hy Hl].
  destruct i as [|i]; cbn [list_insert insert forallb].
  - change (<[0%nat := x]> (y :: l)) with (x :: l). cbn [forallb].
    rewrite Hl. apply andb_true_r.
  - change (<[S i := x]> (y :: l)) with (y :: <[i := x]> l). cbn [forallb].
    rewrite Hy. apply IH; [simpl in Hi; lia|exact Hl].
Qed.

Lemma forallb_delete {A} (P : A -> bool) l i :
  forallb P l = true -> forallb P (delete i l) = true.
Proof.
  revert i. induction l as [|y l IH]; intros i Hl; [destruct i; reflexivity|].
  cbn [forallb] in Hl. apply andb_true_iff in Hl as [Hy Hl].
  destruct i as [|i].
  - exact Hl.
  - change (delete (S i) (y :: l)) with (y :: delete i l). cbn [forallb].
    rewrite Hy. exact (IH i Hl).
Qed.

(** C7, as the code has it.  On a missing thread file, and on one that holds
    no document, [modify_message] and [remove_message] raise and leave the
    directory alone.  On a stored log and an index within [0 <= i < len],
    [remove_message] returns with the thread file holding the log without
    the message, and [modify_message] returns with the thread file holding
    the log with the message replaced when the new message can be encoded;
    when the new message holds a [ToolResult], it raises the [TypeError] of
    [json.dump] after the file was opened for writing, and the thread file is
    left without a document: the log is lost.  On any other index both log an
    error, change nothing and return normally. *)
Theorem modify_remove_by_index (d : directory) (thread_id : string)
    (message_index : Z) (new_message : message) :
  let path := thread_path thread_id in
  let modified := modify_message thread_id message_index new_message d in
  let removed := remove_message thread_id message_index d in
  match d !! path with
  | None =>
      modified = (Raise (FileNotFoundError path), d)
      /\ removed = (Raise (FileNotFoundError path), d)
  | Some Broken =>
      modified = (Raise json_decode_error, d)
      /\ removed = (Raise json_decode_error, d)
  | Some (Json msgs) =>
      forallb json_value msgs = true ->
      let i := Z.to_nat message_index in
      if in_range message_index msgs then
        (if json_value new_message then
           fst modified = Ok tt
           /\ snd modified !! path = Some (Json (<[i := new_message]> msgs))
           /\ <[i := new_message]> msgs !! i = Some new_message
         else
           fst modified = Raise not_serializable
           /\ snd modified !! path = Some Broken)
        /\ fst removed = Ok tt
        /\ snd removed !! path = Some (Json (delete i msgs))
        /\ S (length (delete i msgs)) = length msgs
      else
        modified = (Ok tt, d) /\ removed = (Ok tt, d)
  end.
Proof.
  intros path modified removed. subst path modified removed.
  unfold modify_message, remove_message, try_except, bind, read_file, raise.
  destruct (d !! thread_path thread_id) as [[msgs|]|] eqn:E;
    [|split; reflexivity|split; reflexivity].
  intros Hjson. set (i := Z.to_nat message_index).
  destruct (in_range message_index msgs) eqn:R; [|split; reflexivity].
  unfold in_range in R. apply andb_true_iff in R as [R1 R2].
  apply Z.leb_le in R1. apply Z.ltb_lt in R2.
  assert (Hi : (i < length msgs)%nat) by (subst i; lia).
  unfold write_file.
  rewrite (forallb_insert _ _ _ _ Hi Hjson), (forallb_delete _ _ i Hjson).
  cbn [fst snd]. split; [|split; [|split]].
  - destruct (json_value new_message); cbn [fst snd].
    + split; [reflexivity|]. split; [apply lookup_insert_eq|].
      apply list_lookup_insert_eq. exact Hi.
    + split; [reflexivity|apply lookup_insert_eq].
  - reflexivity.
  - apply lookup_insert_eq.
  - rewrite length_delete; [lia|]. apply lookup_lt_is_Some. exact Hi.
Qed.

(** C7 as stated fails: on a log of one message, [modify_message] and
    [remove_message] at index 1 return normally and the log is what it was. *)
Lemma modify_remove_out_of_range_return_normally :
  let m := Sample.user_says "edited" in
  let d := one_thread [Sample.user_says "first"] [] in
  modify_message "t" 1 m d = (Ok tt, d)
  /\ active_log d "t" !! 1%nat <> Some m
  /\ remove_message "t" 1 d = (Ok tt, d)
  /\ length (active_log d "t") = 1%nat.
Proof.
  intros m d. split; [|split; [|split]].
  - vm_compute. reflexivity.
  - vm_compute. discriminate.
  - vm_compute. reflexivity.
  - reflexivity.
Qed.

(** The loss, evaluated: a [ToolResult] put at index 0 makes
    [modify_message] raise, and the thread can no longer be read. *)
Example modify_message_tool_result_loses_log :
  let m := {| role := Some "tool";
              content := Some (CResult (Tool.success_response "done"));
              tool_calls := None; tool_call_id := None; name := None |} in
  let d := one_thread [Sample.user_says "first"] [] in
  let out := modify_message "t" 0 m d in
  fst out = Raise not_serializable
  /\ snd out !! thread_path "t" = Some Broken
  /\ fst (list_messages "t" false false true (snd out))
     = Raise json_decode_error.
Proof. vm_compute. repeat split. Qed.


(** ** The two logs along a run *)

Lemma active_log_insert_thread (d : directory) a f tid :
  active_log (<[thread_path a := f]> d) tid
  = if decide (a = tid) then log_of (Some f) else active_log d tid.
Proof.
  unfold active_log. destruct (decide (a = tid)) as [->|Hne].
  - rewrite lookup_insert_eq. reflexivity.
  - rewrite lookup_insert_ne; [reflexivity|].
    intros H%thread_path_inj. congruence.
Qed.

Lemma active_log_insert_history (d : directory) a f tid :
  thread_name tid = true ->
  active_log (<[history_path a := f]> d) tid = active_log d tid.
Proof.
  intros Ht. unfold active_log. rewrite lookup_insert_ne; [reflexivity|].
  intros H. exact (thread_path_not_history _ _ Ht (eq_sym H)).
Qed.

Lemma history_log_insert_history (d : directory) a f tid :
  history_log (<[history_path a := f]> d) tid
  = if decide (a = tid) then log_of (Some f) else history_log d tid.
Proof.
  unfold history_log. destruct (decide (a = tid)) as [->|Hne].
  - rewrite lookup_insert_eq. reflexivity.
  - rewrite lookup_insert_ne; [reflexivity|].
    intros H%history_path_inj. congruence.
Qed.

Lemma history_log_insert_thread (d : directory) a f tid :
  thread_name a = true ->
  history_log (<[thread_path a := f]> d) tid = history_log d tid.
Proof.
  intros Ha. unfold history_log. rewrite lookup_insert_ne; [reflexivity|].
  apply thread_path_not_history. exact Ha.
Qed.

Lemma documents_insert (d : directory) path msgs :
  documents d -> forallb json_value msgs = true ->
  documents (<[path := Json msgs]> d).
Proof.
  intros Hd Hm p f. destruct (decide (path = p)) as [->|Hne].
  - rewrite lookup_insert_eq. intros [= <-]. eauto.
  - rewrite lookup_insert_ne by exact Hne. apply Hd.
Qed.

Lemma documents_log (d : directory) path :
  documents d -> forallb json_value (log_of (d !! path)) = true.
Proof.
  intros Hd. destruct (d !! path) as [f|] eqn:E; [|reflexivity].
  destruct (Hd _ _ E) as (msgs & -> & Hm). exact Hm.
Qed.

Lemma documents_not_broken (d : directory) path :
  documents d -> d !! path <> Some Broken.
Proof. intros Hd E. destruct (Hd _ _ E) as (msgs & H & _). discriminate. Qed.

(** Among documents the repair returns, and writes a document. *)
Lemma cleanup_documents thread_id (d : directory) :
  documents d ->
  cleanup_incomplete_tool_calls thread_id d
  = match repaired (active_log d thread_id) with
    | Some messages =>
        (Ok true, <[thread_path thread_id := Json messages]> d)
    | None => (Ok false, d)
    end
  /\ documents (snd (cleanup_incomplete_tool_calls thread_id d)).
Proof.
  intros Hd.
  assert (E : cleanup_incomplete_tool_calls thread_id d
              = match repaired (active_log d thread_id) with
                | Some messages =>
                    (Ok true, <[thread_path thread_id := Json messages]> d)
                | None => (Ok false, d)
                end).
  { rewrite cleanup_file.
    pose proof (documents_not_broken d (thread_path thread_id) Hd) as Hnb.
    pose proof (documents_log d (thread_path thread_id) Hd) as Hj.
    fold (active_log d thread_id) in Hj.
    destruct (repaired (active_log d thread_id)) as [messages|] eqn:Hr.
    - rewrite (repaired_json_value _ _ Hj Hr).
      destruct (d !! thread_path thread_id) as [[|]|]; congruence.
    - destruct (d !! thread_path thread_id) as [[|]|]; congruence. }
  split; [exact E|]. rewrite E.
  destruct (repaired (active_log d thread_id)) as [messages|] eqn:Hr;
    [|exact Hd].
  apply documents_insert; [exact Hd|].
  apply (repaired_json_value (active_log d thread_id)); [|exact Hr].
  apply documents_log. exact Hd.
Qed.

(** What [add_message] leaves among documents: the directory as it was (it
    raised before writing), the directory after the repair (it raised after
    the repair), or the two logs each extended with the message, the active
    one from the list read at the start of the call. *)
Lemma add_message_documents f thread_id message_data images (d : directory) :
  documents d ->
  let out := add_message f thread_id message_data images d in
  (exists e, out = (Raise e, d))
  \/ (exists e,
        out = (Raise e, snd (cleanup_incomplete_tool_calls thread_id d)))
  \/ (exists msgs m,
        d !! thread_path thread_id = Some (Json msgs)
        /\ attach_images (convert_tool_results f message_data) images = Ok m
        /\ out = (Ok tt,
                  <[history_path thread_id :=
                      Json (history_log d thread_id ++ [m])%list]>
                    (<[thread_path thread_id := Json (msgs ++ [m])%list]> d))).
Proof.
  intros Hd out. subst out.
  unfold add_message, try_except, bind, read_file, lift, raise.
  destruct (d !! thread_path thread_id) as [[msgs|]|] eqn:Hth;
    [|left; eauto|left; eauto].
  destruct (Hd _ _ Hth) as (msgs' & [= <-] & Hmsgs).
  destruct (subscript_role message_data) as [r|e]; [|left; eauto].
  set (tail := fun d0 : directory =>
    match
      match attach_images (convert_tool_results f message_data) images with
      | Ok a =>
          match write_file (thread_path thread_id) (msgs ++ [a])%list d0 with
          | (Ok _, s') =>
              match
                or_if_missing (read_file (history_path thread_id)) (ret []) s'
              with
              | (Ok a0, s'0) =>
                  write_file (history_path thread_id) (a0 ++ [a])%list s'0
              | (Raise e, s'0) => (Raise e, s'0)
              end
          | (Raise e, s') => (Raise e, s')
          end
      | Raise e => (Raise e, d0)
      end
    with
    | (Ok a, s') => (Ok a, s')
    | (Raise e, s') => (Raise e, s')
    end).
  assert (Hrest : forall d0 : directory,
    (d0 = d \/ d0 = snd (cleanup_incomplete_tool_calls thread_id d)) ->
    (exists e, tail d0 = (Raise e, d))
    \/ (exists e,
          tail d0 = (Raise e, snd (cleanup_incomplete_tool_calls thread_id d)))
    \/ (exists msgs0 m,
          Some (Json msgs) = Some (Json msgs0)
          /\ attach_images (convert_tool_results f message_data) images = Ok m
          /\ tail d0
             = (Ok tt,
                <[history_path thread_id :=
                    Json (history_log d thread_id ++ [m])%list]>
                  (<[thread_path thread_id := Json (msgs0 ++ [m])%list]> d)))).
  { intros d0 Hd0. subst tail. cbv beta.
    destruct (attach_images _ images) as [m|e] eqn:Hat.
    2:{ destruct Hd0 as [->| ->]; [left|right; left]; eauto. }
    right. right. exists msgs, m. split; [reflexivity|].
    split; [reflexivity|].
    assert (Hm : json_value m = true) by exact (json_value_added _ _ _ _ Hat).
    assert (Hw : <[thread_path thread_id := Json (msgs ++ [m])%list]> d0
                 = <[thread_path thread_id := Json (msgs ++ [m])%list]> d).
    { destruct Hd0 as [->| ->]; [reflexivity|].
      rewrite (proj1 (cleanup_documents thread_id d Hd)).
      destruct (repaired _); [|reflexivity]. cbn [snd].
      apply insert_insert_eq. }
    unfold write_file at 1. rewrite forallb_snoc, Hmsgs, Hm. cbn [andb].
    rewrite Hw.
    assert (Hh : (<[thread_path thread_id := Json (msgs ++ [m])%list]> d)
                   !! history_path thread_id
                 = d !! history_path thread_id).
    { apply lookup_insert_ne. apply thread_path_not_own_history. }
    unfold or_if_missing, try_except, read_file, ret. rewrite Hh.
    pose proof (documents_log d (history_path thread_id) Hd) as Hj.
    pose proof (documents_not_broken d (history_path thread_id) Hd) as Hnb.
    unfold history_log.
    destruct (d !! history_path thread_id) as [[hist|]|]; [|congruence|];
      cbn [log_of] in *; unfold write_file;
      rewrite forallb_snoc, ?Hj, Hm; reflexivity. }
  fold tail.
  destruct (String.eqb r "user"); [|apply Hrest; left; reflexivity].
  destruct (next_assistant_index (rev msgs)) as [[i|]|e];
    [| apply Hrest; left; reflexivity | left; eauto].
  destruct (tool_call_count_at msgs i) as [n|e]; [|left; eauto].
  destruct (tool_response_count (drop (S i) msgs)) as [k|e]; [|left; eauto].
  destruct (negb (n =? k)%nat); [|apply Hrest; left; reflexivity].
  destruct (cleanup_incomplete_tool_calls thread_id d) as [[b|e] d1] eqn:Hc.
  - cbn [snd] in Hrest. apply Hrest. right. reflexivity.
  - right. left. exists e. reflexivity.
Qed.


Lemma covered_cleanup thread_id (d : directory) :
  thread_name thread_id = true -> documents d -> covered d ->
  covered (snd (cleanup_incomplete_tool_calls thread_id d)).
Proof.
  intros Hn Hd Hc. rewrite (proj1 (cleanup_documents thread_id d Hd)).
  destruct (repaired (active_log d thread_id)) as [messages|] eqn:Hr;
    [|exact Hc].
  intros tid m Ht. cbn [snd].
  rewrite active_log_insert_thread, history_log_insert_thread by exact Hn.
  destruct (decide (thread_id = tid)) as [<-|_]; [|apply Hc; exact Ht].
  cbn [log_of]. intros Hin.
  destruct (repaired_In _ _ _ Hr Hin) as [H|H];
    [apply (Hc thread_id m Ht H) | right; exact H].
Qed.

Section RunsFacts.
Variable f : Tool.ToolResult -> string.

Lemma documents_exec_op o (d : directory) :
  documents d -> documents (exec_op f o d).
Proof.
  intros Hd. destruct o as [uuid|thread_id md imgs|thread_id|thread_id];
    cbn [exec_op].
  - apply documents_insert; [|reflexivity].
    apply documents_insert; [exact Hd|reflexivity].
  - destruct (add_message_documents f thread_id md imgs d Hd)
      as [[e ->]|[[e ->]|(msgs & m & Hth & Hat & ->)]]; cbn [snd].
    + exact Hd.
    + apply cleanup_documents. exact Hd.
    + pose proof (json_value_added _ _ _ _ Hat) as Hm.
      apply documents_insert; [apply documents_insert; [exact Hd|]|].
      * rewrite forallb_snoc, Hm, andb_true_r.
        destruct (Hd _ _ Hth) as (msgs' & [= <-] & H). exact H.
      * rewrite forallb_snoc, Hm, andb_true_r. apply documents_log. exact Hd.
  - apply cleanup_documents. exact Hd.
  - apply documents_insert; [exact Hd|reflexivity].
Qed.

Lemma covered_exec_op o (d : directory) :
  thread_name (op_thread o) = true -> documents d -> covered d ->
  covered (exec_op f o d).
Proof.
  intros Hn Hd Hc.
  destruct o as [uuid|thread_id md imgs|thread_id|thread_id];
    cbn [exec_op op_thread] in *.
  - intros tid m Ht. unfold create_thread, bind, write_file, ret.
    cbn [forallb snd].
    rewrite active_log_insert_history by exact Ht.
    rewrite active_log_insert_thread.
    destruct (decide (uuid = tid)) as [<-|Hne]; [intros []|].
    rewrite history_log_insert_history.
    destruct (decide (uuid = tid)); [congruence|].
    rewrite history_log_insert_thread by exact Hn. apply Hc. exact Ht.
  - destruct (add_message_documents f thread_id md imgs d Hd)
      as [[e ->]|[[e ->]|(msgs & m & Hth & Hat & ->)]]; cbn [snd].
    + exact Hc.
    + apply covered_cleanup; assumption.
    + intros tid m0 Ht.
      rewrite active_log_insert_history by exact Ht.
      rewrite active_log_insert_thread, history_log_insert_history.
      rewrite history_log_insert_thread by exact Hn.
      destruct (decide (thread_id = tid)) as [<-|_]; [|apply Hc; exact Ht].
      cbn [log_of]. intros [Hin|Hin]%in_app_or.
      * destruct (Hc thread_id m0 Ht) as [H|H].
        { unfold active_log. rewrite Hth. exact Hin. }
        { left. apply in_or_app. left. exact H. }
        { right. exact H. }
      * left. apply in_or_app. right. exact Hin.
  - apply covered_cleanup; assumption.
  - intros tid m Ht. unfold reset_messages, try_except, write_file.
    cbn [forallb snd].
    rewrite active_log_insert_thread, history_log_insert_thread by exact Hn.
    destruct (decide (thread_id = tid)); [intros []|apply Hc; exact Ht].
Qed.

Lemma history_prefix_exec_op o (d : directory) tid :
  documents d -> valid_op d o ->
  history_log d tid `prefix_of` history_log (exec_op f o d) tid.
Proof.
  intros Hd [Hn Hv].
  destruct o as [uuid|thread_id md imgs|thread_id|thread_id];
    cbn [exec_op op_thread] in *.
  - unfold create_thread, bind, write_file, ret. cbn [forallb snd].
    rewrite history_log_insert_history.
    destruct (decide (uuid = tid)) as [<-|_].
    + destruct Hv as [_ Hh]. unfold history_log. rewrite Hh.
      apply prefix_nil.
    + rewrite history_log_insert_thread by exact Hn. reflexivity.
  - destruct (add_message_documents f thread_id md imgs d Hd)
      as [[e ->]|[[e ->]|(msgs & m & Hth & Hat & ->)]]; cbn [snd].
    + reflexivity.
    + rewrite (proj1 (cleanup_documents thread_id d Hd)).
      destruct (repaired _); [|reflexivity]. cbn [snd].
      rewrite history_log_insert_thread by exact Hn. reflexivity.
    + rewrite history_log_insert_history.
      rewrite history_log_insert_thread by exact Hn.
      destruct (decide (thread_id = tid)) as [<-|_]; [|reflexivity].
      cbn [log_of]. apply prefix_app_r. reflexivity.
  - rewrite (proj1 (cleanup_documents thread_id d Hd)).
    destruct (repaired _); [|reflexivity]. cbn [snd].
    rewrite history_log_insert_thread by exact Hn. reflexivity.
  - unfold reset_messages, try_except, write_file. cbn [forallb snd].
    rewrite history_log_insert_thread by exact Hn. reflexivity.
Qed.

Lemma reachable_documents (d : directory) :
  reachable f d -> documents d /\ covered d.
Proof.
  induction 1 as [|d o _ [IHd IHc] [Hn _]].
  - split.
    + intros path file. unfold empty_directory. rewrite lookup_empty.
      discriminate.
    + intros tid m _. unfold active_log, empty_directory.
      rewrite lookup_empty. intros [].
  - split; [apply documents_exec_op; exact IHd|].
    apply covered_exec_op; assumption.
Qed.

End RunsFacts.

(** C2, as the code has it.  Take the runs from the empty directory made of
    create-thread, add-message, repair and reset operations on thread names
    (ids of letters, digits and dashes, as the uuids of [create_thread] are;
    the id [x_history] would name the history file of [x] as its thread
    file).  In every directory so reached, every message of the active log
    of a thread name is in the history log of the thread or is a failure
    message the repair synthesized (the repair writes the active log only);
    and no such operation truncates the history log of a thread name: the
    history before the operation is a prefix of the history after it. *)
Theorem history_covers_active_log (f : Tool.ToolResult -> string)
    (d : directory) :
  reachable f d ->
  (forall tid m, thread_name tid = true -> In m (active_log d tid) ->
                 In m (history_log d tid) \/ interrupted m)
  /\ (forall o tid, valid_op d o -> thread_name tid = true ->
        history_log d tid `prefix_of` history_log (exec_op f o d) tid).
Proof.
  intros Hr. destruct (reachable_documents f d Hr) as [Hd Hc]. split.
  - exact Hc.
  - intros o tid Hv _. apply history_prefix_exec_op; assumption.
Qed.

Lemma bad_run_reachable f : reachable f (bad_run f).
Proof.
  unfold bad_run.
  apply reachable_step; [|split; [reflexivity|exact I]].
  apply reachable_step; [|split; [reflexivity|exact I]].
  apply reachable_step; [apply reachable_empty|].
  split; [reflexivity|]. split; reflexivity.
Qed.

(** C2 as stated fails: after create-thread, the append of an assistant
    message with one tool call, and the repair, the active log of the thread
    holds the synthesized failure message and its history log does not. *)
Lemma repair_leaves_active_log_outside_history :
  ~ (forall (f : Tool.ToolResult -> string) (d : directory),
       reachable f d ->
       forall tid m, thread_name tid = true ->
                     In m (active_log d tid) -> In m (history_log d tid)).
Proof.
  intros H.
  specialize (H Sample.plain_str _ (bad_run_reachable Sample.plain_str) "t"
                (failed_tool_result (Sample.call "c1" "f")) eq_refl).
  vm_compute in H.
  destruct H as [H|[]]; [right; left; reflexivity | discriminate H].
Qed.

Lemma history_covers_active_log_witness :
  (forall tid m, thread_name tid = true ->
                 In m (active_log (bad_run Sample.plain_str) tid) ->
                 In m (history_log (bad_run Sample.plain_str) tid)
                 \/ interrupted m)
  /\ (forall o tid, valid_op (bad_run Sample.plain_str) o ->
        thread_name tid = true ->
        history_log (bad_run Sample.plain_str) tid
          `prefix_of`
          history_log (exec_op Sample.plain_str o (bad_run Sample.plain_str))
                      tid).
Proof.
  apply (history_covers_active_log Sample.plain_str
           (bad_run Sample.plain_str)).
  unfold bad_run.
  apply reachable_step; [|split; [reflexivity|exact I]].
  apply reachable_step; [|split; [reflexivity|exact I]].
  apply reachable_step; [apply reachable_empty|].
  split; [reflexivity|]. split; reflexivity.
Defined.

(** Why the runs are over thread names: in a run that resets the id
    [t_history], the history log of [t] is truncated. *)
Example history_name_truncates_history :
  let d := exec_op Sample.plain_str (OpAdd "t" (Sample.user_says "a") [])
             (exec_op Sample.plain_str (OpCreate "t") empty_directory) in
  history_log d "t" = [Sample.user_says "a"]
  /\ history_log (exec_op Sample.plain_str (OpReset "t_history") d) "t" = [].
Proof. vm_compute. split; reflexivity. Qed.

End ThreadFilesFacts.

(** * More properties of the tools *)

Module BashToolResultFacts.
Import Tool PyStr PyStrFacts Subprocess BashTool.

(** X19.  [bash_command] is success-tagged exactly when the subprocess completed
    with return code 0; its result is then the report of the command with
    the stripped standard output, or with ["No output."] when that is
    blank.  A timeout, an exception and every other return code give the
    failure tag. *)
Theorem bash_command_success_iff (container_name : string)
    (subprocess : list string -> outcome) (command : string) :
  let result := bash_command container_name subprocess command in
  match subprocess (docker_exec container_name command) with
  | Completed stdout _ 0 =>
      result
      = Tool.success_response
          ((nl +:+ "Command executed: `" +:+ command +:+ "`" +:+ nl)
           +:+ "<output>"
           +:+ (if truthy (strip stdout) then strip stdout else "No output.")
           +:+ "</output>")
  | _ => success result = false
  end.
Proof.
  intros result. subst result.
  unfold bash_command, execute_command_in_container.
  destruct (subprocess (docker_exec container_name command))
    as [out err rc| |e]; try reflexivity.
  destruct rc; reflexivity.
Qed.

End BashToolResultFacts.

Module PyStrScanFacts.
Import PyStr PyStrFacts.

(** ** Lengths *)

Lemma length_append (a b : string) :
  String.length (a +:+ b) = (String.length a + String.length b)%nat.
Proof.
  induction a as [|c a IH]; [reflexivity|].
  rewrite append_cons. cbn [String.length]. rewrite IH. reflexivity.
Qed.

Lemma length_substring (s : string) :
  forall n m,
    String.length (String.substring n m s)
    = Nat.min m (String.length s - n)%nat.
Proof.
  induction s as [|c s IH]; intros [|n] [|m]; cbn [String.substring String.length];
    rewrite ?IH; lia.
Qed.

Lemma contains_empty (s : string) : contains EmptyString s = true.
Proof. destruct s; reflexivity. Qed.

(** ** Scanning for a tag *)

Lemma prefix_app (p r : string) : String.prefix p (p +:+ r) = true.
Proof.
  induction p as [|a p IH]; [destruct r; reflexivity|].
  rewrite append_cons. cbn [String.prefix].
  destruct (ascii_dec a a); [exact IH|congruence].
Qed.

Lemma contains_cons needle c rest :
  contains needle (String c rest)
  = String.prefix needle (String c rest) || contains needle rest.
Proof. reflexivity. Qed.

Lemma drop_chars_app (p r : string) :
  drop_chars (String.length p) (p +:+ r) = r.
Proof. induction p as [|a p IH]; [reflexivity|exact IH]. Qed.

Lemma lstrip_app (ws : string) c r :
  forallb is_space (list_ascii_of_string ws) = true ->
  is_space c = false ->
  lstrip (ws +:+ String c r) = String c r.
Proof.
  intros Hws Hc. induction ws as [|a ws IH].
  - rewrite append_nil_l. cbn [lstrip]. rewrite Hc. reflexivity.
  - cbn [list_ascii_of_string forallb] in Hws.
    apply andb_true_iff in Hws as [Ha Hws].
    rewrite append_cons. cbn [lstrip]. rewrite Ha. exact (IH Hws).
Qed.

(** A tag whose first character does not come back in it cannot start
    inside the text in front of an occurrence of it, unless it occurs in
    that text. *)
Lemma prefix_straddle a y :
  forall x t,
    String.prefix t (x +:+ String a y) = true ->
    contains (String a EmptyString) t = true \/ String.prefix t x = true.
Proof.
  induction x as [|c x IH]; intros [|a' t] H; try (right; reflexivity).
  - rewrite append_nil_l in H. cbn [String.prefix] in H.
    destruct (ascii_dec a' a) as [->|]; [|discriminate].
    left. rewrite contains_cons. cbn [String.prefix].
    destruct (ascii_dec a a); [destruct t; reflexivity|congruence].
  - rewrite append_cons in H. cbn [String.prefix] in H.
    destruct (ascii_dec a' c) as [->|]; [|discriminate].
    apply IH in H as [H|H].
    + left. rewrite contains_cons, H. apply orb_true_r.
    + right. cbn [String.prefix].
      destruct (ascii_dec c c); [exact H|congruence].
Qed.

Lemma tag_border a t x rest :
  contains (String a EmptyString) t = false ->
  x <> EmptyString ->
  contains (String a t) x = false ->
  String.prefix (String a t) (x +:+ String a t +:+ rest) = false.
Proof.
  intros Ht Hx Hc. destruct x as [|c x]; [congruence|].
  rewrite contains_cons in Hc. apply orb_false_iff in Hc as [Hp _].
  rewrite append_cons. cbn [String.prefix] in *.
  destruct (ascii_dec a c) as [->|]; [|reflexivity].
  destruct (String.prefix t (x +:+ String c t +:+ rest)) eqn:H;
    [|reflexivity].
  rewrite append_cons in H. apply prefix_straddle in H as [H|H]; congruence.
Qed.

Lemma split_at_from_eq needle before s :
  split_at_from needle before s
  = if String.prefix needle s
    then Some (string_of_list_ascii (rev before),
               drop_chars (String.length needle) s)
    else match s with
         | EmptyString => None
         | String c rest => split_at_from needle (c :: before) rest
         end.
Proof. destruct s; reflexivity. Qed.

Lemma split_at_from_finds a t behind :
  contains (String a EmptyString) t = false ->
  forall text before,
    contains (String a t) text = false ->
    split_at_from (String a t) before (text +:+ String a t +:+ behind)
    = Some (string_of_list_ascii (rev before ++ list_ascii_of_string text)%list,
            behind).
Proof.
  intros Ht. induction text as [|c text IH]; intros before Hc.
  - rewrite append_nil_l, split_at_from_eq, prefix_app, drop_chars_app.
    cbn [list_ascii_of_string]. rewrite app_nil_r. reflexivity.
  - rewrite split_at_from_eq, (tag_border a t _ behind Ht) by (congruence || exact Hc).
    rewrite append_cons.
    rewrite contains_cons in Hc. apply orb_false_iff in Hc as [_ Hc].
    rewrite (IH _ Hc). cbn [rev list_ascii_of_string].
    rewrite <- app_assoc. reflexivity.
Qed.

End PyStrScanFacts.

Module ExecutorFacts.
Import Tool PyStr PyStrFacts PyStrScanFacts Subprocess RepoTool.

(** ** BashExecutor.execute and run_bash *)

(** X20.  [BashExecutor.execute] never reports a silent success: with return code
    0 the standard output or the standard error it returns is not empty (a
    command without output gets the "completed successfully" text as its
    output).  A timeout or an exception comes back as return code 1 with an
    empty standard output and the reason as standard error; the return code
    of a completed command is passed on. *)
Theorem execute_result_never_silent (o : outcome) :
  let '(stdout, stderr, returncode) := execute_result o in
  (returncode = 0 -> truthy stdout || truthy stderr = true)
  /\ match o with
     | Completed _ _ rc => returncode = rc
     | _ => returncode = 1 /\ stdout = EmptyString /\ truthy stderr = true
     end.
Proof.
  destruct o as [out err rc| |e]; unfold execute_result.
  - destruct (truthy (strip out)) eqn:Ho, (truthy (strip err)) eqn:He,
      (rc =? 0) eqn:Hrc; cbn [negb andb]; rewrite ?Ho, ?He;
      (split; [|reflexivity]); try (intros _; reflexivity).
    intros ->. discriminate.
  - split; [discriminate|]. repeat split.
  - split; [discriminate|]. repeat split.
Qed.

Lemma no_output_fits : (MAX_OUTPUT <? String.length no_output)%nat = false.
Proof. vm_compute. reflexivity. Qed.

(** X21.  A command that prints nothing is recorded and reported by [run_bash] as
    "Command completed successfully but produced no output" whatever its
    return code: for return code 0 the text comes from [execute], for any
    other from [_execute_command] itself; only the [success] flag of the
    recorded entry tells the two apart. *)
Theorem run_bash_blank_output (container_name : string)
    (docker : list call -> call -> outcome) (command : string) (w : world)
    (ws : workspace) (stdout stderr : string) (returncode : Z) :
  stored_workspace w = Some ws ->
  docker (calls w) (docker_call container_name command None)
  = Completed stdout stderr returncode ->
  strip stdout = EmptyString -> strip stderr = EmptyString ->
  run_bash container_name docker command w
  = (Tool.success_response ("Command executed:" +:+ nl +:+ no_output),
     {| stored_workspace :=
          Some (recorded ws {| entry_command := command;
                               entry_output := Some no_output;
                               entry_success := Some (returncode =? 0) |});
        calls := (calls w ++ [docker_call container_name command None])%list;
        scheduled_failures := scheduled_failures w |}).
Proof.
  intros Hws Hd Ho He.
  unfold run_bash, _execute_command, tool_method, _execute_command_body,
    bind, execute. cbv beta zeta. rewrite Hd.
  unfold execute_result. rewrite Ho, He. cbn [truthy negb andb].
  assert (Ht : forall out, out = no_output \/ out = EmptyString ->
                truncate_output out EmptyString = no_output).
  { intros out [-> | ->]; vm_compute; reflexivity. }
  destruct (returncode =? 0) eqn:Hrc; cbv iota beta;
    (rewrite Ht by auto);
    unfold _update_terminal, bind, get_workspace, set_workspace,
      success_response, ret; cbn [stored_workspace calls scheduled_failures];
    rewrite Hws; unfold recorded; rewrite ?Hrc; reflexivity.
Qed.

Lemma run_bash_blank_output_witness :
  run_bash "box" (fun _ _ => Completed " " nl 3) "false" Sample.one_file_open
  = (Tool.success_response ("Command executed:" +:+ nl +:+ no_output),
     {| stored_workspace :=
          Some (recorded
                  {| open_folders := ∅; open_files := Some ["/testbed/a.py"];
                     last_terminal_session := None; latest_failures := None |}
                  {| entry_command := "false";
                     entry_output := Some no_output;
                     entry_success := Some (3 =? 0) |});
        calls := (calls Sample.one_file_open
                  ++ [docker_call "box" "false" None])%list;
        scheduled_failures := scheduled_failures Sample.one_file_open |}).
Proof.
  apply (run_bash_blank_output "box" (fun _ _ => Completed " " nl 3) "false"
           Sample.one_file_open _ " " nl 3); reflexivity.
Defined.

(** ** The output kept by run_bash *)

(** X22.  The output [_execute_command] records and reports is never longer than
    [MAX_OUTPUT] + 34 characters: a combined output of more than
    [MAX_OUTPUT] characters is cut to exactly that length (5000 from the
    head, the 34 of the marker, 10000 from the tail), every other one is
    kept whole, the empty one being replaced by the "no output" text. *)
Theorem truncate_output_bounded (stdout stderr : string) :
  let combined_output := stdout +:+ stderr in
  (String.length (truncate_output stdout stderr) <= MAX_OUTPUT + 34)%nat
  /\ ((MAX_OUTPUT < String.length combined_output)%nat
      /\ String.length (truncate_output stdout stderr)
         = (MAX_OUTPUT + 34)%nat
      \/ (String.length combined_output <= MAX_OUTPUT)%nat
         /\ truncate_output stdout stderr
            = if truthy combined_output then combined_output else no_output).
Proof.
  intros combined_output. unfold truncate_output. fold combined_output.
  cbv zeta.
  assert (Hno : String.length no_output = 53%nat) by reflexivity.
  destruct (truthy combined_output) eqn:Ht.
  - destruct (MAX_OUTPUT <? String.length combined_output)%nat eqn:Hlt.
    + apply Nat.ltb_lt in Hlt.
      assert (Hlen : String.length
                (head KEEP_HEAD combined_output +:+ nl +:+ nl
                 +:+ "...LENGTHY OUTPUT TRUNCATED..." +:+ nl +:+ nl
                 +:+ tail KEEP_TAIL combined_output) = (MAX_OUTPUT + 34)%nat).
      { rewrite !length_append. unfold head, tail.
        rewrite !length_substring.
        change (String.length nl) with 1%nat.
        change (String.length "...LENGTHY OUTPUT TRUNCATED...") with 30%nat.
        unfold MAX_OUTPUT, KEEP_HEAD, KEEP_TAIL in *. lia. }
      rewrite Hlen. split; [lia|]. left. split; [exact Hlt|reflexivity].
    + apply Nat.ltb_ge in Hlt. split; [lia|]. right.
      split; [exact Hlt|reflexivity].
  - assert (Hc : combined_output = EmptyString).
    { destruct combined_output; [reflexivity|discriminate]. }
    rewrite Hc. rewrite no_output_fits. rewrite Hno.
    unfold MAX_OUTPUT. split; [lia|]. right. cbn [String.length].
    split; [lia|reflexivity].
Qed.

End ExecutorFacts.

Module FailureFacts.
Import Tool PyStr PyStrFacts PyStrScanFacts Subprocess RepoTool.

(** ** The failures handed to the event loop *)

Lemma quiet_ret {A} (a : A) : quiet (ret a).
Proof. intros w. reflexivity. Qed.

Lemma quiet_raise {A} (e : exn) : quiet (@raise world A e).
Proof. intros w. reflexivity. Qed.

Lemma quiet_get_workspace : quiet get_workspace.
Proof. intros w. reflexivity. Qed.

Lemma quiet_set_workspace ws : quiet (set_workspace ws).
Proof. intros w. reflexivity. Qed.

Lemma quiet_execute container_name docker command input :
  quiet (execute container_name docker command input).
Proof. intros w. reflexivity. Qed.

Lemma quiet_bind {A B} (m : W A) (k : A -> W B) :
  quiet m -> (forall a, quiet (k a)) -> quiet (bind m k).
Proof.
  intros Hm Hk w. unfold bind. specialize (Hm w).
  destruct (m w) as [[a|e] w1]; simpl in *; [|exact Hm].
  rewrite (Hk a w1). exact Hm.
Qed.

Lemma quiet_update_terminal command output success :
  quiet (_update_terminal command output success).
Proof.
  unfold _update_terminal. apply quiet_bind; [apply quiet_get_workspace|].
  intros [ws|]; [apply quiet_set_workspace|apply quiet_raise].
Qed.

Lemma tagged_success_response message : tagged (success_response message).
Proof. intros w. simpl. rewrite app_nil_r. reflexivity. Qed.

Lemma tagged_fail_response message : tagged (fail_response message).
Proof. intros w. reflexivity. Qed.

Lemma tagged_raise e : tagged (raise e).
Proof. intros w. simpl. rewrite app_nil_r. reflexivity. Qed.

Lemma tagged_bind {A} (m : W A) (k : A -> W ToolResult) :
  quiet m -> (forall a, tagged (k a)) -> tagged (bind m k).
Proof.
  intros Hm Hk w. unfold bind. specialize (Hm w).
  destruct (m w) as [[a|e] w1]; simpl in *.
  - rewrite (Hk a w1), Hm. reflexivity.
  - rewrite app_nil_r. exact Hm.
Qed.

Lemma tagged_tool_method body on_error :
  tagged body -> reports_failures (tool_method body on_error).
Proof.
  intros Hb w. unfold tool_method. specialize (Hb w).
  destruct (body w) as [[r|e] w1]; simpl in *; [exact Hb|].
  rewrite Hb, app_nil_r. reflexivity.
Qed.

Create HintDb tools.

#[local] Hint Resolve quiet_ret quiet_raise quiet_get_workspace
  quiet_set_workspace quiet_execute quiet_update_terminal
  tagged_success_response tagged_fail_response tagged_raise : tools.

(** X23.  Every tool method hands to the event loop exactly the failures it
    returns: after [edit_file], [run_bash], [open_file], [view_folder] or
    [create_file] the scheduled [_add_failure] tasks are those of before,
    followed by the output of the result when it is failure-tagged, and by
    nothing when it is a success; this holds on every path, the [except]
    clause included. *)
Theorem tools_report_failures (container_name : string)
    (docker : list call -> call -> outcome)
    (finditer_old_new : string -> list (string * string))
    (path command content : string) (replacements : pyval)
    (depth : option Z) :
  reports_failures
    (edit_file container_name docker finditer_old_new path replacements)
  /\ reports_failures (run_bash container_name docker command)
  /\ reports_failures (open_file path)
  /\ reports_failures (view_folder path depth)
  /\ reports_failures (create_file container_name docker path content).
Proof.
  repeat split; apply tagged_tool_method.
  - unfold edit_file_body.
    apply tagged_bind; [auto with tools|]. intros [ws|]; [|auto with tools].
    destruct (not_open ws path); [auto with tools|].
    apply tagged_bind; [auto with tools|]. intros [[stdout stderr] rc].
    destruct (negb (rc =? 0)); [auto with tools|].
    destruct (replacements_list finditer_old_new replacements)
      as [msg|[|rep rest]]; [auto with tools..|].
    destruct (apply_replacements (rep :: rest) stdout) as [msg|content'];
      [auto with tools|].
    apply tagged_bind; [auto with tools|]. intros [[stdout' stderr'] rc'].
    destruct (negb (rc' =? 0)); auto with tools.
  - unfold _execute_command_body.
    apply tagged_bind; [auto with tools|]. intros [[stdout stderr] rc].
    apply tagged_bind; auto with tools.
  - unfold open_file_body.
    apply tagged_bind; [auto with tools|]. intros [ws|]; [|auto with tools].
    destruct (negb _); [|auto with tools].
    apply tagged_bind; auto with tools.
  - unfold view_folder_body.
    apply tagged_bind; [auto with tools|]. intros [ws|]; [|auto with tools].
    destruct (open_folders ws !! path); [auto with tools|].
    apply tagged_bind; auto with tools.
  - unfold create_file_body.
    apply tagged_bind; [auto with tools|]. intros [[stdout stderr] rc].
    destruct (rc =? 0); [|auto with tools].
    apply tagged_bind; [auto with tools|]. intros [ws|]; [|auto with tools].
    apply tagged_bind; [|auto with tools].
    destruct (negb _); auto with tools.
Qed.

End FailureFacts.

Module WorkspaceFacts.
Import Tool PyStr PyStrFacts PyStrScanFacts Subprocess RepoTool.

(** ** open_file and view_folder *)

(** X24.  With a workspace stored, [open_file] always succeeds and makes no call
    to the container; afterwards the path is open (so [edit_file] no longer
    refuses it as not open): it is appended to the open files if it was not
    among them, and the workspace is left as it was if it was; the list
    gains no duplicate, and opening the same path again changes nothing. *)
Theorem open_file_opens (path : string) (w : world) (ws : workspace) :
  stored_workspace w = Some ws ->
  let files := default [] (open_files ws) in
  let out := open_file path w in
  success (fst out) = true
  /\ snd out
     = {| stored_workspace :=
            Some (if bool_decide (path ∈ files) then ws
                  else with_open_files ws (files ++ [path])%list);
          calls := calls w;
          scheduled_failures := scheduled_failures w |}
  /\ is_open (snd out) path = true
  /\ (NoDup files ->
      forall ws', stored_workspace (snd out) = Some ws' ->
                  NoDup (default [] (open_files ws')))
  /\ snd (open_file path (snd out)) = snd out.
Proof.
  intros Hws files out.
  assert (Hout : out
    = (Tool.success_response
         (if bool_decide (path ∈ files)
          then "File " +:+ path +:+ " is already open in the workspace."
          else "File " +:+ path +:+ " added to workspace."),
       {| stored_workspace :=
            Some (if bool_decide (path ∈ files) then ws
                  else with_open_files ws (files ++ [path])%list);
          calls := calls w;
          scheduled_failures := scheduled_failures w |})).
  { subst out. unfold open_file, tool_method, open_file_body, bind,
      get_workspace. rewrite Hws. fold files.
    destruct (bool_decide (path ∈ files)); cbn [negb].
    - unfold success_response, ret. rewrite <- Hws. destruct w; reflexivity.
    - reflexivity. }
  rewrite Hout. cbn [fst snd].
  assert (Hopen : forall fs, path ∈ fs ->
            is_open {| stored_workspace := Some (with_open_files ws fs);
                       calls := calls w;
                       scheduled_failures := scheduled_failures w |} path
            = true).
  { intros fs Hin. unfold is_open, not_open. simpl.
    rewrite bool_decide_eq_true_2 by exact Hin. reflexivity. }
  split; [destruct (bool_decide (path ∈ files)); reflexivity|].
  split; [reflexivity|].
  destruct (bool_decide (path ∈ files)) eqn:Hin.
  - apply bool_decide_eq_true_1 in Hin.
    assert (Hfiles : open_files ws = Some files).
    { subst files. destruct (open_files ws) as [fs|]; [reflexivity|].
      simpl in Hin. apply elem_of_nil in Hin. destruct Hin. }
    split; [|split].
    + unfold is_open, not_open. simpl. rewrite Hfiles.
      rewrite bool_decide_eq_true_2 by exact Hin. reflexivity.
    + intros Hnd ws' [= <-]. exact Hnd.
    + unfold open_file, tool_method, open_file_body, bind, get_workspace.
      simpl. rewrite Hfiles. simpl.
      rewrite bool_decide_eq_true_2 by exact Hin. reflexivity.
  - apply bool_decide_eq_false_1 in Hin.
    split; [|split].
    + apply Hopen. apply elem_of_app. right. apply list_elem_of_singleton.
      reflexivity.
    + intros Hnd ws' [= <-]. simpl. apply NoDup_app. split; [exact Hnd|].
      split; [|apply NoDup_singleton].
      intros x Hx Hx'. apply list_elem_of_singleton in Hx'. subst x.
      exact (Hin Hx).
    + unfold open_file, tool_method, open_file_body, bind, get_workspace.
      simpl.
      rewrite bool_decide_eq_true_2
        by (apply elem_of_app; right; apply list_elem_of_singleton;
            reflexivity).
      reflexivity.
Qed.

Lemma open_file_opens_witness :
  let out := open_file "/testbed/b.py" Sample.one_file_open in
  success (fst out) = true
  /\ is_open (snd out) "/testbed/b.py" = true
  /\ snd (open_file "/testbed/b.py" (snd out)) = snd out.
Proof.
  pose proof (open_file_opens "/testbed/b.py" Sample.one_file_open _ eq_refl)
    as (H1 & _ & H3 & _ & H5).
  exact (conj H1 (conj H3 H5)).
Defined.

(** X25.  With a workspace stored, [view_folder] always succeeds and makes no
    call to the container.  The depth recorded for a folder is the one of
    the first call that opened it: a folder already open keeps its depth
    whatever depth is asked for now, a new one gets the depth asked for,
    with 2 in place of a missing depth and of depth 0.  No other folder
    changes. *)
Theorem view_folder_first_depth_wins (path : string) (depth : option Z)
    (w : world) (ws : workspace) :
  stored_workspace w = Some ws ->
  let out := view_folder path depth w in
  success (fst out) = true
  /\ calls (snd out) = calls w
  /\ exists ws',
       stored_workspace (snd out) = Some ws'
       /\ open_folders ws' !! path
          = Some (match open_folders ws !! path with
                  | Some d => d
                  | None =>
                      match depth with
                      | Some 0 | None => 2
                      | Some d => d
                      end
                  end)
       /\ (forall other, other <> path ->
             open_folders ws' !! other = open_folders ws !! other)
       /\ open_files ws' = open_files ws.
Proof.
  intros Hws out. subst out.
  unfold view_folder, tool_method, view_folder_body, bind, get_workspace.
  rewrite Hws.
  destruct (open_folders ws !! path) as [d|] eqn:Hd; simpl.
  - repeat split. exists ws. rewrite Hws, Hd. repeat split.
  - repeat split. eexists. split; [reflexivity|]. simpl.
    rewrite lookup_insert_eq. split; [|split].
    + f_equal. unfold depth_or_2. destruct depth as [[| |]|]; reflexivity.
    + intros other Hne. rewrite lookup_insert_ne by congruence. reflexivity.
    + reflexivity.
Qed.

Lemma view_folder_first_depth_wins_witness :
  let out := view_folder "/testbed/src" (Some 0) Sample.one_file_open in
  success (fst out) = true
  /\ calls (snd out) = calls Sample.one_file_open
  /\ exists ws',
       stored_workspace (snd out) = Some ws'
       /\ open_folders ws' !! "/testbed/src" = Some 2
       /\ (forall other, other <> "/testbed/src" ->
             open_folders ws' !! other = (∅ : gmap string Z) !! other)
       /\ open_files ws' = Some ["/testbed/a.py"].
Proof.
  exact (view_folder_first_depth_wins "/testbed/src" (Some 0)
           Sample.one_file_open _ eq_refl).
Defined.

(** ** create_file *)

(** X26.  [create_file] makes exactly one call to the container, the [mkdir] and
    [echo] command with the path and the content quoted.  When that call
    returns 0 and a workspace is stored, the result is the success and the
    path is open afterwards, appended to the open files unless it was among
    them; when it returns anything else, the result is the failure with the
    standard error and the workspace is untouched.  Without a stored
    workspace the file is created all the same and the result is a
    failure. *)
Theorem create_file_outcomes (container_name : string)
    (docker : list call -> call -> outcome) (path content : string)
    (w : world) :
  let c := docker_call container_name (create_command path content) None in
  let r := execute_result (docker (calls w) c) in
  let out := create_file container_name docker path content w in
  calls (snd out) = (calls w ++ [c])%list
  /\ if snd r =? 0 then
       match stored_workspace w with
       | Some ws =>
           let files := default [] (open_files ws) in
           fst out
           = Tool.success_response
               ("File " +:+ path +:+ " created successfully.")
           /\ stored_workspace (snd out)
              = Some (if bool_decide (path ∈ files) then ws
                      else with_open_files ws (files ++ [path])%list)
           /\ is_open (snd out) path = true
       | None =>
           success (fst out) = false /\ stored_workspace (snd out) = None
       end
     else
       fst out
       = Tool.fail_response
           ("Failed to create file " +:+ path +:+ ": " +:+ snd (fst r))
       /\ stored_workspace (snd out) = stored_workspace w.
Proof.
  intros c r out. subst out r.
  unfold create_file, tool_method, create_file_body, bind, execute.
  cbv beta zeta. fold c.
  destruct (execute_result (docker (calls w) c)) as [[stdout stderr] rc].
  cbn [fst snd].
  destruct (rc =? 0) eqn:Hrc.
  2:{ simpl. repeat split. }
  unfold get_workspace. cbn [stored_workspace].
  destruct (stored_workspace w) as [ws|] eqn:Hws.
  2:{ simpl. repeat split. }
  cbv zeta.
  destruct (bool_decide (path ∈ default [] (open_files ws))) eqn:Hin;
    cbn [negb]; simpl.
  - repeat split. unfold is_open, not_open. simpl.
    apply bool_decide_eq_true_1 in Hin.
    destruct (open_files ws) as [fs|]; simpl in *.
    + rewrite bool_decide_eq_true_2 by exact Hin. reflexivity.
    + apply elem_of_nil in Hin. destruct Hin.
  - repeat split. unfold is_open, not_open. simpl.
    rewrite bool_decide_eq_true_2; [reflexivity|].
    apply elem_of_app. right. apply list_elem_of_singleton. reflexivity.
Qed.

(** ** _init_workspace *)

Lemma main_folder_no_tests (f : string) :
  main_folder f = true -> contains "tests" f = false.
Proof.
  unfold main_folder, exclude_dirs. cbn [existsb].
  destruct (contains "tests" f); [discriminate|reflexivity].
Qed.

(** X27.  [_init_workspace] never raises.  It does nothing when a workspace is
    stored.  When none is, it makes one call to the container
    ([ls -d /testbed/*/]) and stores a workspace with no open file, an empty
    terminal session, and as open folders [/testbed] at depth 1 plus, when
    exactly one line of the listing names none of the excluded directories,
    that folder at depth 2; in every other case a failure is handed to the
    event loop and the workspace is stored all the same.  The folder
    [/testbed/tests] is never opened: the branch that adds it looks for
    [/testbed/tests/] among folders from which every name holding [tests]
    was taken out. *)
Theorem init_workspace_outcomes (container_name : string)
    (docker : list call -> call -> outcome) (w : world) :
  let c := docker_call container_name "ls -d /testbed/*/" None in
  let r := execute_result (docker (calls w) c) in
  let folders := List.filter main_folder (splitlines (fst (fst r))) in
  let out := _init_workspace container_name docker w in
  fst out = Ok tt
  /\ match stored_workspace w with
     | Some _ => snd out = w
     | None =>
         calls (snd out) = (calls w ++ [c])%list
         /\ scheduled_failures (snd out)
            = (scheduled_failures w
               ++ match folders with
                  | [_] => []
                  | _ => ["Error finding main source code folder: "
                          +:+ snd (fst r)]
                  end)%list
         /\ exists ws,
              stored_workspace (snd out) = Some ws
              /\ open_folders ws
                 = match folders with
                   | [folder] => <[folder := 2]> {["/testbed" := 1]}
                   | _ => {["/testbed" := 1]}
                   end
              /\ open_folders ws !! "/testbed/tests" = None
              /\ open_files ws = Some []
              /\ last_terminal_session ws = Some []
     end.
Proof.
  intros c r folders out. subst out.
  unfold _init_workspace, bind, get_workspace.
  destruct (stored_workspace w) as [ws0|] eqn:Hws.
  { split; reflexivity. }
  unfold execute. cbv beta zeta. fold c. fold r.
  destruct r as [[stdout stderr] rc] eqn:Hr. cbn [fst snd] in *.
  fold folders.
  assert (Hdead : bool_decide ("/testbed/tests/" ∈ folders) = false).
  { apply bool_decide_eq_false_2. intros Hin.
    apply list_elem_of_In in Hin. apply filter_In in Hin as [_ Hmain].
    apply main_folder_no_tests in Hmain. vm_compute in Hmain. discriminate. }
  rewrite Hdead.
  assert (Hnot : forall f, In f folders -> f <> "/testbed/tests").
  { intros f Hin%filter_In ->. destruct Hin as [_ Hmain].
    apply main_folder_no_tests in Hmain. vm_compute in Hmain. discriminate. }
  destruct folders as [|folder [|folder' rest]] eqn:Hf; simpl.
  - split; [reflexivity|]. repeat split.
    eexists. split; [reflexivity|]. simpl. repeat split.
  - split; [reflexivity|]. rewrite app_nil_r. repeat split.
    eexists. split; [reflexivity|]. simpl. split; [reflexivity|].
    split; [|split; reflexivity].
    rewrite lookup_insert_ne by (apply Hnot; left; reflexivity).
    reflexivity.
  - split; [reflexivity|]. repeat split.
    eexists. split; [reflexivity|]. simpl. repeat split.
Qed.

End WorkspaceFacts.

Module RegexFacts.
Import Tool PyStr PyStrFacts PyStrScanFacts Subprocess RepoTool.

(** ** The pattern of transform_string_to_dict *)

Lemma match_from_old_close_block between new_string behind :
  forallb is_space (list_ascii_of_string between) = true ->
  contains "</new_string>" new_string = false ->
  match_from_old_close
    ("</old_string>" +:+ between +:+ "<new_string>" +:+ new_string
     +:+ "</new_string>" +:+ behind)
  = Some (new_string, behind).
Proof.
  intros Hws Hn. unfold match_from_old_close.
  rewrite prefix_app.
  change 13%nat with (String.length "</old_string>").
  rewrite drop_chars_app.
  change ("<new_string>" +:+ new_string +:+ "</new_string>" +:+ behind)
    with (String "<" ("new_string>" +:+ new_string +:+ "</new_string>"
                      +:+ behind)).
  rewrite (lstrip_app _ _ _ Hws) by reflexivity.
  change (String "<" ("new_string>" +:+ new_string +:+ "</new_string>"
                      +:+ behind))
    with ("<new_string>" +:+ new_string +:+ "</new_string>" +:+ behind).
  rewrite prefix_app.
  change 12%nat with (String.length "<new_string>").
  rewrite drop_chars_app. unfold split_at.
  change "</new_string>" with (String "<" "/new_string>") in *.
  rewrite split_at_from_finds by (reflexivity || exact Hn).
  cbn [rev app]. rewrite string_of_list_ascii_of_string. reflexivity.
Qed.

Lemma match_from_old_open_eq group s :
  match_from_old_open group s
  = match match_from_old_close s with
    | Some (new_string, rest) =>
        Some (string_of_list_ascii (rev group), new_string, rest)
    | None =>
        match s with
        | EmptyString => None
        | String c rest => match_from_old_open (c :: group) rest
        end
    end.
Proof. destruct s; reflexivity. Qed.

Lemma match_from_old_open_block new_string behind rest :
  match_from_old_close ("</old_string>" +:+ rest)
  = Some (new_string, behind) ->
  forall old_string group,
    contains "</old_string>" old_string = false ->
    match_from_old_open group (old_string +:+ "</old_string>" +:+ rest)
    = Some (string_of_list_ascii
              (rev group ++ list_ascii_of_string old_string)%list,
            new_string, behind).
Proof.
  intros Hclose. induction old_string as [|c o IH]; intros group Hc.
  - rewrite append_nil_l, match_from_old_open_eq, Hclose.
    cbn [list_ascii_of_string]. rewrite app_nil_r. reflexivity.
  - rewrite match_from_old_open_eq.
    assert (Hno : match_from_old_close
                    (String c o +:+ "</old_string>" +:+ rest) = None).
    { unfold match_from_old_close.
      change "</old_string>" with (String "<" "/old_string>") in *.
      rewrite tag_border by (reflexivity || congruence || exact Hc).
      reflexivity. }
    rewrite Hno, append_cons.
    rewrite contains_cons in Hc. apply orb_false_iff in Hc as [_ Hc].
    rewrite (IH _ Hc). cbn [rev list_ascii_of_string].
    rewrite <- app_assoc. reflexivity.
Qed.

Lemma finditer_from_cons c rest :
  finditer_from 0 (String c rest)
  = if String.prefix "<old_string>" (String c rest) then
      match match_from_old_open [] (drop_chars 12 (String c rest)) with
      | Some (old_string, new_string, behind) =>
          (old_string, new_string)
          :: finditer_from
               (String.length (String c rest) - String.length behind - 1)
               rest
      | None => finditer_from 0 rest
      end
    else finditer_from 0 rest.
Proof. reflexivity. Qed.

Lemma finditer_from_skip (x rest : string) :
  finditer_from (String.length x) (x +:+ rest) = finditer_from 0 rest.
Proof. induction x as [|c x IH]; [destruct rest; reflexivity|exact IH]. Qed.

Lemma finditer_from_no_tag (text : string) :
  contains "<old_string>" text = false -> finditer_from 0 text = [].
Proof.
  induction text as [|c text IH]; intros Hc; [reflexivity|].
  rewrite contains_cons in Hc. apply orb_false_iff in Hc as [Hp Hc].
  rewrite finditer_from_cons, Hp. exact (IH Hc).
Qed.

Lemma finditer_from_before (before rest : string) :
  contains "<old_string>" before = false ->
  finditer_from 0 (before +:+ "<old_string>" +:+ rest)
  = finditer_from 0 ("<old_string>" +:+ rest).
Proof.
  induction before as [|c before IH]; intros Hc; [reflexivity|].
  assert (Hp : String.prefix "<old_string>"
                 (String c before +:+ "<old_string>" +:+ rest) = false).
  { change "<old_string>" with (String "<" "old_string>") in *.
    apply tag_border; [reflexivity|congruence|exact Hc]. }
  rewrite append_cons in *. rewrite finditer_from_cons, Hp.
  rewrite contains_cons in Hc. apply orb_false_iff in Hc as [_ Hc].
  exact (IH Hc).
Qed.

Lemma finditer_from_block (b : replacement_block) (rest : string) :
  well_formed_block b = true ->
  finditer_from 0
    (block_before b +:+ "<old_string>" +:+ block_old b +:+ "</old_string>"
     +:+ block_between b +:+ "<new_string>" +:+ block_new b
     +:+ "</new_string>" +:+ rest)
  = block_pair b :: finditer_from 0 rest.
Proof.
  destruct b as [before o ws n]. unfold well_formed_block, block_pair.
  cbn [block_before block_old block_between block_new].
  intros H. apply andb_true_iff in H as [H Hn].
  apply andb_true_iff in H as [H Hws].
  apply andb_true_iff in H as [Hb Ho].
  apply negb_true_iff in Hn, Ho, Hb.
  rewrite finditer_from_before by exact Hb.
  set (inner := o +:+ "</old_string>" +:+ ws +:+ "<new_string>" +:+ n
                +:+ "</new_string>" +:+ rest).
  change ("<old_string>" +:+ inner) with (String "<" ("old_string>" +:+ inner)).
  rewrite finditer_from_cons.
  change (String "<" ("old_string>" +:+ inner)) with ("<old_string>" +:+ inner).
  rewrite prefix_app.
  change 12%nat with (String.length "<old_string>").
  rewrite drop_chars_app. subst inner.
  rewrite (match_from_old_open_block n rest)
    by (try apply match_from_old_close_block; assumption).
  cbn [rev app]. rewrite string_of_list_ascii_of_string.
  f_equal.
  set (matched := "old_string>" +:+ o +:+ "</old_string>" +:+ ws
                  +:+ "<new_string>" +:+ n +:+ "</new_string>").
  replace ("old_string>" +:+ o +:+ "</old_string>" +:+ ws +:+ "<new_string>"
           +:+ n +:+ "</new_string>" +:+ rest)
    with (matched +:+ rest)
    by (subst matched; rewrite !append_assoc; reflexivity).
  replace ("<old_string>" +:+ o +:+ "</old_string>" +:+ ws +:+ "<new_string>"
           +:+ n +:+ "</new_string>" +:+ rest)
    with (String "<" (matched +:+ rest))
    by (subst matched; rewrite !append_assoc; reflexivity).
  cbn [String.length]. rewrite length_append.
  replace (S (String.length matched + String.length rest)
           - String.length rest - 1)%nat
    with (String.length matched) by lia.
  apply finditer_from_skip.
Qed.

Lemma finditer_replacements_text blocks trailer :
  forallb well_formed_block blocks = true ->
  contains "<old_string>" trailer = false ->
  re_finditer_old_new (replacements_text blocks trailer)
  = map block_pair blocks.
Proof.
  intros Hb Ht. unfold re_finditer_old_new.
  induction blocks as [|b blocks IH]; cbn [replacements_text map].
  - exact (finditer_from_no_tag _ Ht).
  - cbn [forallb] in Hb. apply andb_true_iff in Hb as [Hb Hbs].
    rewrite (finditer_from_block _ _ Hb), (IH Hbs). reflexivity.
Qed.

(** X28.  The text form of the replacements is read back as written.  In a text
    made of replacements, each an [<old_string>] element and a
    [<new_string>] element with white space between them and any text
    without [<old_string>] around them, where no old string holds
    [</old_string>] and no new string [</new_string>],
    [transform_string_to_dict] finds every replacement, in order, with both
    strings as written, and nothing else; so [edit_file] called with the
    text does what it does when called with the list of these replacements
    (and fails with "No valid replacements provided." on a text that holds
    none). *)
Theorem transform_string_to_dict_reads_back
    (blocks : list replacement_block) (trailer : string)
    (container_name : string) (docker : list call -> call -> outcome)
    (path : string) (w : world) :
  forallb well_formed_block blocks = true ->
  contains "<old_string>" trailer = false ->
  let text := replacements_text blocks trailer in
  let dicts :=
    map (fun b => replacement_dict (block_old b) (block_new b)) blocks in
  transform_string_to_dict re_finditer_old_new text
  = {["replacement" := dicts]}
  /\ edit_file container_name docker re_finditer_old_new path (PStr text) w
     = edit_file container_name docker re_finditer_old_new path
         (PList dicts) w.
Proof.
  intros Hb Ht text dicts.
  assert (Hd : transform_string_to_dict re_finditer_old_new text
               = {["replacement" := dicts]}).
  { unfold transform_string_to_dict. subst text dicts.
    rewrite (finditer_replacements_text _ _ Hb Ht), map_map. reflexivity. }
  split; [exact Hd|].
  assert (Hl : replacements_list re_finditer_old_new (PStr text)
               = replacements_list re_finditer_old_new (PList dicts)).
  { unfold replacements_list. rewrite Hd, lookup_singleton_eq. reflexivity. }
  unfold edit_file, edit_file_body. rewrite Hl. reflexivity.
Qed.

Lemma transform_string_to_dict_reads_back_witness :
  let blocks :=
    [ {| block_before := nl +:+ "<replacement>" +:+ nl;
         block_old := "foo"; block_between := nl; block_new := "bar" |};
      {| block_before := nl +:+ "</replacement><replacement>";
         block_old := "x <new_string> y"; block_between := EmptyString;
         block_new := EmptyString |} ] in
  let text := replacements_text blocks "</replacement>" in
  let dicts := [replacement_dict "foo" "bar";
                replacement_dict "x <new_string> y" EmptyString] in
  transform_string_to_dict re_finditer_old_new text
  = {["replacement" := dicts]}
  /\ edit_file "box" (Sample.one_file_container "foo x <new_string> y")
       re_finditer_old_new "/testbed/a.py" (PStr text) Sample.one_file_open
     = edit_file "box" (Sample.one_file_container "foo x <new_string> y")
         re_finditer_old_new "/testbed/a.py" (PList dicts)
         Sample.one_file_open.
Proof.
  apply (transform_string_to_dict_reads_back
           [ {| block_before := nl +:+ "<replacement>" +:+ nl;
                block_old := "foo"; block_between := nl;
                block_new := "bar" |};
             {| block_before := nl +:+ "</replacement><replacement>";
                block_old := "x <new_string> y";
                block_between := EmptyString;
                block_new := EmptyString |} ]
           "</replacement>" "box"
           (Sample.one_file_container "foo x <new_string> y")
           "/testbed/a.py" Sample.one_file_open); reflexivity.
Defined.

End RegexFacts.

Module EditLoopFacts.
Import Tool PyStr PyStrFacts PyStrScanFacts Subprocess RepoTool.

(** X29.  The loop of [edit_file] over the replacements composes: a list of
    replacements followed by a second one rewrites the content as the first
    list does and then the second, started on what the first left; the
    failure of the first list is the failure of the whole, and the second
    list is then not looked at. *)
Theorem apply_replacements_app (reps1 reps2 : list pyval) (content : string) :
  apply_replacements (reps1 ++ reps2)%list content
  = match apply_replacements reps1 content with
    | inl message => inl message
    | inr content' => apply_replacements reps2 content'
    end.
Proof.
  revert content. induction reps1 as [|rep reps1 IH]; intros content.
  - reflexivity.
  - cbn [app apply_replacements].
    destruct rep as [s|items|d|]; try reflexivity.
    destruct (d !! "old_string") as [[old_string| | |]|]; try reflexivity;
      destruct (d !! "new_string") as [[new_string| | |]|]; try reflexivity.
    destruct (negb (contains old_string content)); [reflexivity|].
    apply IH.
Qed.

(** X30.  A replacement with an empty [old_string] is not refused: the empty
    string is found in every content, and the replacement puts [new_string]
    in front of every character and at the end, so the content grows by
    (length + 1) copies of it, before the replacements that follow are
    applied. *)
Theorem apply_replacements_empty_old_string (new_string : string)
    (rest : list pyval) (content : string) :
  apply_replacements (replacement_dict EmptyString new_string :: rest) content
  = apply_replacements rest (interleave new_string content)
  /\ String.length (interleave new_string content)
     = (String.length content
        + (String.length content + 1) * String.length new_string)%nat.
Proof.
  split.
  - unfold replacement_dict. cbn [apply_replacements].
    rewrite lookup_insert_eq, lookup_insert_ne by discriminate.
    rewrite lookup_singleton_eq, contains_empty. reflexivity.
  - induction content as [|c content IH]; cbn [interleave String.length].
    + lia.
    + rewrite length_append. cbn [String.length]. rewrite IH. lia.
Qed.

End EditLoopFacts.
